(** * Project-portfolio analytics: a shallow embedding of the ETL and
      aggregation pipelines of [data_analytics.py], [generate_report.py]
      and [app.py], and the properties of the specification checked
      against them.

    Tables are pandas DataFrames.  A frame is modelled row by row: the
    list of its column labels and, for every row, a finite map from
    column label to cell.  Finite numeric cells are exact rationals
    (rounding of binary floating point is not modelled); a division can
    leave the finite numbers and therefore lands in [fval], which has
    the two infinities and NaN.  Python exceptions are values of
    [error]. *)

From Stdlib Require Import QArith Qcanon ZArith List Ascii String Sorting Permutation Lia.
From stdpp Require Import base numbers option list strings gmap fin_maps sorting.

Open Scope string_scope.
Open Scope list_scope.

(** ** The pandas layer *)
Module Pandas.

#[local] Open Scope Qc_scope.

(** A cell.  [VNaN] is the absent marker of numeric and object columns,
    [VNaT] the absent marker of datetime columns.  Boolean cells are kept
    as their literal text. *)
Inductive value :=
| VNum (q : Qc)
| VStr (s : string)
| VDate (t : Z)
| VNaN
| VNaT.

#[global] Instance value_eq_dec : EqDecision value.
Proof. solve_decision. Defined.

Definition isna (v : value) : bool :=
  match v with VNaN | VNaT => true | _ => false end.

(** The result of a true division of two float64 numbers. *)
Inductive fval :=
| FFin (q : Qc)
| FPosInf
| FNegInf
| FNaN.

#[global] Instance fval_eq_dec : EqDecision fval.
Proof. solve_decision. Defined.

(** Exceptions.  Python raises [KeyError] both for a table missing from
    the dictionary of frames and for a column missing from a frame; the
    two sites are kept apart here. *)
Inductive error :=
| FileNotFoundError (path : string)
| MissingTable (name : string)
| MissingColumn (col : string)
| TypeError
| AttributeError.

Inductive result (A : Type) :=
| Ok (a : A)
| Err (e : error).
Arguments Ok {A} a.
Arguments Err {A} e.

#[global] Instance error_eq_dec : EqDecision error.
Proof. solve_decision. Defined.

#[global] Instance result_eq_dec {A} `{EqDecision A} : EqDecision (result A).
Proof. solve_decision. Defined.

Definition bind {A B} (m : result A) (f : A -> result B) : result B :=
  match m with Ok a => f a | Err e => Err e end.

Notation "'let*' x ':=' m 'in' k" := (bind m (fun x => k))
  (at level 10, x name, m at level 100, k at level 200).

Fixpoint mapM {A B} (f : A -> result B) (l : list A) : result (list B) :=
  match l with
  | [] => Ok []
  | x :: l' => let* y := f x in let* ys := mapM f l' in Ok (y :: ys)
  end.

(** A row and a frame. *)
Abbreviation Row := (gmap string value).

Record DataFrame := mkDF { columns : list string; rows : list (Row) }.

#[global] Instance DataFrame_eq_dec : EqDecision DataFrame.
Proof. solve_decision. Defined.

(** [len(df)] *)
Definition len (df : DataFrame) : nat := length (rows df).

(** The cell of row [r] under label [c]. *)
Definition cell (c : string) (r : Row) : value := default VNaN (r !! c).

Definition has_column (df : DataFrame) (c : string) : bool := bool_decide (c ∈ columns df).

(** [df[c]]: the column as a list of cells, [KeyError] when the label is
    not a column. *)
Definition getitem (df : DataFrame) (c : string) : result (list value) :=
  if has_column df c then Ok (cell c <$> rows df) else Err (MissingColumn c).

(** [df[c] = f(row)]: every assignment of the programs computes the new
    column cell by cell from the frame it is assigned to. *)
Definition add_label (c : string) (cs : list string) : list string :=
  if bool_decide (c ∈ cs) then cs else cs ++ [c].

Definition assign (c : string) (f : Row -> value) (df : DataFrame) : DataFrame :=
  {| columns := add_label c (columns df);
     rows := (fun r : Row => <[c := f r]> r) <$> rows df |}.

(** [df[c] = g(df[c])] for a cell-wise [g]. *)
Definition transform (c : string) (g : value -> value) (df : DataFrame) : result DataFrame :=
  if has_column df c then Ok (assign c (fun r => g (cell c r)) df) else Err (MissingColumn c).

(** [df[mask]] with the mask computed row by row. *)
Definition select_rows (p : Row -> bool) (df : DataFrame) : DataFrame :=
  {| columns := columns df; rows := List.filter p (rows df) |}.

(** [df[[c1; ...; cn]]] *)
Definition select_columns (cs : list string) (df : DataFrame) : result DataFrame :=
  match List.find (fun c => negb (has_column df c)) cs with
  | Some c => Err (MissingColumn c)
  | None => Ok {| columns := cs;
                  rows := (fun r : Row => filter (fun kv => kv.1 ∈ cs) r) <$> rows df |}
  end.

(** [df.copy()] *)
Definition copy (df : DataFrame) : DataFrame := df.

(** [s.fillna(0)] on a cell and [df.fillna(0)] on a frame. *)
Definition fillna0 (v : value) : value :=
  match v with VNaN => VNum 0 | _ => v end.

Definition fillna (df : DataFrame) : DataFrame :=
  {| columns := columns df; rows := (fun r : Row => fillna0 <$> r) <$> rows df |}.

(** [s.isin(values)] on a cell; NaN matches NaN, as in pandas. *)
Definition isin (vals : list value) (v : value) : bool := bool_decide (v ∈ vals).

(** [s.unique()]: the distinct cells in order of first appearance. *)
Fixpoint unique (l : list value) : list value :=
  match l with
  | [] => []
  | v :: l' => v :: List.filter (fun w => negb (bool_decide (w = v))) (unique l')
  end.

(** *** Conversions *)

Definition Qc_of_Z (z : Z) : Qc := Q2Qc (inject_Z z).

(** The text parsers of [pd.to_numeric] and [pd.to_datetime] belong to
    pandas; they are parameters.  [None] is a text the parser rejects. *)
Section Conversions.
Variable parse_numeric : string -> option Qc.
Variable parse_datetime : string -> option Z.

(** [pd.to_numeric(s, errors='coerce')], on a cell.  A datetime column is
    viewed as its int64 nanosecond count, NaT being the least int64. *)
Definition to_numeric (v : value) : value :=
  match v with
  | VNum q => VNum q
  | VStr s => match parse_numeric s with Some q => VNum q | None => VNaN end
  | VDate t => VNum (Qc_of_Z t)
  | VNaN => VNaN
  | VNaT => VNum (Qc_of_Z (-9223372036854775808))
  end.

(** The int64 nanosecond count a number is read as: its fraction is cut
    off, towards zero; a count that does not fit in an int64, or is the
    least int64 (which is NaT itself), gives no date. *)
Definition nanoseconds (q : Qc) : option Z :=
  let t := Z.quot (Qnum q) (Zpos (Qden q)) in
  if bool_decide (-9223372036854775808 < t < 9223372036854775808)%Z then Some t else None.

(** [pd.to_datetime(s, errors='coerce')], on a cell.  A number is read as
    a nanosecond count.  pandas settles on one text format per column,
    from the first text of the column; that inference is not modelled:
    [parse_datetime] is the reader of one format, and the properties stated
    of converted columns do not depend on how a text is read. *)
Definition to_datetime (v : value) : value :=
  match v with
  | VNum q => match nanoseconds q with Some t => VDate t | None => VNaT end
  | VStr s => match parse_datetime s with Some t => VDate t | None => VNaT end
  | VDate t => VDate t
  | VNaN => VNaT
  | VNaT => VNaT
  end.
End Conversions.

(** *** Arithmetic on columns *)

(** The float view of a cell for arithmetic and reductions: [None] is NaN.
    Reductions are modelled on numeric columns; a text or datetime cell is
    a [TypeError]. *)
Definition as_float (v : value) : result (option Qc) :=
  match v with
  | VNum q => Ok (Some q)
  | VNaN => Ok None
  | _ => Err TypeError
  end.

Definition floats (c : string) (rs : list (Row)) : result (list (option Qc)) :=
  mapM (fun r => as_float (cell c r)) rs.

(** [s.sum()]: NaN is skipped, the empty sum is 0. *)
Definition series_sum (xs : list (option Qc)) : Qc :=
  foldr (fun x acc => default 0 x + acc) 0 xs.

(** [s.count()]: the number of cells that are not NaN. *)
Definition series_count (xs : list (option Qc)) : nat :=
  length (List.filter (fun x : option Qc => bool_decide (is_Some x)) xs).

Definition Qc_of_nat (n : nat) : Qc := Qc_of_Z (Z.of_nat n).

(** [s.mean()]: NaN when no cell counts. *)
Definition series_mean (xs : list (option Qc)) : fval :=
  match series_count xs with
  | O => FNaN
  | S _ as n => FFin (series_sum xs / Qc_of_nat n)
  end.

(** [df[c].sum()] and [df[c].mean()] *)
Definition col_sum (df : DataFrame) (c : string) : result Qc :=
  if has_column df c
  then let* xs := floats c (rows df) in Ok (series_sum xs)
  else Err (MissingColumn c).

Definition col_mean (df : DataFrame) (c : string) : result fval :=
  if has_column df c
  then let* xs := floats c (rows df) in Ok (series_mean xs)
  else Err (MissingColumn c).

(** [a + b] and [a - b] on two float cells: NaN propagates. *)
Definition lift2 (op : Qc -> Qc -> Qc) (a b : value) : result value :=
  let* x := as_float a in let* y := as_float b in
  Ok (match x, y with Some p, Some q => VNum (op p q) | _, _ => VNaN end).

(** [a / b] on float64: division by zero raises nothing, it yields an
    infinity or NaN. *)
Definition fdiv (a b : option Qc) : fval :=
  match a, b with
  | Some p, Some q =>
      if bool_decide (q = 0)
      then (if bool_decide (p = 0) then FNaN
            else if bool_decide (0 < p) then FPosInf else FNegInf)
      else FFin (p / q)
  | _, _ => FNaN
  end.

(** [x * 100] on float64. *)
Definition fscale (k : Qc) (x : fval) : fval :=
  match x with
  | FFin q => FFin (q * k)
  | FPosInf => if bool_decide (0 < k) then FPosInf else if bool_decide (k = 0) then FNaN else FNegInf
  | FNegInf => if bool_decide (0 < k) then FNegInf else if bool_decide (k = 0) then FNaN else FPosInf
  | FNaN => FNaN
  end.

(** *** Grouping *)

(** The order in which group keys are listed: numbers by magnitude, text
    lexicographically, dates by time; cells of different kinds by kind. *)
Definition value_ltb (a b : value) : bool :=
  match a, b with
  | VNum x, VNum y => bool_decide (x < y)
  | VNum _, _ => true
  | VStr _, VNum _ => false
  | VStr x, VStr y => String.ltb x y
  | VStr _, _ => true
  | VDate _, (VNum _ | VStr _) => false
  | VDate x, VDate y => bool_decide (x < y)%Z
  | VDate _, _ => true
  | _, _ => false
  end.

Fixpoint group_insert (k : value) (r : Row)
    (gs : list (value * list (Row))) : list (value * list (Row)) :=
  match gs with
  | [] => [(k, [r])]
  | (k', rs) :: gs' =>
      if bool_decide (k = k') then (k', rs ++ [r]) :: gs'
      else if value_ltb k k' then (k, [r]) :: gs
      else (k', rs) :: group_insert k r gs'
  end.

(** [df.groupby(key)]: rows whose key is absent belong to no group
    ([dropna=True], the default); groups are listed by sorted key, rows
    keep their order inside a group. *)
Definition groups (key : string) (rs : list (Row))
    : list (value * list (Row)) :=
  foldl (fun gs r => let k := cell key r in
                     if isna k then gs else group_insert k r gs) [] rs.

Definition groupby (df : DataFrame) (key : string)
    : result (list (value * list (Row))) :=
  if has_column df key then Ok (groups key (rows df)) else Err (MissingColumn key).

(** [df.groupby(key)[val].sum()]: a series indexed by group key. *)
Definition groupby_sum (df : DataFrame) (key val : string) : result (list (value * Qc)) :=
  let* gs := groupby df key in
  if has_column df val
  then mapM (fun g : value * list (Row) =>
               let* xs := floats val g.2 in Ok (g.1, series_sum xs)) gs
  else Err (MissingColumn val).

(** [df.groupby(key)[val].mean()] *)
Definition groupby_mean (df : DataFrame) (key val : string) : result (list (value * fval)) :=
  let* gs := groupby df key in
  if has_column df val
  then mapM (fun g : value * list (Row) =>
               let* xs := floats val g.2 in Ok (g.1, series_mean xs)) gs
  else Err (MissingColumn val).

(** [df.groupby(key).size()] *)
Definition groupby_size (df : DataFrame) (key : string) : result (list (value * Qc)) :=
  let* gs := groupby df key in
  Ok ((fun g : value * list (Row) => (g.1, Qc_of_nat (length g.2))) <$> gs).

(** [series.reset_index(name=...)]: the series as a two-column frame. *)
Definition reset_index (key name : string) (s : list (value * Qc)) : DataFrame :=
  {| columns := [key; name];
     rows := (fun kv : value * Qc => <[key := kv.1]> (<[name := VNum kv.2]> (∅ : Row))) <$> s |}.

(** *** Joins *)

Inductive how := Inner | Left.

Definition rename_row (f : string -> string) (r : Row) : Row :=
  list_to_map ((fun kv : string * value => (f kv.1, kv.2)) <$> map_to_list r).

(** [left.merge(right, on=on, how=h)].  Every left row is paired with the
    right rows of equal key, in order; a left row without a partner is kept
    with absent right cells under [Left] and dropped under [Inner].  A
    label carried by both frames gets the suffixes [_x] and [_y]. *)
Definition merge (h : how) (on : string) (left right : DataFrame) : result DataFrame :=
  if negb (has_column left on) then Err (MissingColumn on)
  else if negb (has_column right on) then Err (MissingColumn on)
  else
    let fl c := if bool_decide (c ≠ on ∧ c ∈ columns right) then c +:+ "_x" else c in
    let fr c := if bool_decide (c ∈ columns left) then c +:+ "_y" else c in
    let rcols := List.filter (fun c => negb (bool_decide (c = on))) (columns right) in
    let blank : Row := list_to_map ((fun c => (fr c, VNaN)) <$> rcols) in
    let join_row (l : Row) : list (Row) :=
      match List.filter (fun r => bool_decide (cell on r = cell on l)) (rows right) with
      | [] => match h with Left => [rename_row fl l ∪ blank] | Inner => [] end
      | ms => (fun r => rename_row fl l ∪ rename_row fr (delete on r)) <$> ms
      end in
    Ok {| columns := (fl <$> columns left) ++ (fr <$> rcols);
          rows := rows left ≫= join_row |}.

(** *** Sorting *)

(** [l[idx]] for an indexer. *)
Definition gather {A} (l : list A) (idx : list nat) : list A := omap (fun i => l !! i) idx.

(** [head(n)] *)
Definition head {A} (n : nat) (l : list A) : list A := take n l.

(** The sort behind [sort_values] is numpy's [argsort] of the default
    kind, [quicksort]; it is a parameter.  What numpy promises of that
    kind is [argsort_spec]: the answer is a rearrangement of the positions
    that puts the keys in ascending order.  Where equal keys go is not
    part of the promise. *)
Definition argsort_spec (argsort : list Qc -> list nat) : Prop :=
  forall xs, Permutation (argsort xs) (seq 0 (length xs))
             /\ Sorted Qcle (gather xs (argsort xs)).

(** Sorting by insertion.  [before x y] tells whether a new key [x] goes
    in front of a key [y] already placed. *)
Fixpoint insert_by (before : Qc -> Qc -> bool) (p : nat * Qc) (l : list (nat * Qc))
    : list (nat * Qc) :=
  match l with
  | [] => [p]
  | q :: l' => if before p.2 q.2 then p :: l else q :: insert_by before p l'
  end.

Definition argsort_by (before : Qc -> Qc -> bool) (xs : list Qc) : list nat :=
  (foldl (fun acc p => insert_by before p acc) [] (zip (seq 0 (length xs)) xs)).*1.

(** [argsort(kind='mergesort')], a stable sort: equal keys keep their
    order.  Every stable sort gives the same answer; it is computed here
    by insertion, a new key going behind the keys equal to it. *)
Definition mergesort : list Qc -> list nat :=
  argsort_by (fun x y => bool_decide (x < y)).

Section Sorting.
Variable argsort : list Qc -> list nat.

(** pandas' [nargsort] with [na_position='last']: the cells that are not
    NaN are sorted (for a descending sort the input is reversed, sorted
    ascending, and the answer reversed again), the NaN positions
    follow. *)
Definition nargsort (items : list (option Qc)) (ascending : bool) : list nat :=
  let idx := seq 0 (length items) in
  let non_nan_idx := List.filter (fun i => bool_decide (is_Some (mjoin (items !! i)))) idx in
  let nan_idx := List.filter (fun i => negb (bool_decide (is_Some (mjoin (items !! i))))) idx in
  let non_nan_idx := if ascending then non_nan_idx else reverse non_nan_idx in
  let non_nans := omap (fun i => mjoin (items !! i)) non_nan_idx in
  let indexer := gather non_nan_idx (argsort non_nans) in
  let indexer := if ascending then indexer else reverse indexer in
  indexer ++ nan_idx.

(** [df.sort_values(by, ascending=...)] *)
Definition sort_values (by_ : string) (ascending : bool) (df : DataFrame) : result DataFrame :=
  if has_column df by_
  then let* xs := floats by_ (rows df) in
       Ok {| columns := columns df; rows := gather (rows df) (nargsort xs ascending) |}
  else Err (MissingColumn by_).

(** [series.sort_values(ascending=...)] on a series indexed by key;
    [view] is the float value of an entry. *)
Definition series_sort_values {X} (view : X -> option Qc) (ascending : bool)
    (s : list (value * X)) : list (value * X) :=
  gather s (nargsort ((fun kv : value * X => view kv.2) <$> s) ascending).

(** [df.sort_values(by, ascending=...).head(n)]: the top-n selection of
    the scripts. *)
Definition top_n (n : nat) (by_ : string) (ascending : bool) (df : DataFrame)
    : result DataFrame :=
  let* sorted := sort_values by_ ascending df in
  Ok {| columns := columns sorted; rows := head n (rows sorted) |}.

(** [series.value_counts()]: the count of every distinct cell that is
    not absent, largest count first. *)
Fixpoint count_add (v : value) (acc : list (value * Qc)) : list (value * Qc) :=
  match acc with
  | [] => [(v, 1)]
  | (w, n) :: acc' => if bool_decide (v = w) then (w, n + 1) :: acc' else (w, n) :: count_add v acc'
  end.

Definition value_counts (l : list value) : list (value * Qc) :=
  series_sort_values Some false
    (foldl (fun acc v => if isna v then acc else count_add v acc) [] l).
End Sorting.

(** [df.nlargest(n, by)], with [keep='first'].  When the frame has more
    than [n] rows pandas picks the rows with a stable sort of the column
    ([kind='mergesort']); otherwise it answers
    [sort_values(ascending=False).head(n)], of the default kind. *)
Definition nlargest (argsort : list Qc -> list nat) (n : nat) (by_ : string) (df : DataFrame)
    : result DataFrame :=
  if (n <? len df)%nat
  then top_n mergesort n by_ false df
  else top_n argsort n by_ false df.

(** [df[c] = f(row)] where computing a cell may raise. *)
Definition assignM (c : string) (f : Row -> result value) (df : DataFrame)
    : result DataFrame :=
  let* rs := mapM (fun r : Row => let* v := f r in Ok (<[c := v]> r)) (rows df) in
  Ok {| columns := add_label c (columns df); rows := rs |}.

(** [df[a] op df[b]], row by row. *)
Definition col_op (op : Qc -> Qc -> Qc) (a b : string) (df : DataFrame)
    (r : Row) : result value :=
  if negb (has_column df a) then Err (MissingColumn a)
  else if negb (has_column df b) then Err (MissingColumn b)
  else lift2 op (cell a r) (cell b r).

(** [s < 0] on a cell: false on NaN. *)
Definition is_negative (v : value) : bool :=
  match v with VNum q => bool_decide (q < 0) | _ => false end.

(** The mean of a float64 series that may hold infinities: NaN is skipped,
    opposite infinities add up to NaN. *)
Definition fadd (a b : fval) : fval :=
  match a, b with
  | FNaN, _ | _, FNaN => FNaN
  | FPosInf, FNegInf | FNegInf, FPosInf => FNaN
  | FPosInf, _ | _, FPosInf => FPosInf
  | FNegInf, _ | _, FNegInf => FNegInf
  | FFin p, FFin q => FFin (p + q)
  end.

Definition fmean (xs : list fval) : fval :=
  let ys := List.filter (fun x => negb (bool_decide (x = FNaN))) xs in
  match ys with
  | [] => FNaN
  | _ => match foldr fadd (FFin 0) ys with
         | FFin s => FFin (s / Qc_of_nat (length ys))
         | other => other
         end
  end.

(** The float view of a series of means, for sorting it. *)
Definition fval_float (x : fval) : option Qc :=
  match x with FFin q => Some q | _ => None end.

End Pandas.

(** ** [data_analytics.py] *)
Module DataAnalytics.
Import Pandas.
#[local] Open Scope Qc_scope.

(** What the script prints while loading. *)
Inductive message :=
| Loaded (name : string) (shape : nat * nat)
| NotFound (filename : string).

Definition files : list (string * string) :=
  [("assignments", "assignments.csv"); ("clients", "clients.csv");
   ("employees", "employees.csv"); ("expenses", "expenses.csv");
   ("milestones", "project_milestones.csv"); ("projects", "projects.csv");
   ("purchase_orders", "purchase_orders.csv"); ("risks", "risks.csv");
   ("tasks", "tasks.csv"); ("timesheets", "timesheets.csv");
   ("vendors", "vendors.csv")].

(** [load_data()].  The disk is the map from the name of every file that
    exists to the frame [pd.read_csv] makes of it. *)
Definition load_step (disk : gmap string DataFrame)
    (st : gmap string DataFrame * list message) (f : string * string)
    : gmap string DataFrame * list message :=
  match disk !! f.2 with
  | Some df => (<[f.1 := df]> st.1, st.2 ++ [Loaded f.1 (len df, length (columns df))])
  | None => (st.1, st.2 ++ [NotFound f.2])
  end.

Definition load_data (disk : gmap string DataFrame) : gmap string DataFrame * list message :=
  foldl (load_step disk) (∅, []) files.

Definition date_cols : list (string * list string) :=
  [("projects", ["start_date"; "end_date"]);
   ("assignments", ["start_date"; "end_date"]);
   ("expenses", ["date"]);
   ("milestones", ["planned_start"; "planned_end"]);
   ("purchase_orders", ["issue_date"]);
   ("tasks", ["start_date"; "end_date"]);
   ("timesheets", ["date"]);
   ("employees", ["joining_date"])].

(** [if name in dfs: dfs[name][...] = ...]: the frame under [name] is
    updated in place, nothing happens when the table is missing. *)
Definition on_table (name : string) (f : DataFrame -> result DataFrame)
    (dfs : gmap string DataFrame) : result (gmap string DataFrame) :=
  match dfs !! name with
  | Some df => let* df' := f df in Ok (<[name := df']> dfs)
  | None => Ok dfs
  end.

Section ETL.
Variable parse_numeric : string -> option Qc.
Variable parse_datetime : string -> option Z.

(** [for col in cols: if col in df.columns: df[col] = pd.to_datetime(df[col], errors='coerce')] *)
Definition convert_dates (cols : list string) (df : DataFrame) : DataFrame :=
  foldl (fun df col =>
           if has_column df col
           then assign col (fun r => to_datetime parse_datetime (cell col r)) df
           else df) df cols.

(** [df[col] = pd.to_numeric(df[col], errors='coerce').fillna(0)] *)
Definition numeric (col : string) (df : DataFrame) : result DataFrame :=
  transform col (fun v => fillna0 (to_numeric parse_numeric v)) df.

(** [etl_process(dfs)]: the mapping it hands back.  The line it prints
    when it starts and the one it prints before it returns are put around
    its call in [main]. *)
Definition etl_process (dfs : gmap string DataFrame) : result (gmap string DataFrame) :=
  let dfs := foldl (fun dfs (dc : string * list string) =>
                      alter (convert_dates dc.2) dc.1 dfs) dfs date_cols in
  let* dfs := on_table "projects"
                (fun df => let* df := numeric "budget_aed" df in
                           numeric "completion_percentage" df) dfs in
  let* dfs := on_table "expenses" (numeric "amount_aed") dfs in
  let* dfs := on_table "purchase_orders" (numeric "amount_aed") dfs in
  on_table "employees" (numeric "salary_aed") dfs.
End ETL.

(** What the script prints once the files are read: lines of text (the
    blank line in front of a line is not kept), frames, series of sums
    or counts, series of means, the last three under their title.  A run
    that raises is its exception: what it printed before is not kept. *)
Inductive printed :=
| PLine (text : string)
| PFrame (title : string) (df : DataFrame)
| PSeries (title : string) (s : list (value * Qc))
| PMeans (title : string) (s : list (value * fval)).

(** ['a' in dfs and 'b' in dfs and ...] *)
Definition present (dfs : gmap string DataFrame) (names : list string) : bool :=
  forallb (fun n => bool_decide (is_Some (dfs !! n))) names.

(** [dfs[name]] *)
Definition table (dfs : gmap string DataFrame) (name : string) : result DataFrame :=
  match dfs !! name with Some df => Ok df | None => Err (MissingTable name) end.

Section EDA.
Variable argsort : list Qc -> list nat.

(** The financial frame of section 1, with the utilisation column beside
    it (its cells may be infinite or NaN). *)
Definition fin_df (dfs : gmap string DataFrame) : result (DataFrame * list fval) :=
  let* expenses := table dfs "expenses" in
  let* s := groupby_sum expenses "project_id" "amount_aed" in
  let proj_expenses := reset_index "project_id" "total_expenses" s in
  let* purchase_orders := table dfs "purchase_orders" in
  let* s := groupby_sum purchase_orders "project_id" "amount_aed" in
  let proj_pos := reset_index "project_id" "total_pos" s in
  let* projects := table dfs "projects" in
  let* fin := select_columns ["project_id"; "project_name"; "budget_aed"; "status"; "type"] projects in
  let* fin := merge Left "project_id" fin proj_expenses in
  let fin := fillna fin in
  let* fin := merge Left "project_id" fin proj_pos in
  let fin := fillna fin in
  let* fin := assignM "total_actuals" (col_op Qcplus "total_expenses" "total_pos" fin) fin in
  let* fin := assignM "budget_variance" (col_op Qcminus "budget_aed" "total_actuals" fin) fin in
  let* actuals := floats "total_actuals" (rows fin) in
  let* budget := floats "budget_aed" (rows fin) in
  let budget_utilization_pct :=
    (fun ab : option Qc * option Qc => fscale (Qc_of_Z 100) (fdiv ab.1 ab.2)) <$> zip actuals budget in
  Ok (fin, budget_utilization_pct).

(** [fin_df.groupby('status')['budget_utilization_pct'].mean()] *)
Definition utilization_by_status (fin : DataFrame) (util : list fval)
    : result (list (value * fval)) :=
  if has_column fin "status"
  then
    let keyed := zip (cell "status" <$> rows fin) util in
    Ok ((fun g : value * list (Row) =>
           (g.1, fmean (snd <$> List.filter (fun ku : value * fval => bool_decide (ku.1 = g.1)) keyed)))
          <$> groups "status" (rows fin))
  else Err (MissingColumn "status").

(** The seven guarded blocks of [perform_eda], each the body of an
    [if ... in dfs]: a block prints nothing when one of its tables is
    missing.  The header in front of a block is printed by [perform_eda]
    itself, outside the guard. *)
Definition project_financial_health (dfs : gmap string DataFrame) : result (list printed) :=
  if present dfs ["projects"; "expenses"; "purchase_orders"] then
    let* fu := fin_df dfs in
    let fin := fu.1 in
    let* over_budget := top_n argsort 5 "budget_variance" true
                          (select_rows (fun r => is_negative (cell "budget_variance" r)) fin) in
    let* shown := select_columns ["project_name"; "budget_aed"; "total_actuals"; "budget_variance"] over_budget in
    let* means := utilization_by_status fin fu.2 in
    Ok [PFrame "Top 5 Projects over Budget (by Amount):" shown;
        PMeans "Average Budget Utilization by Project Status:" means]
  else Ok [].

Definition client_analysis (dfs : gmap string DataFrame) : result (list printed) :=
  if present dfs ["projects"; "clients"] then
    let* projects := table dfs "projects" in
    let* clients := table dfs "clients" in
    let* client_proj := merge Left "client_id" projects clients in
    let* s := groupby_sum client_proj "industry" "budget_aed" in
    let revenue_by_industry := series_sort_values argsort Some false s in
    Ok [PSeries "Total Budget Volume by Client Industry:" revenue_by_industry]
  else Ok [].

Definition resource_analysis (dfs : gmap string DataFrame) : result (list printed) :=
  if present dfs ["employees"; "timesheets"] then
    let* employees := table dfs "employees" in
    let* m := groupby_mean employees "department" "salary_aed" in
    let salary := series_sort_values argsort fval_float false m in
    let* timesheets := table dfs "timesheets" in
    let* s := groupby_sum timesheets "employee_id" "hours_logged" in
    let top_loggers := reset_index "employee_id" "hours_logged" s in
    let* names := select_columns ["employee_id"; "full_name"] employees in
    let* top_loggers := merge Inner "employee_id" top_loggers names in
    let* top5 := top_n argsort 5 "hours_logged" false top_loggers in
    Ok [PMeans "Average Salary by Department:" salary;
        PFrame "Top 5 Employees by Logged Hours:" top5]
  else Ok [].

Definition risk_analysis (dfs : gmap string DataFrame) : result (list printed) :=
  if present dfs ["risks"; "projects"] then
    let* risks := table dfs "risks" in
    let* projects := table dfs "projects" in
    let* risk_proj := merge Left "project_id" risks projects in
    let* impact := getitem risk_proj "impact" in
    let high_risk := select_rows (fun r => bool_decide (cell "impact" r = VStr "High")) risk_proj in
    let* type := getitem high_risk "type" in
    Ok [PSeries "Risk Count by Impact Level:" (value_counts argsort impact);
        PSeries "Project Types with Most High Impact Risks:" (head 3 (value_counts argsort type))]
  else Ok [].

Definition vendor_analysis (dfs : gmap string DataFrame) : result (list printed) :=
  if present dfs ["purchase_orders"; "vendors"] then
    let* purchase_orders := table dfs "purchase_orders" in
    let* s := groupby_sum purchase_orders "vendor_id" "amount_aed" in
    let vendor_spend := reset_index "vendor_id" "amount_aed" s in
    let* vendors := table dfs "vendors" in
    let* names := select_columns ["vendor_id"; "vendor_name"; "category"] vendors in
    let* vendor_spend := merge Inner "vendor_id" vendor_spend names in
    let* top5 := top_n argsort 5 "amount_aed" false vendor_spend in
    Ok [PFrame "Top 5 Vendors by Spend:" top5]
  else Ok [].

(** [s.value_counts(normalize=True) * 100] *)
Definition percentages (counts : list (value * Qc)) : list (value * Qc) :=
  let total := series_sum ((fun kv : value * Qc => Some kv.2) <$> counts) in
  (fun kv : value * Qc => (kv.1, kv.2 / total * Qc_of_Z 100)) <$> counts.

Definition task_distribution (dfs : gmap string DataFrame) : result (list printed) :=
  if present dfs ["tasks"] then
    let* tasks := table dfs "tasks" in
    let* status := getitem tasks "status" in
    Ok [PSeries "Task Status Distribution:" (percentages (value_counts argsort status))]
  else Ok [].

Definition billable_hours (dfs : gmap string DataFrame) : result (list printed) :=
  if present dfs ["timesheets"] then
    let* timesheets := table dfs "timesheets" in
    let* s := groupby_sum timesheets "is_billable" "hours_logged" in
    Ok [PSeries "Billable vs. Non-Billable Hours:" s]
  else Ok [].

(** [perform_eda(dfs)].  The definitions above are its guarded blocks.
    The progress line and the six section headers are printed outside
    the guards: a section whose tables are not all there still prints
    its header. *)
Definition perform_eda (dfs : gmap string DataFrame) : result (list printed) :=
  let out := [PLine "Starting EDA Process..."] in
  let out := out ++ [PLine "--- Project Financial Health ---"] in
  let* p := project_financial_health dfs in
  let out := out ++ p in
  let out := out ++ [PLine "--- Client Analysis ---"] in
  let* p := client_analysis dfs in
  let out := out ++ p in
  let out := out ++ [PLine "--- Resource Analysis ---"] in
  let* p := resource_analysis dfs in
  let out := out ++ p in
  let out := out ++ [PLine "--- Risk Analysis ---"] in
  let* p := risk_analysis dfs in
  let out := out ++ p in
  let out := out ++ [PLine "--- Vendor Analysis ---"] in
  let* p := vendor_analysis dfs in
  let out := out ++ p in
  let out := out ++ [PLine "--- Task & Operational Efficiency ---"] in
  let* p := task_distribution dfs in
  let out := out ++ p in
  let* p := billable_hours dfs in
  Ok (out ++ p).
End EDA.

(** The script: load, clean, analyse.  It leaves the messages of the
    loader and, when nothing raises, the lines of the two other steps. *)
Definition main (parse_numeric : string -> option Qc) (parse_datetime : string -> option Z)
    (argsort : list Qc -> list nat) (disk : gmap string DataFrame)
    : list message * result (list printed) :=
  let loaded := load_data disk in
  (loaded.2,
   let out := [PLine "Starting ETL Process..."] in
   let* data_frames := etl_process parse_numeric parse_datetime loaded.1 in
   let out := out ++ [PLine "ETL Process Completed."] in
   let* p := perform_eda argsort data_frames in
   Ok (out ++ p)).

End DataAnalytics.

(** ** [generate_report.py] *)
Module GenerateReport.
Import Pandas.
#[local] Open Scope Qc_scope.

Definition files : list (string * string) :=
  [("clients", "clients.csv"); ("employees", "employees.csv");
   ("expenses", "expenses.csv"); ("projects", "projects.csv");
   ("purchase_orders", "purchase_orders.csv"); ("risks", "risks.csv");
   ("tasks", "tasks.csv"); ("timesheets", "timesheets.csv");
   ("vendors", "vendors.csv")].

(** The loop of [load_and_clean]: a file that does not exist is passed
    over in silence. *)
Definition load (disk : gmap string DataFrame) : gmap string DataFrame :=
  foldl (fun dfs (f : string * string) =>
           match disk !! f.2 with
           | Some df => <[f.1 := df]> dfs
           | None => dfs
           end) ∅ files.

Section Clean.
Variable parse_numeric : string -> option Qc.

Definition numeric (col : string) (df : DataFrame) : result DataFrame :=
  transform col (fun v => fillna0 (to_numeric parse_numeric v)) df.

(** The "Basic ETL" of [load_and_clean]. *)
Definition clean (dfs : gmap string DataFrame) : result (gmap string DataFrame) :=
  let* dfs := DataAnalytics.on_table "projects" (numeric "budget_aed") dfs in
  let* dfs := DataAnalytics.on_table "expenses" (numeric "amount_aed") dfs in
  let* dfs := DataAnalytics.on_table "purchase_orders" (numeric "amount_aed") dfs in
  DataAnalytics.on_table "employees" (numeric "salary_aed") dfs.

(** [load_and_clean()] *)
Definition load_and_clean (disk : gmap string DataFrame) : result (gmap string DataFrame) :=
  clean (load disk).
End Clean.

(** What goes into the generated document: three KPIs and the data of
    five charts. *)
Record report := mkReport {
  total_budget : Qc;
  total_spend : Qc;
  avg_completion : fval;
  top_projects : DataFrame;
  ind_data : list (value * Qc);
  task_dist : list (value * Qc);
  sal_dept : list (value * fval);
  risk_dist : list (value * Qc)
}.

Section Report.
Variable argsort : list Qc -> list nat.

(** [generate_html_report(dfs)] *)
Definition generate_html_report (dfs : gmap string DataFrame) : result report :=
  let* proj_df := DataAnalytics.table dfs "projects" in
  let* expenses := DataAnalytics.table dfs "expenses" in
  let* s := groupby_sum expenses "project_id" "amount_aed" in
  let exp_sum := reset_index "project_id" "total_expenses" s in
  let* purchase_orders := DataAnalytics.table dfs "purchase_orders" in
  let* s := groupby_sum purchase_orders "project_id" "amount_aed" in
  let po_sum := reset_index "project_id" "total_pos" s in
  let* fin := merge Left "project_id" proj_df exp_sum in
  let* fin := merge Left "project_id" fin po_sum in
  let fin := fillna fin in
  let* fin := assignM "total_actuals" (col_op Qcplus "total_expenses" "total_pos" fin) fin in
  let* total_budget := col_sum fin "budget_aed" in
  let* total_spend := col_sum fin "total_actuals" in
  let* avg_completion := col_mean fin "completion_percentage" in
  let* top := nlargest argsort 10 "budget_aed" fin in
  let* top_projects := select_columns ["project_name"; "budget_aed"; "total_actuals"] top in
  let* clients := DataAnalytics.table dfs "clients" in
  let* client_proj := merge Left "client_id" proj_df clients in
  let* ind_data := groupby_sum client_proj "industry" "budget_aed" in
  let* tasks := DataAnalytics.table dfs "tasks" in
  let* status := getitem tasks "status" in
  let task_dist := value_counts argsort status in
  let* employees := DataAnalytics.table dfs "employees" in
  let* m := groupby_mean employees "department" "salary_aed" in
  let sal_dept := series_sort_values argsort fval_float true m in
  let* risks := DataAnalytics.table dfs "risks" in
  let* impact := getitem risks "impact" in
  let risk_dist := value_counts argsort impact in
  Ok (mkReport total_budget total_spend avg_completion top_projects
               ind_data task_dist sal_dept risk_dist).
End Report.

(** The script. *)
Definition main (parse_numeric : string -> option Qc) (argsort : list Qc -> list nat)
    (disk : gmap string DataFrame) : result report :=
  let* dfs := load_and_clean parse_numeric disk in
  generate_html_report argsort dfs.

End GenerateReport.

(** ** [app.py] *)
Module App.
Import Pandas.
#[local] Open Scope Qc_scope.

Definition files : list (string * string) :=
  [("projects", "projects.csv"); ("employees", "employees.csv");
   ("tasks", "tasks.csv"); ("clients", "clients.csv");
   ("expenses", "expenses.csv"); ("timesheets", "timesheets.csv");
   ("vendors", "vendors.csv"); ("risks", "risks.csv");
   ("milestones", "project_milestones.csv");
   ("purchase_orders", "purchase_orders.csv")].

(** [data[name] = pd.read_csv(file)], one file after the other: the first
    file that does not exist ends the load. *)
Fixpoint read_all (disk : gmap string DataFrame) (fs : list (string * string))
    (data : gmap string DataFrame) : result (gmap string DataFrame) :=
  match fs with
  | [] => Ok data
  | f :: fs' =>
      match disk !! f.2 with
      | Some df => read_all disk fs' (<[f.1 := df]> data)
      | None => Err (FileNotFoundError f.2)
      end
  end.

Section Load.
Variable parse_datetime : string -> option Z.

(** [if col in data[name].columns: data[name][col] = pd.to_datetime(...)] *)
Definition convert_date (name col : string) (data : gmap string DataFrame)
    : result (gmap string DataFrame) :=
  let* df := DataAnalytics.table data name in
  if has_column df col
  then Ok (<[name := assign col (fun r => to_datetime parse_datetime (cell col r)) df]> data)
  else Ok data.

(** [load_data()] *)
Definition load_data (disk : gmap string DataFrame) : result (gmap string DataFrame) :=
  let* data := read_all disk files ∅ in
  let* data := convert_date "projects" "start_date" data in
  let* data := convert_date "projects" "end_date" data in
  let* data := convert_date "expenses" "date" data in
  let* data := convert_date "timesheets" "date" data in
  let* data := convert_date "milestones" "planned_start" data in
  convert_date "milestones" "planned_end" data.
End Load.

(** *** The views.  A view reads the loaded mapping [data], and may write
    to it; it is a computation over that state. *)
Definition M (A : Type) : Type :=
  gmap string DataFrame -> result A * gmap string DataFrame.

Definition ret {A} (a : A) : M A := fun data => (Ok a, data).

Definition bindM {A B} (m : M A) (k : A -> M B) : M B := fun data =>
  match m data with
  | (Ok a, data') => k a data'
  | (Err e, data') => (Err e, data')
  end.

Notation "'do' x '<-' m ';' k" := (bindM m (fun x => k))
  (at level 10, x name, m at level 100, k at level 200).

(** A computation that does not touch [data]. *)
Definition pure {A} (r : result A) : M A := fun data => (r, data).

(** [data[name]] *)
Definition read (name : string) : M DataFrame := fun data =>
  (DataAnalytics.table data name, data).

(** [data[name][col] = f(row)]: the loaded frame itself is changed. *)
Definition setitem (name col : string) (f : Row -> result value) : M unit :=
  fun data =>
    match DataAnalytics.table data name with
    | Ok df =>
        match assignM col f df with
        | Ok df' => (Ok tt, <[name := df']> data)
        | Err e => (Err e, data)
        end
    | Err e => (Err e, data)
    end.

(** What a view shows. *)
Inductive shown :=
| Metric (label : string) (x : fval)
| Chart (title : string) (s : list (value * Qc))
| Table (title : string) (df : DataFrame).

Inductive page :=
| ExecutiveOverview
| ProjectAnalytics (type_filter status_filter priority_filter : list value)
| FinancialInsights
| ResourceManagement
| RiskCompliance
| VendorAnalysis.

(** [len(df[df[c] == v])] *)
Definition count_eq (df : DataFrame) (c : string) (v : value) : result nat :=
  if has_column df c
  then Ok (len (select_rows (fun r => bool_decide (cell c r = v)) df))
  else Err (MissingColumn c).

(** [(part / whole * 100) if whole > 0 else 0] *)
Definition ratio (part whole : Qc) : Qc :=
  if bool_decide (0 < whole) then part / whole * Qc_of_Z 100 else 0.

(** [df[df[c].isin(selected)]] *)
Definition keep_isin (c : string) (selected : list value) (df : DataFrame) : result DataFrame :=
  if has_column df c
  then Ok (select_rows (fun r => isin selected (cell c r)) df)
  else Err (MissingColumn c).

(** ["Apply filters"]: an empty selection leaves the frame as it is. *)
Definition apply_filters (type_filter status_filter priority_filter : list value)
    (projects : DataFrame) : result DataFrame :=
  let filtered_projects := copy projects in
  let* filtered_projects :=
    match type_filter with
    | [] => Ok filtered_projects
    | _ => keep_isin "type" type_filter filtered_projects
    end in
  let* filtered_projects :=
    match status_filter with
    | [] => Ok filtered_projects
    | _ => keep_isin "status" status_filter filtered_projects
    end in
  match priority_filter with
  | [] => Ok filtered_projects
  | _ => keep_isin "priority" priority_filter filtered_projects
  end.

(** The filter rule as the specification words it: a selection that is
    empty lets every row pass, one that is not lets pass the rows whose
    cell is among the selected. *)
Definition passes (selected : list value) (c : string) (r : Row) : Prop :=
  selected <> [] -> cell c r ∈ selected.

(** The same rule as a test. *)
Definition selected_by (selected : list value) (c : string) (r : Row) : bool :=
  match selected with [] => true | _ => isin selected (cell c r) end.

Section Views.
Variable argsort : list Qc -> list nat.
(** The label of the month of a timestamp, [dt.to_period('M').astype(str)];
    calendar arithmetic belongs to pandas. *)
Variable month_label : Z -> string.

Definition num (q : Qc) : fval := FFin q.
Definition count (n : nat) : fval := FFin (Qc_of_nat n).

(** [index.map(lambda x: names.get(x, x)[:n])]: the label of an id is the
    name recorded for it, or the id itself, cut to [n] characters. *)
Definition label (names : DataFrame) (id_col name_col : string) (n : nat) (x : value)
    : result value :=
  let found := List.find (fun r => bool_decide (cell id_col r = x)) (rows names) in
  match default x (cell name_col <$> found) with
  | VStr s => Ok (VStr (String.substring 0 n s))
  | _ => Err TypeError
  end.

Definition relabel (names : DataFrame) (id_col name_col : string) (n : nat)
    (s : list (value * Qc)) : result (list (value * Qc)) :=
  if negb (has_column names id_col) then Err (MissingColumn id_col)
  else if negb (has_column names name_col) then Err (MissingColumn name_col)
  else mapM (fun kv : value * Qc =>
               let* l := label names id_col name_col n kv.1 in Ok (l, kv.2)) s.

Definition executive_overview : M (list shown) :=
  do projects <- read "projects";
  do total_budget <- pure (col_sum projects "budget_aed");
  do active_projects <- pure (count_eq projects "status" (VStr "In Progress"));
  do employees <- read "employees";
  let total_employees := len employees in
  do tasks <- read "tasks";
  let total_tasks := len tasks in
  do completed_tasks <- pure (count_eq tasks "status" (VStr "Completed"));
  let completion_rate := ratio (Qc_of_nat completed_tasks) (Qc_of_nat total_tasks) in
  do status <- pure (getitem projects "status");
  let status_counts := value_counts argsort status in
  do type <- pure (getitem projects "type");
  let type_counts := head 8 (value_counts argsort type) in
  do s <- pure (groupby_sum projects "type" "budget_aed");
  let type_budget := series_sort_values argsort Some true s in
  do location <- pure (getitem projects "location");
  let location_counts := value_counts argsort location in
  ret [Metric "Total Portfolio" (num total_budget);
       Metric "Active Projects" (count active_projects);
       Metric "Team Size" (count total_employees);
       Metric "Total Tasks" (count total_tasks);
       Metric "Completion Rate" (num completion_rate);
       Chart "Project Status Distribution" status_counts;
       Chart "Projects by Type" type_counts;
       Chart "Budget by Project Type" type_budget;
       Chart "Projects by Location" location_counts].

Definition project_analytics (type_filter status_filter priority_filter : list value)
    : M (list shown) :=
  do projects <- read "projects";
  do type_options <- pure (let* c := getitem projects "type" in Ok (unique c));
  do status_options <- pure (let* c := getitem projects "status" in Ok (unique c));
  do priority_options <- pure (let* c := getitem projects "priority" in Ok (unique c));
  do filtered_projects <- pure (apply_filters type_filter status_filter priority_filter projects);
  do budget <- pure (col_sum filtered_projects "budget_aed");
  do avg_progress <- pure (col_mean filtered_projects "completion_percentage");
  do completed <- pure (count_eq filtered_projects "status" (VStr "Completed"));
  do display <- pure (select_columns
      ["project_id"; "project_name"; "type"; "status"; "completion_percentage";
       "budget_aed"; "priority"] filtered_projects);
  do details <- pure (sort_values argsort "budget_aed" false display);
  ret [Metric "Projects" (count (len filtered_projects));
       Metric "Total Budget" (num budget);
       Metric "Avg Progress" avg_progress;
       Metric "Completed" (count completed);
       Table "Progress Distribution" filtered_projects;
       Table "Budget vs Progress" filtered_projects;
       Table "Project Details" details].

(** [data['expenses']['date'].dt.to_period('M').astype(str)], on a cell;
    [.dt] exists on datetime columns only. *)
Definition month_of (v : value) : result value :=
  match v with
  | VDate t => Ok (VStr (month_label t))
  | VNaT => Ok (VStr "NaT")
  | _ => Err AttributeError
  end.

Definition financial_insights : M (list shown) :=
  do expenses <- read "expenses";
  do total_expenses <- pure (col_sum expenses "amount_aed");
  do purchase_orders <- read "purchase_orders";
  do total_po_value <- pure (col_sum purchase_orders "amount_aed");
  do projects <- read "projects";
  do total_budget <- pure (col_sum projects "budget_aed");
  let utilization := ratio total_expenses total_budget in
  do s <- pure (groupby_sum expenses "category" "amount_aed");
  let exp_by_cat := series_sort_values argsort Some false s in
  do dates <- pure (getitem expenses "date");
  do _ <- setitem "expenses" "month" (fun r => month_of (cell "date" r));
  do expenses <- read "expenses";
  do monthly_exp <- pure (groupby_sum expenses "month" "amount_aed");
  do po_status <- pure (groupby_sum purchase_orders "status" "amount_aed");
  do s <- pure (groupby_sum expenses "project_id" "amount_aed");
  let proj_exp := head 10 (series_sort_values argsort Some false s) in
  do proj_exp <- pure (relabel projects "project_id" "project_name" 25 proj_exp);
  ret [Metric "Total Expenses" (num total_expenses);
       Metric "Purchase Orders" (num total_po_value);
       Metric "Total Budget" (num total_budget);
       Metric "Budget Utilization" (num utilization);
       Chart "Expenses by Category" exp_by_cat;
       Chart "Monthly Expense Trend" monthly_exp;
       Chart "Purchase Order Status" po_status;
       Chart "Top 10 Projects by Expense" proj_exp].

Definition resource_management : M (list shown) :=
  do employees <- read "employees";
  let total_emp := len employees in
  do department <- pure (getitem employees "department");
  let dept_count := length (List.filter (fun v => negb (isna v)) (unique department)) in
  do avg_salary <- pure (col_mean employees "salary_aed");
  do timesheets <- read "timesheets";
  do total_hours <- pure (col_sum timesheets "hours_logged");
  let dept_emp := value_counts argsort department in
  do nationality <- pure (getitem employees "nationality");
  let nat_count := head 10 (value_counts argsort nationality) in
  do billable <- pure (groupby_sum timesheets "is_billable" "hours_logged");
  do s <- pure (groupby_sum timesheets "status" "hours_logged");
  let hours_by_status := series_sort_values argsort Some false s in
  ret [Metric "Total Employees" (count total_emp);
       Metric "Departments" (count dept_count);
       Metric "Avg Salary" avg_salary;
       Metric "Total Hours Logged" (num total_hours);
       Chart "Employees by Department" dept_emp;
       Chart "Workforce Nationality" nat_count;
       Chart "Billable vs Non-Billable Hours" billable;
       Chart "Hours by Approval Status" hours_by_status].

Definition risk_compliance : M (list shown) :=
  do risks <- read "risks";
  let total_risks := len risks in
  do critical_risks <- pure (count_eq risks "impact" (VStr "Critical"));
  do high_risks <- pure (count_eq risks "impact" (VStr "High"));
  do active_risks <- pure (count_eq risks "status" (VStr "Active"));
  do impact <- pure (getitem risks "impact");
  let impact_counts := value_counts argsort impact in
  do s <- pure (groupby_size risks "project_id");
  let risks_per_proj := head 10 (series_sort_values argsort Some false s) in
  do projects <- read "projects";
  do risks_per_proj <- pure (relabel projects "project_id" "project_name" 20 risks_per_proj);
  do milestones <- read "milestones";
  do status <- pure (getitem milestones "status");
  let milestone_status := value_counts argsort status in
  let summary := (fun kv : value * Qc =>
                    (kv.1, kv.2 / Qc_of_nat (len milestones) * Qc_of_Z 100)) <$> milestone_status in
  ret [Metric "Total Risks" (count total_risks);
       Metric "Critical Risks" (count critical_risks);
       Metric "High Risks" (count high_risks);
       Metric "Active Risks" (count active_risks);
       Chart "Risks by Impact Level" impact_counts;
       Chart "Top Projects by Risk Count" risks_per_proj;
       Chart "Milestone Status Overview" milestone_status;
       Chart "Milestone Summary" summary].

Definition vendor_analysis : M (list shown) :=
  do vendors <- read "vendors";
  let total_vendors := len vendors in
  do purchase_orders <- read "purchase_orders";
  do total_po_value <- pure (col_sum purchase_orders "amount_aed");
  do avg_po <- pure (col_mean purchase_orders "amount_aed");
  let po_count := len purchase_orders in
  do category <- pure (getitem vendors "category");
  let vendor_cat := value_counts argsort category in
  do location <- pure (getitem vendors "location");
  let vendor_loc := value_counts argsort location in
  do s <- pure (groupby_sum purchase_orders "vendor_id" "amount_aed");
  let vendor_po := head 10 (series_sort_values argsort Some false s) in
  do vendor_po <- pure (relabel vendors "vendor_id" "vendor_name" 30 vendor_po);
  ret [Metric "Total Vendors" (count total_vendors);
       Metric "Total PO Value" (num total_po_value);
       Metric "Avg PO Value" avg_po;
       Metric "Purchase Orders" (count po_count);
       Chart "Vendors by Category" vendor_cat;
       Chart "Vendors by Location" vendor_loc;
       Chart "Top Vendors by PO Value" vendor_po].

(** The dispatch on the selected view. *)
Definition render (p : page) : M (list shown) :=
  match p with
  | ExecutiveOverview => executive_overview
  | ProjectAnalytics t s pr => project_analytics t s pr
  | FinancialInsights => financial_insights
  | ResourceManagement => resource_management
  | RiskCompliance => risk_compliance
  | VendorAnalysis => vendor_analysis
  end.
End Views.

End App.

(** ** Concrete parsers, sorts and tables, for evaluating the programs *)
Module Samples.
Import Pandas.
#[local] Open Scope Qc_scope.

(** A reader of decimal integers with an optional sign. *)
Fixpoint digits (s : string) (acc : Z) : option Z :=
  match s with
  | EmptyString => Some acc
  | String a s' =>
      let n := Ascii.nat_of_ascii a in
      if ((48 <=? n) && (n <=? 57))%nat
      then digits s' (acc * 10 + Z.of_nat (n - 48))%Z
      else None
  end.

Definition parse_int (s : string) : option Z :=
  match s with
  | EmptyString => None
  | String a s' =>
      if Ascii.eqb a "-"%char
      then match s' with EmptyString => None | _ => Z.opp <$> digits s' 0 end
      else digits s 0
  end.

Definition parse_numeric (s : string) : option Qc := Qc_of_Z <$> parse_int s.

(** Timestamps written as their nanosecond count. *)
Definition parse_datetime (s : string) : option Z := parse_int s.

Definition month_label (t : Z) : string :=
  if (t <? 100)%Z then "2026-01" else "2026-02".

(** The stable sort, under the name the examples use. *)
Definition stable_argsort : list Qc -> list nat := mergesort.

Definition n (z : Z) : value := VNum (Qc_of_Z z).

(** A frame from its labels and the cells of its rows. *)
Definition frame (cols : list string) (cells : list (list value)) : DataFrame :=
  {| columns := cols;
     rows := (fun vs => (list_to_map (zip cols vs) : Row)) <$> cells |}.

Definition projects : DataFrame :=
  frame ["project_id"; "project_name"; "client_id"; "type"; "status"; "priority";
         "budget_aed"; "completion_percentage"; "start_date"; "location"]
    [[VStr "P1"; VStr "Marina Tower"; VStr "C1"; VStr "Residential"; VStr "In Progress";
      VStr "High"; n 100; n 40; VStr "10"; VStr "Dubai Marina"];
     [VStr "P2"; VStr "Creek Bridge"; VStr "C2"; VStr "Infrastructure"; VStr "Completed";
      VStr "Low"; n 200; n 100; VStr "soon"; VStr "Deira"];
     [VStr "P3"; VStr "Palm Villa"; VStr "C9"; VStr "Residential"; VStr "Planning";
      VStr "High"; n 300; VNaN; VNaN; VStr "Palm Jumeirah"]].

Definition clients : DataFrame :=
  frame ["client_id"; "industry"]
    [[VStr "C1"; VStr "Real Estate"]; [VStr "C2"; VStr "Government"]].

Definition employees : DataFrame :=
  frame ["employee_id"; "full_name"; "department"; "nationality"; "salary_aed"]
    [[VStr "E1"; VStr "Aisha Khan"; VStr "Engineering"; VStr "UAE"; n 20000];
     [VStr "E2"; VStr "Omar Said"; VStr "Finance"; VStr "Egypt"; VStr "n/a"]].

Definition tasks : DataFrame :=
  frame ["task_id"; "project_id"; "status"]
    [[VStr "T1"; VStr "P1"; VStr "Completed"]; [VStr "T2"; VStr "P1"; VStr "Open"];
     [VStr "T3"; VStr "P2"; VStr "Completed"]; [VStr "T4"; VStr "P3"; VStr "Open"]].

Definition expenses : DataFrame :=
  frame ["expense_id"; "project_id"; "category"; "amount_aed"; "date"]
    [[VStr "X1"; VStr "P1"; VStr "Materials"; n 30; VStr "10"];
     [VStr "X2"; VStr "P1"; VStr "Labour"; n 20; VStr "200"];
     [VStr "X3"; VStr "P2"; VNaN; n 250; VStr "unknown"]].

Definition timesheets : DataFrame :=
  frame ["employee_id"; "date"; "hours_logged"; "is_billable"; "status"]
    [[VStr "E1"; VStr "10"; n 8; VStr "True"; VStr "Approved"];
     [VStr "E9"; VStr "10"; n 6; VStr "False"; VStr "Approved"];
     [VStr "E1"; VStr "200"; VNaN; VStr "True"; VStr "Pending"]].

Definition vendors : DataFrame :=
  frame ["vendor_id"; "vendor_name"; "category"; "location"]
    [[VStr "V1"; VStr "Gulf Steel"; VStr "Materials"; VStr "Jebel Ali"]].

Definition purchase_orders : DataFrame :=
  frame ["po_id"; "vendor_id"; "project_id"; "amount_aed"; "status"; "issue_date"]
    [[VStr "O1"; VStr "V1"; VStr "P1"; n 10; VStr "Approved"; VStr "10"];
     [VStr "O2"; VStr "V7"; VStr "P2"; n 40; VStr "Pending"; VStr "200"]].

Definition risks : DataFrame :=
  frame ["risk_id"; "project_id"; "impact"; "status"]
    [[VStr "R1"; VStr "P1"; VStr "High"; VStr "Active"];
     [VStr "R2"; VStr "P2"; VStr "Critical"; VStr "Closed"]].

Definition milestones : DataFrame :=
  frame ["milestone_id"; "project_id"; "status"; "planned_start"; "planned_end"]
    [[VStr "M1"; VStr "P1"; VStr "Approved"; VStr "10"; VStr "200"]].

(** A disk that holds every file the three programs look for, except
    [assignments.csv]. *)
Definition disk : gmap string DataFrame :=
  list_to_map
    [("projects.csv", projects); ("clients.csv", clients); ("employees.csv", employees);
     ("tasks.csv", tasks); ("expenses.csv", expenses); ("timesheets.csv", timesheets);
     ("vendors.csv", vendors); ("purchase_orders.csv", purchase_orders);
     ("risks.csv", risks); ("project_milestones.csv", milestones)].

Definition or_empty (r : result (gmap string DataFrame)) : gmap string DataFrame :=
  match r with Ok d => d | Err _ => ∅ end.

(** What the loaders and normalisers of the three programs make of it. *)
Definition loaded : gmap string DataFrame := (DataAnalytics.load_data disk).1.

Definition normalized : gmap string DataFrame :=
  or_empty (DataAnalytics.etl_process parse_numeric parse_datetime loaded).

Definition cleaned : gmap string DataFrame :=
  or_empty (GenerateReport.load_and_clean parse_numeric disk).

Definition data : gmap string DataFrame :=
  or_empty (App.load_data parse_datetime disk).

(** The table of the specification's example of group sums, and one
    whose first row has no group key. *)
Definition grouped : DataFrame :=
  frame ["g"; "v"] [[VStr "A"; n 10]; [VStr "A"; n 5]; [VStr "B"; n 7]].

Definition unkeyed : DataFrame :=
  frame ["g"; "v"] [[VNaN; n 10]; [VStr "A"; n 5]].

(** The table of the specification's example of a top-n selection: X
    and Y tie. *)
Definition tied : DataFrame :=
  frame ["name"; "v"] [[VStr "X"; n 10]; [VStr "Y"; n 10]; [VStr "Z"; n 5]].

(** The scenario of the specification: budgets 100, 200 and 300,
    expenses that add up to 50, 250 and nothing, no purchase order. *)
Definition scenario : gmap string DataFrame :=
  list_to_map
    [("projects",
      frame ["project_id"; "project_name"; "budget_aed"; "status"; "type"]
        [[VStr "P1"; VStr "One"; n 100; VStr "Open"; VStr "A"];
         [VStr "P2"; VStr "Two"; n 200; VStr "Open"; VStr "A"];
         [VStr "P3"; VStr "Three"; n 300; VStr "Open"; VStr "B"]]);
     ("expenses",
      frame ["project_id"; "amount_aed"]
        [[VStr "P1"; n 30]; [VStr "P2"; n 250]; [VStr "P1"; n 20]]);
     ("purchase_orders", frame ["project_id"; "amount_aed"] [])].

(** The same disk after [risks.csv] has been removed. *)
Definition disk_without_risks : gmap string DataFrame := delete "risks.csv" disk.

(** A projects table with negative budgets, one as a number and one as
    text. *)
Definition overdrawn_projects : DataFrame :=
  frame ["project_id"; "budget_aed"; "completion_percentage"]
    [[VStr "P1"; n (-5); n 10]; [VStr "P2"; VStr "-7"; n 0]].

Definition overdrawn : gmap string DataFrame := {[ "projects" := overdrawn_projects ]}.

Definition overdrawn_normalized : gmap string DataFrame :=
  or_empty (DataAnalytics.etl_process parse_numeric parse_datetime overdrawn).

(** The column [c] of the frame printed under [title]. *)
Definition printed_column (title c : string) (out : result (list DataAnalytics.printed))
    : option (list value) :=
  match out with
  | Ok l =>
      match List.find (fun p => match p with
                                | DataAnalytics.PFrame t _ => bool_decide (t = title)
                                | _ => false
                                end) l with
      | Some (DataAnalytics.PFrame _ df) => Some (cell c <$> rows df)
      | _ => None
      end
  | Err _ => None
  end.

(** The series charted under [title]. *)
Definition charted (title : string) (out : result (list App.shown) * gmap string DataFrame)
    : option (list (value * Qc)) :=
  match out.1 with
  | Ok l =>
      match List.find (fun p => match p with
                                | App.Chart t _ => bool_decide (t = title)
                                | _ => false
                                end) l with
      | Some (App.Chart _ s) => Some s
      | _ => None
      end
  | Err _ => None
  end.

(** The column [c] of table [t], when the table is there. *)
Definition column_of (dfs : gmap string DataFrame) (t c : string) : option (list value) :=
  (fun df => cell c <$> rows df) <$> dfs !! t.

(** The value of a computation that succeeds, [d] otherwise. *)
Definition ok_or {A} (d : A) (r : result A) : A :=
  match r with Ok x => x | Err _ => d end.

Definition nothing : DataFrame := frame [] [].

(** The table named [t] of a mapping, the empty frame when it has none. *)
Definition table_of (dfs : gmap string DataFrame) (t : string) : DataFrame :=
  default nothing (dfs !! t).

(** Tables of these mappings, by name. *)
Definition loaded_projects : DataFrame := table_of loaded "projects".
Definition normalized_tasks : DataFrame := table_of normalized "tasks".
Definition cleaned_projects : DataFrame := table_of cleaned "projects".
Definition cleaned_expenses : DataFrame := table_of cleaned "expenses".
Definition cleaned_orders : DataFrame := table_of cleaned "purchase_orders".
Definition data_projects : DataFrame := table_of data "projects".
Definition scenario_projects : DataFrame := table_of scenario "projects".
Definition scenario_expenses : DataFrame := table_of scenario "expenses".
Definition scenario_orders : DataFrame := table_of scenario "purchase_orders".

(** The status column of the tasks. *)
Definition task_statuses : list value := cell "status" <$> rows tasks.

(** What two views show of the loaded tables. *)
Definition overview : list App.shown :=
  ok_or [] (App.executive_overview stable_argsort data).1.

Definition risk_view : list App.shown :=
  ok_or [] (App.risk_compliance stable_argsort data).1.

(** The loaded tables after the Financial Insights view has run. *)
Definition after_insights : gmap string DataFrame :=
  (App.render stable_argsort month_label App.FinancialInsights data).2.

(** What the financial-health section prints on the scenario. *)
Definition health : list DataAnalytics.printed :=
  ok_or [] (DataAnalytics.project_financial_health stable_argsort scenario).

(** The report made of the sample disk. *)
Definition the_report : GenerateReport.report :=
  ok_or (GenerateReport.mkReport 0 0 FNaN nothing [] [] [] [])
    (GenerateReport.generate_html_report stable_argsort cleaned).

(** The two largest rows of the tied table, the projects joined to their
    clients, the group sums of the grouped table and the labelled
    spending per vendor. *)
Definition top_two : DataFrame :=
  ok_or nothing (nlargest stable_argsort 2 "v" tied).

Definition joined : DataFrame :=
  ok_or nothing (merge Left "client_id" projects clients).

Definition group_sums : list (value * Qc) := ok_or [] (groupby_sum grouped "g" "v").

Definition vendor_spend : list (value * Qc) :=
  [(VStr "V7", Qc_of_Z 40); (VStr "V1", Qc_of_Z 10)].

Definition vendor_labels : list (value * Qc) :=
  ok_or [] (App.relabel vendors "vendor_id" "vendor_name" 30 vendor_spend).

(** What Project Analytics shows of the loaded tables for the projects of
    type Residential and of priority High or Low. *)
Definition analytics : list App.shown :=
  ok_or [] (App.project_analytics stable_argsort
              [VStr "Residential"] [] [VStr "High"; VStr "Low"] data).1.

(** Two projects without budget on disk, the budget of the first 0 and
    that of the second absent; 50 spent on the first. *)
Definition unfunded_disk : gmap string DataFrame :=
  list_to_map
    [("projects.csv",
      frame ["project_id"; "project_name"; "budget_aed"; "completion_percentage";
                     "status"; "type"]
        [[VStr "P1"; VStr "One"; n 0; n 10; VStr "Open"; VStr "A"];
         [VStr "P2"; VStr "Two"; VNaN; n 0; VStr "Planning"; VStr "A"]]);
     ("expenses.csv",
      frame ["project_id"; "category"; "amount_aed"; "date"]
        [[VStr "P1"; VStr "Materials"; n 50; VStr "10"]]);
     ("purchase_orders.csv",
      frame ["project_id"; "amount_aed"; "status"; "issue_date"] [])].

(** The tables of that disk after [etl_process]. *)
Definition unfunded_tables : gmap string DataFrame :=
  or_empty (DataAnalytics.etl_process parse_numeric parse_datetime
                      (DataAnalytics.load_data unfunded_disk).1).

(** The series of means printed under [title]. *)
Definition printed_means (title : string) (out : result (list DataAnalytics.printed))
    : option (list (value * fval)) :=
  match out with
  | Ok l =>
      match List.find (fun p => match p with
                                | DataAnalytics.PMeans t _ => bool_decide (t = title)
                                | _ => false
                                end) l with
      | Some (DataAnalytics.PMeans _ s) => Some s
      | _ => None
      end
  | Err _ => None
  end.

(** The metric shown under [label]. *)
Definition metric (label : string) (out : result (list App.shown) * gmap string DataFrame)
    : option fval :=
  match out.1 with
  | Ok l =>
      match List.find (fun p => match p with
                                | App.Metric t _ => bool_decide (t = label)
                                | _ => false
                                end) l with
      | Some (App.Metric _ x) => Some x
      | _ => None
      end
  | Err _ => None
  end.

End Samples.

(** * Notions used to state the properties *)

Import Pandas.
#[local] Open Scope Qc_scope.

(** ** Cell-wise rewriting of columns *)

(** [updates l r]: for every [(c, g)] of [l] in turn, the cell of row [r]
    under [c] is replaced by [g] of it. *)
Definition updates (l : list (string * (value -> value))) (r : Row)
    : Row :=
  foldl (fun r (cg : string * (value -> value)) => <[cg.1 := cg.2 (cell cg.1 r)]> r) r l.

(** [apply_specs l df]: the columns of [l] that [df] has are rewritten
    cell by cell; the other entries of [l] do nothing. *)
Definition apply_specs (l : list (string * (value -> value))) (df : DataFrame) : DataFrame :=
  {| columns := columns df;
     rows := updates (List.filter (fun cg : string * (value -> value) => has_column df cg.1) l)
               <$> rows df |}.

(** [f] rewrites the columns of [l] cell by cell, and raises unless the
    frame has them all. *)
Definition rewrites (f : DataFrame -> result DataFrame)
    (l : list (string * (value -> value))) : Prop :=
  forall df df', f df = Ok df' <->
    (forall c, c ∈ l.*1 -> has_column df c = true) /\ df' = apply_specs l df.

(** ** What the normalisers convert *)

(** What [pd.to_numeric(..., errors='coerce').fillna(0)] makes of a cell. *)
Definition clean_cell (pn : string -> option Qc) (v : value) : value :=
  fillna0 (to_numeric pn v).

(** The date columns [etl_process] converts in table [t]. *)
Definition date_columns (t : string) : list string :=
  match List.find (fun dc : string * list string => bool_decide (dc.1 = t))
                  DataAnalytics.date_cols with
  | Some dc => dc.2
  | None => []
  end.

(** The numeric columns [etl_process] converts in table [t]. *)
Definition numeric_columns (t : string) : list string :=
  if bool_decide (t = "projects") then ["budget_aed"; "completion_percentage"]
  else if bool_decide (t = "expenses") then ["amount_aed"]
  else if bool_decide (t = "purchase_orders") then ["amount_aed"]
  else if bool_decide (t = "employees") then ["salary_aed"]
  else [].

Definition specs (pn : string -> option Qc) (pd : string -> option Z) (t : string)
    : list (string * (value -> value)) :=
  ((fun c => (c, to_datetime pd)) <$> date_columns t)
  ++ ((fun c => (c, clean_cell pn)) <$> numeric_columns t).

(** [etl_process] raises unless every table that is there has its numeric
    columns. *)
Definition required (dfs : gmap string DataFrame) : Prop :=
  forall t df c, dfs !! t = Some df -> c ∈ numeric_columns t -> has_column df c = true.

(** The money columns both normalisers convert, by table. *)
Definition money_columns : list (string * string) :=
  [("projects", "budget_aed"); ("expenses", "amount_aed");
   ("purchase_orders", "amount_aed"); ("employees", "salary_aed")].

Definition money_specs (pn : string -> option Qc) (t : string)
    : list (string * (value -> value)) :=
  (fun tc : string * string => (tc.2, clean_cell pn))
    <$> List.filter (fun tc : string * string => bool_decide (tc.1 = t)) money_columns.

(** An input cell that carries no number: absent, or a text the parser
    rejects. *)
Definition no_number (pn : string -> option Qc) (v : value) : Prop :=
  v = VNaN \/ exists s, v = VStr s /\ pn s = None.

(** ** Group sums *)

(** The row carries a group key. *)
Definition keyed (key : string) (r : Row) : bool := negb (isna (cell key r)).

(** The cell of the row under [c] can enter a sum. *)
Definition summable (c : string) (r : Row) : Prop :=
  exists x, as_float (cell c r) = Ok x.

(** What it then counts for. *)
Definition float_of (c : string) (r : Row) : option Qc :=
  match as_float (cell c r) with Ok x => x | Err _ => None end.

(** ** Sorted keys *)

(** The keys [ks] are in order: first the numbers, ascending or
    descending, then the absent ones. *)
Definition in_order (ascending : bool) (ks : list (option Qc)) : Prop :=
  exists fin nans,
    ks = (Some <$> fin) ++ nans
    /\ Forall (fun k => k = None) nans
    /\ Sorted (if ascending then Qcle else flip Qcle) fin.

(** The positions of [items] that hold a number, and the number there. *)
Definition is_number (items : list (option Qc)) (i : nat) : bool :=
  bool_decide (is_Some (mjoin (items !! i))).

Definition number_at (items : list (option Qc)) (i : nat) : Qc :=
  default 0 (mjoin (items !! i)).

(** Pairs of a position and a key, compared by key. *)
Definition key_le (a b : nat * Qc) : Prop := a.2 <= b.2.

(** The same, compared by key and then by position. *)
Definition lex (a b : nat * Qc) : Prop := a.2 < b.2 \/ (a.2 = b.2 /\ (a.1 < b.1)%nat).

(** Position [ka] of the keys [xs] goes before position [kb] in a stable
    ascending sort. *)
Definition pos_before (xs : list Qc) (ka kb : nat) : Prop :=
  exists x y, xs !! ka = Some x /\ xs !! kb = Some y /\ lex (ka, x) (kb, y).

(** Row [i] comes before row [j] when ties are broken by row order: by
    key, rows of equal key by their position in the table, rows without
    key last and by position. *)
Definition comes_first (items : list (option Qc)) (ascending : bool) (i j : nat) : Prop :=
  match mjoin (items !! i), mjoin (items !! j) with
  | Some x, Some y => (if ascending then x < y else y < x) \/ (x = y /\ (i < j)%nat)
  | Some _, None => True
  | None, Some _ => False
  | None, None => (i < j)%nat
  end.

(** ** Missing tables *)

(** A run that ends on a file that is not there, or on a table that is
    not in the mapping. *)
Definition table_fault {A} (r : result A) : bool :=
  match r with
  | Err (FileNotFoundError _) | Err (MissingTable _) => true
  | _ => false
  end.

(** A guarded block of [perform_eda]: the tables its guard asks for and
    what it prints. *)
Definition block : Type :=
  list string * (gmap string DataFrame -> result (list DataAnalytics.printed)).

(** The headers of [perform_eda], in order, each with the guarded blocks
    that follow it. *)
Definition eda_layout (argsort : list Qc -> list nat) : list (string * list block) :=
  [("--- Project Financial Health ---",
    [(["projects"; "expenses"; "purchase_orders"],
      DataAnalytics.project_financial_health argsort)]);
   ("--- Client Analysis ---",
    [(["projects"; "clients"], DataAnalytics.client_analysis argsort)]);
   ("--- Resource Analysis ---",
    [(["employees"; "timesheets"], DataAnalytics.resource_analysis argsort)]);
   ("--- Risk Analysis ---",
    [(["risks"; "projects"], DataAnalytics.risk_analysis argsort)]);
   ("--- Vendor Analysis ---",
    [(["purchase_orders"; "vendors"], DataAnalytics.vendor_analysis argsort)]);
   ("--- Task & Operational Efficiency ---",
    [(["tasks"], DataAnalytics.task_distribution argsort);
     (["timesheets"], DataAnalytics.billable_hours)])].

(** The guarded blocks of [perform_eda]. *)
Definition eda_blocks (argsort : list Qc -> list nat) : list block :=
  concat (snd <$> eda_layout argsort).

(** What a header and its blocks print on [dfs]: the header, then what
    each block prints. *)
Definition section_output (dfs : gmap string DataFrame) (hb : string * list block)
    : result (list DataAnalytics.printed) :=
  let* ps := mapM (fun b : block => b.2 dfs) hb.2 in
  Ok (DataAnalytics.PLine hb.1 :: concat ps).

(** ** What a view does to the loaded tables *)

(** [changes R m]: running [m] relates the state before to the state
    after by [R]. *)
Definition changes {A} (R : relation (gmap string DataFrame)) (m : App.M A) : Prop :=
  forall data, R data (m data).2.

Definition unchanged {A} (m : App.M A) : Prop := changes eq m.

(** [df'] is [df] with a column [month] assigned: the labels are those of
    [df] and [month], the rows are the same in number and order, and no
    cell under another label differs. *)
Definition month_added (df df' : DataFrame) : Prop :=
  columns df' = add_label "month" (columns df)
  /\ Forall2 (fun r r' : Row => forall c, c <> "month" -> r' !! c = r !! c)
             (rows df) (rows df').

Definition only_month (data data' : gmap string DataFrame) : Prop :=
  data' = data
  \/ exists df df', data !! "expenses" = Some df /\ month_added df df'
                    /\ data' = <["expenses" := df']> data.

(** ** Counting values *)

(** The cells of [l] equal to [v]. *)
Definition occurrences (v : value) (l : list value) : nat :=
  length (List.filter (fun w => bool_decide (w = v)) l).

(** The cells of [l] that are not absent. *)
Definition present_cells (l : list value) : list value :=
  List.filter (fun v => negb (isna v)) l.

(** The counts behind [value_counts], before they are sorted. *)
Definition tally (l : list value) : list (value * Qc) :=
  foldl (fun acc v => if isna v then acc else count_add v acc) [] l.

(** The total of a series of numbers. *)
Definition total (s : list (value * Qc)) : Qc :=
  series_sum ((fun kv : value * Qc => Some kv.2) <$> s).

(** The count recorded for [v] in [acc], 0 when there is none. *)
Definition count_of (v : value) (acc : list (value * Qc)) : Qc :=
  default 0 (snd <$> List.find (fun kv : value * Qc => bool_decide (kv.1 = v)) acc).

(** ** The loader of the dashboard *)

(** The date columns [load_data] of the dashboard converts in table [t]. *)
Definition dashboard_date_columns (t : string) : list string :=
  if bool_decide (t = "projects") then ["start_date"; "end_date"]
  else if bool_decide (t = "expenses") then ["date"]
  else if bool_decide (t = "timesheets") then ["date"]
  else if bool_decide (t = "milestones") then ["planned_start"; "planned_end"]
  else [].

(** The tables read from the files [fs] that are all there. *)
Definition tables_of (disk : gmap string DataFrame) (fs : list (string * string))
    (data : gmap string DataFrame) : gmap string DataFrame :=
  foldl (fun data (f : string * string) =>
           match disk !! f.2 with Some df => <[f.1 := df]> data | None => data end) data fs.

(** ** Tables and options of the views *)

(** Every table the dashboard loads is in the mapping. *)
Definition all_loaded (data : gmap string DataFrame) : Prop :=
  forall name, name ∈ App.files.*1 -> is_Some (data !! name).

(** [m] neither ends on a missing table nor loses one. *)
Definition finds_tables {A} (m : App.M A) : Prop :=
  forall data, all_loaded data -> table_fault (m data).1 = false /\ all_loaded (m data).2.


(** ** Groups, key by key *)

(** The rows of [rs] whose cell under [key] is [k]. *)
Definition with_key (key : string) (k : value) (rs : list Row) : list Row :=
  List.filter (fun r => bool_decide (cell key r = k)) rs.

(** Keys in strictly ascending order. *)
Definition keys_sorted (ks : list value) : Prop :=
  StronglySorted (fun a b => value_ltb a b = true) ks.

(** [gs] lists the groups of [rs] by [key]: one group for every key that
    is not absent, in ascending order of the keys, holding the rows of
    that key in their order. *)
Definition groups_of (key : string) (rs : list Row) (gs : list (value * list Row)) : Prop :=
  keys_sorted gs.*1
  /\ Forall (fun g : value * list Row =>
               isna g.1 = false /\ g.2 = with_key key g.1 rs /\ g.2 <> []) gs
  /\ forall r, r ∈ rs -> isna (cell key r) = false -> cell key r ∈ gs.*1.

(** The sum recorded for key [k] in the series [s]. *)
Definition sum_for (s : list (value * Qc)) (k : value) : option Qc :=
  snd <$> List.find (fun kv : value * Qc => bool_decide (kv.1 = k)) s.

(** ** The financial frame *)

(** The columns of the projects table the financial-health section keeps. *)
Definition financial_columns : list string :=
  ["project_id"; "project_name"; "budget_aed"; "status"; "type"].

(** What table [t] records as spent on project [k]. *)
Definition spent (t : DataFrame) (k : value) : Qc :=
  series_sum (float_of "amount_aed" <$> with_key "project_id" k (rows t)).

(** The row of the financial frame made from the project row [r]. *)
Definition financial_row (expenses purchase_orders : DataFrame) (r : Row) : Row :=
  let k := cell "project_id" r in
  let b := match cell "budget_aed" r with VNum b => b | _ => 0 end in
  let e := spent expenses k in
  let p := spent purchase_orders k in
  <["budget_variance" := VNum (b - (e + p))]>
    (<["total_actuals" := VNum (e + p)]>
       (<["total_pos" := VNum p]>
          (<["total_expenses" := VNum e]>
             (fillna0 <$> filter (fun kv : string * value => kv.1 ∈ financial_columns) r)))).

(** The budget utilisation, in per cent, of the project row [r]. *)
Definition utilization (expenses purchase_orders : DataFrame) (r : Row) : fval :=
  let k := cell "project_id" r in
  let b := match cell "budget_aed" r with VNum b => b | _ => 0 end in
  fscale (Qc_of_Z 100) (fdiv (Some (spent expenses k + spent purchase_orders k)) (Some b)).

(** ** Sums over rows *)

(** Every row of the frame has a cell under every label, and no other. *)
Definition rectangular (df : DataFrame) : Prop :=
  Forall (fun r : Row => dom r = (list_to_set (columns df) : gset string)) (rows df).

(** The sum of [f] over [l]. *)
Definition sum_over {A} (f : A -> Qc) (l : list A) : Qc :=
  series_sum ((fun x => Some (f x)) <$> l).

(** What a row counts for in a sum of column [c]. *)
Definition amount (c : string) (r : Row) : Qc := default 0 (float_of c r).

(** ** Precedence in a sort *)

(** Key [x] may stand before key [y] in a sort: numbers in order,
    absent keys last. *)
Definition precedes (ascending : bool) (x y : option Qc) : Prop :=
  match x, y with
  | Some a, Some b => if ascending then a <= b else b <= a
  | Some _, None => True
  | None, Some _ => False
  | None, None => True
  end.

(** ** Tables of the report, partners in a join *)

(** The tables [generate_html_report] reads. *)
Definition report_tables : list string :=
  ["projects"; "expenses"; "purchase_orders"; "clients"; "tasks"; "employees"; "risks"].

(** The rows of [right] whose key is that of the left row [l]. *)
Definition partners (on : string) (right : DataFrame) (l : Row) : list Row :=
  List.filter (fun r => bool_decide (cell on r = cell on l)) (rows right).

(** ** Converted dates *)

(** What a conversion to dates makes of a cell, however texts are read:
    a date or NaT; a date stays, an absent cell becomes NaT. *)
Definition as_date (v v' : value) : Prop :=
  (v' = VNaT \/ exists d, v' = VDate d)
  /\ (forall d, v = VDate d -> v' = VDate d)
  /\ (isna v = true -> v' = VNaT).

(** * Properties *)

(** ** The result monad *)

Lemma bind_Ok {A B} (m : result A) (f : A -> result B) (b : B) :
  bind m f = Ok b -> exists a, m = Ok a /\ f a = Ok b.
Proof. destruct m; simpl; [eauto | discriminate]. Qed.

Lemma bind_Ok_iff {A B} (m : result A) (f : A -> result B) (b : B) :
  bind m f = Ok b <-> exists a, m = Ok a /\ f a = Ok b.
Proof. split; [apply bind_Ok|]. by intros (a & -> & H). Qed.

Lemma mapM_Forall2 {A B} (f : A -> result B) (l : list A) (l' : list B) :
  mapM f l = Ok l' <-> Forall2 (fun a b => f a = Ok b) l l'.
Proof.
  revert l'. induction l as [|a l IH]; intros l'; simpl.
  - split; [intros [= <-]; constructor | by inversion 1].
  - split.
    + intros (b & Hb & H)%bind_Ok. apply bind_Ok in H as (bs & Hbs & [= <-]).
      constructor; [done | by apply IH].
    + inversion 1 as [|? b ? bs Hb Hbs]; subst. rewrite Hb. simpl.
      apply IH in Hbs. by rewrite Hbs.
Qed.

(** ** Filters of the Project Analytics view *)

Lemma filter_filter_andb {A} (p q : A -> bool) (l : list A) :
  List.filter q (List.filter p l) = List.filter (fun x => p x && q x) l.
Proof.
  induction l as [|x l IH]; simpl; [done|].
  destruct (p x); simpl; [destruct (q x); by rewrite IH | done].
Qed.

Lemma selected_by_passes sel c r : App.selected_by sel c r = true <-> App.passes sel c r.
Proof.
  unfold App.selected_by, App.passes, isin. destruct sel as [|v sel].
  - split; [by intros _ [] | done].
  - rewrite bool_decide_eq_true. split; [by intros H _ | intros H; by apply H].
Qed.

Lemma keep_selected sel c df :
  has_column df c = true ->
  match sel with [] => Ok df | _ => App.keep_isin c sel df end
  = Ok {| columns := columns df; rows := List.filter (App.selected_by sel c) (rows df) |}.
Proof.
  intros Hc. destruct sel as [|v sel].
  - simpl. destruct df as [cs rs]; simpl. f_equal. f_equal.
    induction rs as [|r rs IH]; simpl; [done | by rewrite <- IH].
  - unfold App.keep_isin. by rewrite Hc.
Qed.

(** ** What the views do to the loaded tables *)

Lemma unchanged_ret {A} (a : A) : unchanged (App.ret a).
Proof. by intros data. Qed.

Lemma unchanged_pure {A} (r : result A) : unchanged (App.pure r).
Proof. by intros data. Qed.

Lemma unchanged_read name : unchanged (App.read name).
Proof. by intros data. Qed.

Lemma changes_bind_l {A B} R (m : App.M A) (k : A -> App.M B) :
  unchanged m -> (forall a, changes R (k a)) -> Reflexive R -> changes R (App.bindM m k).
Proof.
  intros Hm Hk HR data. unfold App.bindM. specialize (Hm data).
  destruct (m data) as [[a|e] data']; simpl in *; subst; [apply Hk | apply HR].
Qed.

Lemma changes_bind_r {A B} R (m : App.M A) (k : A -> App.M B) :
  changes R m -> (forall a, unchanged (k a)) -> changes R (App.bindM m k).
Proof.
  intros Hm Hk data. unfold App.bindM. specialize (Hm data).
  destruct (m data) as [[a|e] data']; simpl in *; [|done].
  by rewrite <- (Hk a data').
Qed.

Lemma unchanged_bind {A B} (m : App.M A) (k : A -> App.M B) :
  unchanged m -> (forall a, unchanged (k a)) -> unchanged (App.bindM m k).
Proof. intros Hm Hk. apply changes_bind_r; [apply Hm | apply Hk]. Qed.

(** A view made of reads and computations only. *)
Ltac pure_view :=
  repeat first
    [ apply unchanged_ret | apply unchanged_pure | apply unchanged_read
    | apply unchanged_bind; [|intros ?] ].

Lemma executive_overview_unchanged argsort : unchanged (App.executive_overview argsort).
Proof. unfold App.executive_overview. pure_view. Qed.

Lemma project_analytics_unchanged argsort t s p :
  unchanged (App.project_analytics argsort t s p).
Proof. unfold App.project_analytics. pure_view. Qed.

Lemma resource_management_unchanged argsort : unchanged (App.resource_management argsort).
Proof. unfold App.resource_management. pure_view. Qed.

Lemma risk_compliance_unchanged argsort : unchanged (App.risk_compliance argsort).
Proof. unfold App.risk_compliance. pure_view. Qed.

Lemma vendor_analysis_unchanged argsort : unchanged (App.vendor_analysis argsort).
Proof. unfold App.vendor_analysis. pure_view. Qed.

Lemma assignM_adds c f df df' :
  assignM c f df = Ok df' ->
  columns df' = add_label c (columns df)
  /\ Forall2 (fun r r' : Row => exists v, f r = Ok v /\ r' = <[c := v]> r)
             (rows df) (rows df').
Proof.
  unfold assignM. intros (rs & Hrs & [= <-])%bind_Ok. split; [done|]. simpl.
  apply mapM_Forall2 in Hrs. eapply Forall2_impl; [exact Hrs|].
  simpl. intros r r' (v & Hv & [= <-])%bind_Ok. eauto.
Qed.

Lemma setitem_month f : changes only_month (App.setitem "expenses" "month" f).
Proof.
  intros data. unfold App.setitem, DataAnalytics.table.
  destruct (data !! "expenses") as [df|] eqn:E; simpl; [|by left].
  destruct (assignM "month" f df) as [df'|e] eqn:Ea; simpl; [|by left].
  right. exists df, df'. split; [done|]. split; [|done].
  apply assignM_adds in Ea as [Hc Hr]. split; [done|].
  eapply Forall2_impl; [exact Hr|]. simpl. intros r r' (v & _ & ->) c Hc'.
  by rewrite lookup_insert_ne.
Qed.

Lemma financial_insights_changes argsort month_label :
  changes only_month (App.financial_insights argsort month_label).
Proof.
  unfold App.financial_insights.
  repeat (apply changes_bind_l; [solve [pure_view] | intros ? | by left]).
  apply changes_bind_r; [apply setitem_month | intros ?; pure_view].
Qed.

(** C6, as the code has it: a view changes nothing in the loaded mapping
    except that the Financial Insights view assigns a column [month] to
    the loaded expenses table; every other table, and every cell of the
    expenses table under another label, stays as loaded. *)
Theorem views_touch_only_month (argsort : list Qc -> list nat) (month_label : Z -> string)
    (p : App.page) (data : gmap string DataFrame) :
  only_month data (App.render argsort month_label p data).2
  /\ (p <> App.FinancialInsights -> (App.render argsort month_label p data).2 = data).
Proof.
  split.
  - destruct p; simpl;
      [ left; symmetry; apply executive_overview_unchanged
      | left; symmetry; apply project_analytics_unchanged
      | apply financial_insights_changes
      | left; symmetry; apply resource_management_unchanged
      | left; symmetry; apply risk_compliance_unchanged
      | left; symmetry; apply vendor_analysis_unchanged ].
  - intros Hp. symmetry. destruct p; simpl; try done;
      [ apply executive_overview_unchanged | apply project_analytics_unchanged
      | apply resource_management_unchanged
      | apply risk_compliance_unchanged | apply vendor_analysis_unchanged ].
Qed.

(** C6 as stated fails: rendering the Financial Insights view rewrites
    the loaded expenses table in place, which gains the column [month]. *)
Lemma financial_insights_adds_month :
  App.load_data Samples.parse_datetime Samples.disk = Ok Samples.data
  /\ columns <$> Samples.data !! "expenses"
     = Some ["expense_id"; "project_id"; "category"; "amount_aed"; "date"]
  /\ columns <$> (App.render Samples.stable_argsort Samples.month_label
                    App.FinancialInsights Samples.data).2 !! "expenses"
     = Some ["expense_id"; "project_id"; "category"; "amount_aed"; "date"; "month"]
  /\ Samples.column_of (App.render Samples.stable_argsort Samples.month_label
                          App.FinancialInsights Samples.data).2 "expenses" "month"
     = Some [VStr "2026-01"; VStr "2026-02"; VStr "NaT"].
Proof. repeat split; vm_compute; reflexivity. Qed.

(** ** Normalisation *)

Lemma cell_insert c v r : cell c (<[c := v]> r) = v.
Proof. unfold cell. by rewrite lookup_insert_eq. Qed.

Lemma cell_insert_ne c c' v r : c <> c' -> cell c' (<[c := v]> r) = cell c' r.
Proof. intros. unfold cell. by rewrite lookup_insert_ne. Qed.

Lemma updates_cons c g l r : updates ((c, g) :: l) r = updates l (<[c := g (cell c r)]> r).
Proof. done. Qed.

Lemma updates_lookup_ne l r c : c ∉ l.*1 -> updates l r !! c = r !! c.
Proof.
  revert r. induction l as [|[c' g] l IH]; intros r Hc; [done|].
  rewrite fmap_cons, not_elem_of_cons in Hc. destruct Hc as [Hne Hc]. simpl in Hne.
  rewrite updates_cons, IH by done. by rewrite lookup_insert_ne.
Qed.

Lemma updates_lookup l r c g :
  NoDup l.*1 -> (c, g) ∈ l -> updates l r !! c = Some (g (cell c r)).
Proof.
  revert r. induction l as [|[c' g'] l IH]; intros r Hnd Hin; [by apply elem_of_nil in Hin|].
  rewrite fmap_cons in Hnd. apply NoDup_cons in Hnd as [Hc' Hnd]. simpl in Hc'.
  apply elem_of_cons in Hin as [[= <- <-]|Hin]; rewrite updates_cons.
  - rewrite updates_lookup_ne by done. by rewrite lookup_insert_eq.
  - rewrite IH by done. rewrite cell_insert_ne; [done|].
    intros ->. apply Hc'. apply list_elem_of_fmap. by exists (c, g).
Qed.

Lemma updates_idemp l r :
  NoDup l.*1 -> (forall c g v, (c, g) ∈ l -> g (g v) = g v) ->
  updates l (updates l r) = updates l r.
Proof.
  intros Hnd Hg. apply map_eq. intros i.
  destruct (decide (i ∈ l.*1)) as [Hi|Hi].
  - apply list_elem_of_fmap in Hi as ([c g] & -> & Hin). simpl.
    rewrite !(updates_lookup l _ c g) by done.
    unfold cell at 1. rewrite (updates_lookup l r c g) by done. simpl.
    by rewrite (Hg c g).
  - by rewrite updates_lookup_ne.
Qed.

Lemma updates_app l1 l2 r : updates (l1 ++ l2) r = updates l2 (updates l1 r).
Proof. unfold updates. by rewrite foldl_app. Qed.

Lemma apply_specs_columns l df : columns (apply_specs l df) = columns df.
Proof. done. Qed.

Lemma has_column_apply_specs l df c : has_column (apply_specs l df) c = has_column df c.
Proof. done. Qed.

Lemma filter_app_bool {A} (p : A -> bool) (l1 l2 : list A) :
  List.filter p (l1 ++ l2) = List.filter p l1 ++ List.filter p l2.
Proof. induction l1 as [|x l1 IH]; simpl; [done|]. destruct (p x); simpl; by rewrite IH. Qed.

Lemma apply_specs_app l1 l2 df :
  apply_specs l2 (apply_specs l1 df) = apply_specs (l1 ++ l2) df.
Proof.
  unfold apply_specs. simpl. f_equal.
  rewrite <- list_fmap_compose. apply list_fmap_ext. intros _ r _. simpl.
  rewrite filter_app_bool, updates_app. done.
Qed.

Lemma apply_specs_nil df : apply_specs [] df = df.
Proof. destruct df as [cs rs]. unfold apply_specs. simpl. by rewrite list_fmap_id. Qed.

Lemma add_label_present c cs : c ∈ cs -> add_label c cs = cs.
Proof. intros H. unfold add_label. by rewrite bool_decide_eq_true_2. Qed.

Lemma cellwise_apply_specs c g df :
  (if has_column df c then assign c (fun r => g (cell c r)) df else df) = apply_specs [(c, g)] df.
Proof.
  unfold apply_specs. simpl. destruct (has_column df c) eqn:Hc.
  - unfold assign. rewrite add_label_present; [done|].
    unfold has_column in Hc. by apply bool_decide_eq_true in Hc.
  - destruct df as [cs rs]. simpl. by rewrite list_fmap_id.
Qed.

Lemma transform_apply_specs c g df :
  transform c g df = if has_column df c then Ok (apply_specs [(c, g)] df) else Err (MissingColumn c).
Proof.
  unfold transform. rewrite <- cellwise_apply_specs. by destruct (has_column df c).
Qed.

Lemma convert_dates_apply_specs pd cols df :
  DataAnalytics.convert_dates pd cols df = apply_specs ((fun c => (c, to_datetime pd)) <$> cols) df.
Proof.
  revert df. induction cols as [|c cols IH]; intros df; simpl.
  - by rewrite apply_specs_nil.
  - unfold DataAnalytics.convert_dates in *. simpl. rewrite IH.
    rewrite (cellwise_apply_specs c (to_datetime pd) df).
    by rewrite apply_specs_app.
Qed.

Lemma rows_apply_specs l df :
  rows (apply_specs l df)
  = updates (List.filter (fun cg : string * (value -> value) => has_column df cg.1) l) <$> rows df.
Proof. done. Qed.

Lemma NoDup_fst_filter {A} (p : string * A -> bool) (l : list (string * A)) :
  NoDup l.*1 -> NoDup (List.filter p l).*1.
Proof.
  induction l as [|[c g] l IH]; [constructor|].
  rewrite fmap_cons. intros [Hc Hnd]%NoDup_cons. simpl in *.
  destruct (p (c, g)); [|by apply IH].
  rewrite fmap_cons. constructor; [|by apply IH]. simpl. intros Hin. apply Hc.
  apply list_elem_of_fmap in Hin as (x & -> & Hx). apply list_elem_of_fmap. exists x. split; [done|].
  apply list_elem_of_In in Hx. apply filter_In in Hx as [Hx _]. by apply list_elem_of_In.
Qed.

Lemma apply_specs_idemp l df :
  NoDup l.*1 -> (forall c g v, (c, g) ∈ l -> g (g v) = g v) ->
  apply_specs l (apply_specs l df) = apply_specs l df.
Proof.
  intros Hnd Hg. unfold apply_specs. simpl. f_equal.
  rewrite <- list_fmap_compose. apply list_fmap_ext. intros _ r _. simpl.
  apply updates_idemp.
  - by apply NoDup_fst_filter.
  - intros c g v Hin. apply (Hg c g). apply list_elem_of_In in Hin.
    apply filter_In in Hin as [Hx _]. by apply list_elem_of_In.
Qed.

Lemma to_datetime_idemp pd v : to_datetime pd (to_datetime pd v) = to_datetime pd v.
Proof.
  destruct v as [q|s| | |]; simpl; try done; [by destruct (nanoseconds q) | by destruct (pd s)].
Qed.

Lemma numeric_cell_idemp pn v :
  fillna0 (to_numeric pn (fillna0 (to_numeric pn v))) = fillna0 (to_numeric pn v).
Proof. destruct v; simpl; try done. by destruct (pn s). Qed.

Lemma numeric_rewrites pn c : rewrites (DataAnalytics.numeric pn c) [(c, clean_cell pn)].
Proof.
  intros df df'. unfold DataAnalytics.numeric. rewrite transform_apply_specs.
  fold (clean_cell pn). split.
  - destruct (has_column df c) eqn:Hc; [|done]. intros [= <-]. split; [|done].
    intros c' Hc'. simpl in Hc'. apply list_elem_of_singleton in Hc'. by subst.
  - intros [Hc ->]. rewrite Hc; [done|]. simpl. apply list_elem_of_singleton. done.
Qed.

Lemma rewrites_bind f1 f2 l1 l2 :
  rewrites f1 l1 -> rewrites f2 l2 ->
  rewrites (fun df => bind (f1 df) f2) (l1 ++ l2).
Proof.
  intros H1 H2 df df'. rewrite bind_Ok_iff. split.
  - intros (df1 & Hdf1 & Hdf'). apply H1 in Hdf1 as [Hc1 ->]. apply H2 in Hdf' as [Hc2 ->].
    split; [|by rewrite apply_specs_app].
    intros c. rewrite fmap_app, elem_of_app. intros [?|?]; [by apply Hc1|].
    rewrite <- (has_column_apply_specs l1). by apply Hc2.
  - intros [Hc ->]. exists (apply_specs l1 df). split.
    + apply H1. split; [|done]. intros c Hin. apply Hc. rewrite fmap_app, elem_of_app. by left.
    + apply H2. split; [|by rewrite apply_specs_app]. intros c Hin.
      rewrite has_column_apply_specs. apply Hc. rewrite fmap_app, elem_of_app. by right.
Qed.

Lemma on_table_iff n f l (d d' : gmap string DataFrame) :
  rewrites f l ->
  DataAnalytics.on_table n f d = Ok d' <->
    (forall df c, d !! n = Some df -> c ∈ l.*1 -> has_column df c = true)
    /\ (forall t, d' !! t = (if decide (t = n) then apply_specs l else id) <$> d !! t).
Proof.
  intros Hf. unfold DataAnalytics.on_table. destruct (d !! n) as [df|] eqn:E.
  - rewrite bind_Ok_iff. split.
    + intros (df' & Hdf' & [= <-]). apply Hf in Hdf' as [Hc ->]. split.
      * intros ? c [= <-]. apply Hc.
      * intros t. case_decide as Ht; [subst; by rewrite lookup_insert_eq, E|].
        rewrite lookup_insert_ne by done. by rewrite option_fmap_id.
    + intros [Hc Hl]. exists (apply_specs l df). split.
      * apply Hf. split; [|done]. intros c. by apply Hc.
      * f_equal. apply map_eq. intros t. rewrite Hl. case_decide as Ht.
        -- subst. by rewrite lookup_insert_eq, E.
        -- rewrite lookup_insert_ne by done. by rewrite option_fmap_id.
  - split.
    + intros [= <-]. split; [done|]. intros t. case_decide; [subst; by rewrite E|].
      by rewrite option_fmap_id.
    + intros [_ Hl]. f_equal. apply map_eq. intros t. rewrite Hl.
      case_decide; [subst; by rewrite E|]. by rewrite option_fmap_id.
Qed.

Lemma date_loop_lookup pd (l : list (string * list string)) (d : gmap string DataFrame) t :
  NoDup l.*1 ->
  foldl (fun dfs (dc : string * list string) =>
           alter (DataAnalytics.convert_dates pd dc.2) dc.1 dfs) d l !! t
  = DataAnalytics.convert_dates pd
      (match List.find (fun dc : string * list string => bool_decide (dc.1 = t)) l with
       | Some dc => dc.2 | None => [] end) <$> d !! t.
Proof.
  revert d. induction l as [|[n cols] l IH]; intros d Hnd; simpl.
  - unfold DataAnalytics.convert_dates. simpl. by rewrite option_fmap_id.
  - rewrite fmap_cons in Hnd. apply NoDup_cons in Hnd as [Hn Hnd]. simpl in Hn.
    rewrite IH by done. case_bool_decide as Ht.
    + subst. rewrite lookup_alter_eq.
      destruct (List.find _ l) as [[n' c']|] eqn:F.
      * apply find_some in F as [Hin Heq]. simpl in Heq. apply bool_decide_eq_true in Heq.
        subst. exfalso. apply Hn. apply list_elem_of_fmap. exists (t, c').
        split; [done|]. by apply list_elem_of_In.
      * unfold DataAnalytics.convert_dates at 1. simpl. by rewrite option_fmap_id.
    + by rewrite lookup_alter_ne.
Qed.

Lemma on_table_alter n f l (d d' : gmap string DataFrame) :
  rewrites f l ->
  DataAnalytics.on_table n f d = Ok d' <->
    (forall df c, d !! n = Some df -> c ∈ l.*1 -> has_column df c = true)
    /\ d' = alter (apply_specs l) n d.
Proof.
  intros Hf. rewrite (on_table_iff n f l) by done.
  split; intros [Hc Hl]; (split; [done|]).
  - apply map_eq. intros t. rewrite Hl. case_decide as Ht.
    + subst. by rewrite lookup_alter_eq.
    + rewrite lookup_alter_ne by done. by rewrite option_fmap_id.
  - intros t. subst d'. case_decide as Ht.
    + subst. by rewrite lookup_alter_eq.
    + rewrite lookup_alter_ne by done. by rewrite option_fmap_id.
Qed.

Lemma date_cols_NoDup : NoDup DataAnalytics.date_cols.*1.
Proof. compute_done. Qed.

Lemma etl_process_iff pn pd (dfs dfs' : gmap string DataFrame) :
  DataAnalytics.etl_process pn pd dfs = Ok dfs' <->
  required dfs /\ forall t, dfs' !! t = apply_specs (specs pn pd t) <$> dfs !! t.
Proof.
  unfold DataAnalytics.etl_process.
  set (d0 := foldl _ dfs DataAnalytics.date_cols).
  assert (H0 : forall t, d0 !! t
            = apply_specs ((fun c => (c, to_datetime pd)) <$> date_columns t) <$> dfs !! t).
  { intros t. unfold d0. rewrite date_loop_lookup by apply date_cols_NoDup.
    unfold date_columns. destruct (dfs !! t); simpl; [|done].
    by rewrite convert_dates_apply_specs. }
  clearbody d0.
  pose proof (rewrites_bind _ _ _ _ (numeric_rewrites pn "budget_aed")
                (numeric_rewrites pn "completion_percentage")) as Hp.
  pose proof (numeric_rewrites pn "amount_aed") as Ha.
  pose proof (numeric_rewrites pn "salary_aed") as Hs.
  rewrite bind_Ok_iff.
  setoid_rewrite bind_Ok_iff. setoid_rewrite bind_Ok_iff.
  setoid_rewrite (on_table_alter "projects" _ _ _ _ Hp).
  setoid_rewrite (on_table_alter "expenses" _ _ _ _ Ha).
  setoid_rewrite (on_table_alter "purchase_orders" _ _ _ _ Ha).
  setoid_rewrite (on_table_alter "employees" _ _ _ _ Hs).
  assert (Hlook : forall t,
    alter (apply_specs [("salary_aed", clean_cell pn)]) "employees"
      (alter (apply_specs [("amount_aed", clean_cell pn)]) "purchase_orders"
        (alter (apply_specs [("amount_aed", clean_cell pn)]) "expenses"
          (alter (apply_specs ([("budget_aed", clean_cell pn)] ++ [("completion_percentage", clean_cell pn)]))
             "projects" d0))) !! t
    = apply_specs (specs pn pd t) <$> dfs !! t).
  { intros t. unfold specs, numeric_columns.
    rewrite !lookup_alter. rewrite !H0.
    repeat case_decide; subst; try done; simpl;
      repeat (rewrite bool_decide_eq_false_2 by done);
      repeat (rewrite bool_decide_eq_true_2 by done);
      destruct (dfs !! _); simpl; try done;
        rewrite ?apply_specs_app, ?app_nil_r; done. }
  split.
  - intros (d1 & [R1 ->] & d2 & [R2 ->] & d3 & [R3 ->] & R4 & ->).
    split; [|exact Hlook].
    intros t df c Ht. unfold numeric_columns.
    repeat case_bool_decide; subst; intros Hc.
    + rewrite <- (has_column_apply_specs ((fun c => (c, to_datetime pd)) <$> date_columns "projects")).
      eapply R1; [by rewrite H0, Ht|done].
    + rewrite <- (has_column_apply_specs ((fun c => (c, to_datetime pd)) <$> date_columns "expenses")).
      eapply R2; [by rewrite lookup_alter_ne, H0, Ht|done].
    + rewrite <- (has_column_apply_specs ((fun c => (c, to_datetime pd)) <$> date_columns "purchase_orders")).
      eapply R3; [by rewrite !lookup_alter_ne, H0, Ht|done].
    + rewrite <- (has_column_apply_specs ((fun c => (c, to_datetime pd)) <$> date_columns "employees")).
      eapply R4; [by rewrite !lookup_alter_ne, H0, Ht|done].
    + by apply elem_of_nil in Hc.
  - intros [Hreq Hl].
    eexists. split; [split; [|reflexivity]|].
    { intros df c. rewrite H0. destruct (dfs !! "projects") as [df0|] eqn:E; [|done].
      intros [= <-] Hc. rewrite has_column_apply_specs. by eapply Hreq. }
    eexists. split; [split; [|reflexivity]|].
    { intros df c. rewrite lookup_alter_ne, H0 by done.
      destruct (dfs !! "expenses") as [df0|] eqn:E; [|done].
      intros [= <-] Hc. rewrite has_column_apply_specs. by eapply Hreq. }
    eexists. split; [split; [|reflexivity]|].
    { intros df c. rewrite !lookup_alter_ne, H0 by done.
      destruct (dfs !! "purchase_orders") as [df0|] eqn:E; [|done].
      intros [= <-] Hc. rewrite has_column_apply_specs. by eapply Hreq. }
    split.
    { intros df c. rewrite !lookup_alter_ne, H0 by done.
      destruct (dfs !! "employees") as [df0|] eqn:E; [|done].
      intros [= <-] Hc. rewrite has_column_apply_specs. by eapply Hreq. }
    apply map_eq. intros t. by rewrite Hl, Hlook.
Qed.

Lemma specs_NoDup pn pd t : NoDup (specs pn pd t).*1.
Proof.
  unfold specs. rewrite fmap_app, <- !list_fmap_compose. simpl.
  rewrite !list_fmap_id.
  unfold date_columns, numeric_columns, DataAnalytics.date_cols. simpl.
  repeat case_bool_decide; subst; try done; compute_done.
Qed.

Lemma specs_idemp pn pd t c g v : (c, g) ∈ specs pn pd t -> g (g v) = g v.
Proof.
  unfold specs. rewrite elem_of_app, !list_elem_of_fmap.
  intros [(? & [= -> ->] & _)|(? & [= -> ->] & _)].
  - apply to_datetime_idemp.
  - apply numeric_cell_idemp.
Qed.

Lemma clean_iff pn (dfs dfs' : gmap string DataFrame) :
  GenerateReport.clean pn dfs = Ok dfs' <->
  (forall t c df, (t, c) ∈ money_columns -> dfs !! t = Some df -> has_column df c = true)
  /\ forall t, dfs' !! t = apply_specs (money_specs pn t) <$> dfs !! t.
Proof.
  unfold GenerateReport.clean.
  pose proof (numeric_rewrites pn "budget_aed") as Hb.
  pose proof (numeric_rewrites pn "amount_aed") as Ha.
  pose proof (numeric_rewrites pn "salary_aed") as Hs.
  change (GenerateReport.numeric pn) with (DataAnalytics.numeric pn).
  rewrite bind_Ok_iff.
  setoid_rewrite bind_Ok_iff. setoid_rewrite bind_Ok_iff.
  setoid_rewrite (on_table_alter "projects" _ _ _ _ Hb).
  setoid_rewrite (on_table_alter "expenses" _ _ _ _ Ha).
  setoid_rewrite (on_table_alter "purchase_orders" _ _ _ _ Ha).
  setoid_rewrite (on_table_alter "employees" _ _ _ _ Hs).
  assert (Hlook : forall t,
    alter (apply_specs [("salary_aed", clean_cell pn)]) "employees"
      (alter (apply_specs [("amount_aed", clean_cell pn)]) "purchase_orders"
        (alter (apply_specs [("amount_aed", clean_cell pn)]) "expenses"
          (alter (apply_specs [("budget_aed", clean_cell pn)]) "projects" dfs))) !! t
    = apply_specs (money_specs pn t) <$> dfs !! t).
  { intros t. unfold money_specs, money_columns. simpl.
    rewrite !lookup_alter.
    repeat case_decide; subst; try done; simpl;
      repeat (rewrite bool_decide_eq_false_2 by done); simpl;
      destruct (dfs !! _); simpl; try done.
    by rewrite apply_specs_nil. }
  split.
  - intros (d1 & [R1 ->] & d2 & [R2 ->] & d3 & [R3 ->] & R4 & ->).
    split; [|exact Hlook].
    intros t c df Hin Ht. unfold money_columns in Hin.
    repeat (apply elem_of_cons in Hin as [[= -> ->]|Hin]).
    + eapply R1; [done|]. simpl. apply list_elem_of_singleton. done.
    + eapply R2; [by rewrite lookup_alter_ne|]. simpl. apply list_elem_of_singleton. done.
    + eapply R3; [by rewrite !lookup_alter_ne|]. simpl. apply list_elem_of_singleton. done.
    + eapply R4; [by rewrite !lookup_alter_ne|]. simpl. apply list_elem_of_singleton. done.
    + by apply elem_of_nil in Hin.
  - intros [Hreq Hl].
    eexists. split; [split; [|reflexivity]|].
    { intros df c Ht Hc. simpl in Hc. apply list_elem_of_singleton in Hc. subst.
      eapply (Hreq "projects"); [|done]. compute_done. }
    eexists. split; [split; [|reflexivity]|].
    { intros df c. rewrite lookup_alter_ne by done. intros Ht Hc.
      simpl in Hc. apply list_elem_of_singleton in Hc. subst.
      eapply (Hreq "expenses"); [|done]. compute_done. }
    eexists. split; [split; [|reflexivity]|].
    { intros df c. rewrite !lookup_alter_ne by done. intros Ht Hc.
      simpl in Hc. apply list_elem_of_singleton in Hc. subst.
      eapply (Hreq "purchase_orders"); [|done]. compute_done. }
    split.
    { intros df c. rewrite !lookup_alter_ne by done. intros Ht Hc.
      simpl in Hc. apply list_elem_of_singleton in Hc. subst.
      eapply (Hreq "employees"); [|done]. compute_done. }
    apply map_eq. intros t. by rewrite Hl, Hlook.
Qed.

(** After either normalisation, a money column holds [clean_cell] of what it held. *)
Lemma money_cells pn pd (dfs dfs' : gmap string DataFrame) t c df :
  DataAnalytics.etl_process pn pd dfs = Ok dfs' \/ GenerateReport.clean pn dfs = Ok dfs' ->
  (t, c) ∈ money_columns -> dfs !! t = Some df ->
  exists df', dfs' !! t = Some df' /\ has_column df' c = true
    /\ Forall2 (fun r r' : Row => cell c r' = clean_cell pn (cell c r))
               (rows df) (rows df').
Proof.
  intros [H|H] Hin Ht.
  - apply etl_process_iff in H as [Hreq Hl].
    assert (Hc : has_column df c = true).
    { eapply Hreq; [done|]. unfold money_columns in Hin. unfold numeric_columns.
      repeat (apply elem_of_cons in Hin as [[= -> ->]|Hin]); try compute_done.
      by apply elem_of_nil in Hin. }
    exists (apply_specs (specs pn pd t) df). split; [by rewrite Hl, Ht|]. split; [done|].
    rewrite rows_apply_specs. apply Forall2_fmap_r, Forall_Forall2_diag, Forall_forall. intros r _.
    unfold compose; cbv beta. unfold cell at 1. erewrite updates_lookup; [done| |].
    + apply NoDup_fst_filter. apply specs_NoDup.
    + apply list_elem_of_In, filter_In. split; [|done]. apply list_elem_of_In.
      unfold specs. apply elem_of_app. right. apply list_elem_of_fmap. exists c. split; [done|].
      unfold money_columns in Hin. unfold numeric_columns.
      repeat (apply elem_of_cons in Hin as [[= -> ->]|Hin]); try compute_done.
      by apply elem_of_nil in Hin.
  - apply clean_iff in H as [Hreq Hl].
    assert (Hc : has_column df c = true) by (by eapply Hreq).
    exists (apply_specs (money_specs pn t) df). split; [by rewrite Hl, Ht|]. split; [done|].
    rewrite rows_apply_specs. apply Forall2_fmap_r, Forall_Forall2_diag, Forall_forall. intros r _.
    unfold money_columns in Hin.
    repeat (apply elem_of_cons in Hin as [[= -> ->]|Hin]);
      try (by apply elem_of_nil in Hin);
      unfold money_specs, money_columns; simpl;
      unfold compose; cbv beta; rewrite Hc; simpl; by rewrite cell_insert.
Qed.

Lemma clean_cell_number pn v : exists q, clean_cell pn v = VNum q.
Proof.
  unfold clean_cell. destruct v; simpl; eauto. destruct (pn s); simpl; eauto.
Qed.

Lemma clean_cell_no_number pn v : no_number pn v -> clean_cell pn v = VNum 0.
Proof. unfold clean_cell. intros [->|(s & -> & Hs)]; simpl; [done|]. by rewrite Hs. Qed.

Lemma floats_numbers c (rs : list (Row)) :
  Forall (fun r => exists q, cell c r = VNum q) rs ->
  exists qs, floats c rs = Ok (Some <$> qs).
Proof.
  unfold floats. induction 1 as [|r rs [q Hq] _ [qs IH]]; simpl.
  - by exists [].
  - exists (q :: qs). by rewrite Hq, IH.
Qed.

(** C5: normalising a second time changes nothing: whatever
    [etl_process] returns (and when it raises, for want of a numeric
    column, it raises again), running it on its own result returns that
    result. *)
Theorem etl_process_idempotent pn pd (dfs : gmap string DataFrame) :
  bind (DataAnalytics.etl_process pn pd dfs) (DataAnalytics.etl_process pn pd)
  = DataAnalytics.etl_process pn pd dfs.
Proof.
  destruct (DataAnalytics.etl_process pn pd dfs) as [dfs'|e] eqn:E; simpl; [|done].
  apply etl_process_iff in E as [Hreq Hl]. apply etl_process_iff. split.
  - intros t df' c Ht Hc. rewrite Hl in Ht.
    destruct (dfs !! t) as [df|] eqn:E; simpl in Ht; [|done]. injection Ht as <-.
    rewrite has_column_apply_specs. by eapply Hreq.
  - intros t. rewrite Hl. destruct (dfs !! t) as [df|]; simpl; [|done].
    f_equal. symmetry. apply apply_specs_idemp; [apply specs_NoDup|].
    intros c g v. apply specs_idemp.
Qed.

(** C4, as the code has it: after [etl_process] and after the cleaning
    of [load_and_clean], in the money columns the two convert (the
    budget of projects, the amount of expenses and of purchase orders,
    the salary of employees) every cell is a number, and a cell whose
    input was absent or unparseable is zero, so that the column sums
    without meeting an absent value. *)
Theorem money_cells_filled (pn : string -> option Qc) (pd : string -> option Z)
    (dfs dfs' : gmap string DataFrame) (t c : string) (df : DataFrame) :
  DataAnalytics.etl_process pn pd dfs = Ok dfs' \/ GenerateReport.clean pn dfs = Ok dfs' ->
  (t, c) ∈ money_columns ->
  dfs !! t = Some df ->
  exists df', dfs' !! t = Some df'
    /\ Forall2 (fun r r' : Row =>
                  (exists q, cell c r' = VNum q)
                  /\ (no_number pn (cell c r) -> cell c r' = VNum 0))
               (rows df) (rows df')
    /\ exists qs, floats c (rows df') = Ok (Some <$> qs)
                  /\ col_sum df' c = Ok (series_sum (Some <$> qs)).
Proof.
  intros H Hin Ht. destruct (money_cells pn pd dfs dfs' t c df H Hin Ht) as (df' & Hdf' & Hc & Hr).
  exists df'. split; [done|]. split.
  - eapply Forall2_impl; [exact Hr|]. simpl. intros r r' ->. split.
    + apply clean_cell_number.
    + apply clean_cell_no_number.
  - destruct (floats_numbers c (rows df')) as [qs Hqs].
    { eapply Forall2_Forall_r; [exact Hr|]. apply Forall_forall. intros r _ r' ->.
      apply clean_cell_number. }
    exists qs. split; [done|]. unfold col_sum. by rewrite Hc, Hqs.
Qed.

Lemma money_cells_filled_witness :
  exists df', Samples.normalized !! "employees" = Some df'
    /\ Forall2 (fun r r' : Row =>
                  (exists q, cell "salary_aed" r' = VNum q)
                  /\ (no_number Samples.parse_numeric (cell "salary_aed" r)
                      -> cell "salary_aed" r' = VNum 0))
               (rows Samples.employees) (rows df')
    /\ exists qs, floats "salary_aed" (rows df') = Ok (Some <$> qs)
                  /\ col_sum df' "salary_aed" = Ok (series_sum (Some <$> qs)).
Proof.
  apply (money_cells_filled Samples.parse_numeric Samples.parse_datetime
           Samples.loaded Samples.normalized "employees" "salary_aed" Samples.employees).
  - left. vm_compute. reflexivity.
  - compute_done.
  - vm_compute. reflexivity.
Defined.

(** C4 as stated fails for [hours_logged]: neither normaliser converts
    it, and an absent cell of it is still absent afterwards. *)
Lemma hours_logged_left_absent :
  Samples.column_of Samples.loaded "timesheets" "hours_logged"
    = Some [Samples.n 8; Samples.n 6; VNaN]
  /\ DataAnalytics.etl_process Samples.parse_numeric Samples.parse_datetime Samples.loaded
     = Ok Samples.normalized
  /\ Samples.column_of Samples.normalized "timesheets" "hours_logged"
     = Some [Samples.n 8; Samples.n 6; VNaN]
  /\ GenerateReport.load_and_clean Samples.parse_numeric Samples.disk = Ok Samples.cleaned
  /\ Samples.column_of Samples.cleaned "timesheets" "hours_logged"
     = Some [Samples.n 8; Samples.n 6; VNaN].
Proof. repeat split; vm_compute; reflexivity. Qed.

(** C8, as the code has it: after normalisation a money column holds in
    every record the number its input cell carried (0 when it carried
    none); the sign is kept, so the value is non-negative exactly when
    the input number was: nothing clamps a negative amount. *)
Theorem money_sign_kept (pn : string -> option Qc) (pd : string -> option Z)
    (dfs dfs' : gmap string DataFrame) (t c : string) (df : DataFrame) :
  DataAnalytics.etl_process pn pd dfs = Ok dfs' \/ GenerateReport.clean pn dfs = Ok dfs' ->
  (t, c) ∈ money_columns ->
  dfs !! t = Some df ->
  exists df', dfs' !! t = Some df'
    /\ Forall2 (fun r r' : Row =>
                  exists q, cell c r' = VNum q
                    /\ (forall x, cell c r = VNum x -> q = x)
                    /\ (forall s x, cell c r = VStr s -> pn s = Some x -> q = x)
                    /\ (no_number pn (cell c r) -> q = 0))
               (rows df) (rows df').
Proof.
  intros H Hin Ht. destruct (money_cells pn pd dfs dfs' t c df H Hin Ht) as (df' & Hdf' & Hc & Hr).
  exists df'. split; [done|].
  eapply Forall2_impl; [exact Hr|]. simpl. intros r r' ->.
  destruct (clean_cell_number pn (cell c r)) as [q Hq]. exists q. split; [done|].
  repeat split.
  - intros x Hx. rewrite Hx in Hq. by injection Hq.
  - intros s x Hs Hx. rewrite Hs in Hq. unfold clean_cell in Hq. simpl in Hq.
    rewrite Hx in Hq. by injection Hq.
  - intros Hn. apply (clean_cell_no_number pn) in Hn. rewrite Hn in Hq. by injection Hq.
Qed.

Lemma money_sign_kept_witness :
  exists df', Samples.overdrawn_normalized !! "projects" = Some df'
    /\ Forall2 (fun r r' : Row =>
                  exists q, cell "budget_aed" r' = VNum q
                    /\ (forall x, cell "budget_aed" r = VNum x -> q = x)
                    /\ (forall s x, cell "budget_aed" r = VStr s
                                    -> Samples.parse_numeric s = Some x -> q = x)
                    /\ (no_number Samples.parse_numeric (cell "budget_aed" r) -> q = 0))
               (rows Samples.overdrawn_projects) (rows df').
Proof.
  apply (money_sign_kept Samples.parse_numeric Samples.parse_datetime Samples.overdrawn
           Samples.overdrawn_normalized "projects" "budget_aed" Samples.overdrawn_projects).
  - left. vm_compute. reflexivity.
  - compute_done.
  - vm_compute. reflexivity.
Defined.

(** C8 as stated fails: a negative budget, written as a number or as
    text, is still negative after normalisation. *)
Lemma negative_budget_survives :
  Samples.column_of Samples.overdrawn "projects" "budget_aed"
    = Some [Samples.n (-5); VStr "-7"]
  /\ DataAnalytics.etl_process Samples.parse_numeric Samples.parse_datetime Samples.overdrawn
     = Ok Samples.overdrawn_normalized
  /\ Samples.column_of Samples.overdrawn_normalized "projects" "budget_aed"
     = Some [VNum (Qc_of_Z (-5)); VNum (Qc_of_Z (-7))]
  /\ Samples.column_of
       (Samples.or_empty (GenerateReport.clean Samples.parse_numeric Samples.overdrawn))
       "projects" "budget_aed"
     = Some [VNum (Qc_of_Z (-5)); VNum (Qc_of_Z (-7))]
  /\ Qc_of_Z (-5) < 0 /\ Qc_of_Z (-7) < 0.
Proof. repeat split; vm_compute; reflexivity. Qed.

(** ** Missing files and tables *)

Lemma no_fault_bind {A B} (m : result A) (f : A -> result B) :
  table_fault m = false -> (forall a, table_fault (f a) = false) -> table_fault (bind m f) = false.
Proof. destruct m as [a|e]; simpl; [auto | by destruct e]. Qed.

Lemma no_fault_mapM {A B} (f : A -> result B) (l : list A) :
  (forall x, table_fault (f x) = false) -> table_fault (mapM f l) = false.
Proof.
  intros Hf. induction l as [|x l IH]; simpl; [done|].
  apply no_fault_bind; [done|]. intros y. apply no_fault_bind; [done|]. done.
Qed.

Lemma no_fault_if {A} (b : bool) (x y : result A) :
  table_fault x = false -> table_fault y = false -> table_fault (if b then x else y) = false.
Proof. by destruct b. Qed.

Create HintDb fault.
#[local] Hint Resolve no_fault_bind no_fault_mapM no_fault_if : fault.

Lemma no_fault_as_float v : table_fault (as_float v) = false.
Proof. by destruct v. Qed.
#[local] Hint Resolve no_fault_as_float : fault.

Lemma no_fault_floats c rs : table_fault (floats c rs) = false.
Proof. unfold floats. auto with fault. Qed.
#[local] Hint Resolve no_fault_floats : fault.

Lemma no_fault_getitem df c : table_fault (getitem df c) = false.
Proof. unfold getitem. by destruct (has_column df c). Qed.

Lemma no_fault_groupby df k : table_fault (groupby df k) = false.
Proof. unfold groupby. by destruct (has_column df k). Qed.
#[local] Hint Resolve no_fault_getitem no_fault_groupby : fault.

Lemma no_fault_groupby_sum df k v : table_fault (groupby_sum df k v) = false.
Proof. unfold groupby_sum. auto 10 with fault. Qed.

Lemma no_fault_groupby_mean df k v : table_fault (groupby_mean df k v) = false.
Proof. unfold groupby_mean. auto 10 with fault. Qed.

Lemma no_fault_select_columns cs df : table_fault (select_columns cs df) = false.
Proof. unfold select_columns. by destruct (List.find _ cs). Qed.

Lemma no_fault_merge h on l r : table_fault (merge h on l r) = false.
Proof. unfold merge. by repeat case_match. Qed.

Lemma no_fault_lift2 op a b : table_fault (lift2 op a b) = false.
Proof. unfold lift2. auto 10 with fault. Qed.
#[local] Hint Resolve no_fault_groupby_sum no_fault_groupby_mean no_fault_select_columns
  no_fault_merge no_fault_lift2 : fault.

Lemma no_fault_col_op op a b df r : table_fault (col_op op a b df r) = false.
Proof. unfold col_op. auto 10 with fault. Qed.
#[local] Hint Resolve no_fault_col_op : fault.

Lemma no_fault_assignM c f df :
  (forall r, table_fault (f r) = false) -> table_fault (assignM c f df) = false.
Proof. intros Hf. unfold assignM. auto 10 with fault. Qed.

Lemma no_fault_sort_values argsort c asc df : table_fault (sort_values argsort c asc df) = false.
Proof. unfold sort_values. auto 10 with fault. Qed.
#[local] Hint Resolve no_fault_assignM no_fault_sort_values : fault.

Lemma no_fault_top_n argsort n c asc df : table_fault (top_n argsort n c asc df) = false.
Proof. unfold top_n. auto 10 with fault. Qed.
#[local] Hint Resolve no_fault_top_n : fault.

Lemma no_fault_table dfs names n :
  DataAnalytics.present dfs names = true -> n ∈ names ->
  table_fault (DataAnalytics.table dfs n) = false.
Proof.
  unfold DataAnalytics.present, DataAnalytics.table. rewrite forallb_forall.
  intros H Hn. apply list_elem_of_In, H, bool_decide_eq_true in Hn as [df ->]. done.
Qed.

#[local] Hint Extern 1 (table_fault (DataAnalytics.table _ _) = false) =>
  eapply no_fault_table; [eassumption | compute_done] : fault.

Lemma no_fault_utilization_by_status fin util :
  table_fault (DataAnalytics.utilization_by_status fin util) = false.
Proof. unfold DataAnalytics.utilization_by_status. by destruct (has_column fin "status"). Qed.
#[local] Hint Resolve no_fault_utilization_by_status : fault.

Lemma no_fault_project_financial_health argsort dfs :
  table_fault (DataAnalytics.project_financial_health argsort dfs) = false.
Proof.
  unfold DataAnalytics.project_financial_health, DataAnalytics.fin_df.
  destruct (DataAnalytics.present dfs _) eqn:Hp; [|done].
  auto 30 with fault.
Qed.

Lemma no_fault_client_analysis argsort dfs :
  table_fault (DataAnalytics.client_analysis argsort dfs) = false.
Proof.
  unfold DataAnalytics.client_analysis.
  destruct (DataAnalytics.present dfs _) eqn:Hp; [|done]. auto 30 with fault.
Qed.

Lemma no_fault_resource_analysis argsort dfs :
  table_fault (DataAnalytics.resource_analysis argsort dfs) = false.
Proof.
  unfold DataAnalytics.resource_analysis.
  destruct (DataAnalytics.present dfs _) eqn:Hp; [|done]. auto 30 with fault.
Qed.

Lemma no_fault_risk_analysis argsort dfs :
  table_fault (DataAnalytics.risk_analysis argsort dfs) = false.
Proof.
  unfold DataAnalytics.risk_analysis.
  destruct (DataAnalytics.present dfs _) eqn:Hp; [|done]. auto 30 with fault.
Qed.

Lemma no_fault_vendor_analysis argsort dfs :
  table_fault (DataAnalytics.vendor_analysis argsort dfs) = false.
Proof.
  unfold DataAnalytics.vendor_analysis.
  destruct (DataAnalytics.present dfs _) eqn:Hp; [|done]. auto 30 with fault.
Qed.

Lemma no_fault_task_distribution argsort dfs :
  table_fault (DataAnalytics.task_distribution argsort dfs) = false.
Proof.
  unfold DataAnalytics.task_distribution.
  destruct (DataAnalytics.present dfs _) eqn:Hp; [|done]. auto 30 with fault.
Qed.

Lemma no_fault_billable_hours dfs :
  table_fault (DataAnalytics.billable_hours dfs) = false.
Proof.
  unfold DataAnalytics.billable_hours.
  destruct (DataAnalytics.present dfs _) eqn:Hp; [|done]. auto 30 with fault.
Qed.

#[local] Hint Resolve no_fault_project_financial_health no_fault_client_analysis
  no_fault_resource_analysis no_fault_risk_analysis no_fault_vendor_analysis
  no_fault_task_distribution no_fault_billable_hours : fault.

Lemma no_fault_perform_eda argsort dfs :
  table_fault (DataAnalytics.perform_eda argsort dfs) = false.
Proof. unfold DataAnalytics.perform_eda. cbv zeta. auto 30 with fault. Qed.

Lemma no_fault_transform c g df : table_fault (transform c g df) = false.
Proof. unfold transform. by destruct (has_column df c). Qed.
#[local] Hint Resolve no_fault_transform : fault.

Lemma no_fault_on_table n f dfs :
  (forall df, table_fault (f df) = false) -> table_fault (DataAnalytics.on_table n f dfs) = false.
Proof.
  intros Hf. unfold DataAnalytics.on_table. destruct (dfs !! n); [|done]. auto with fault.
Qed.
#[local] Hint Resolve no_fault_on_table : fault.

Lemma no_fault_etl_process pn pd dfs :
  table_fault (DataAnalytics.etl_process pn pd dfs) = false.
Proof.
  unfold DataAnalytics.etl_process, DataAnalytics.numeric. auto 30 with fault.
Qed.

Lemma no_fault_main pn pd argsort disk :
  table_fault (DataAnalytics.main pn pd argsort disk).2 = false.
Proof.
  unfold DataAnalytics.main. cbn [snd]. apply no_fault_bind; [apply no_fault_etl_process|].
  intros a. apply no_fault_bind; [apply no_fault_perform_eda | done].
Qed.

Lemma block_skipped argsort dfs names body :
  (names, body) ∈ eda_blocks argsort ->
  DataAnalytics.present dfs names = false -> body dfs = Ok [].
Proof.
  unfold eda_blocks, eda_layout. cbn [fmap list_fmap snd concat app]. intros Hin Hp.
  repeat (apply elem_of_cons in Hin as [[= -> ->]|Hin]);
    [ unfold DataAnalytics.project_financial_health
    | unfold DataAnalytics.client_analysis
    | unfold DataAnalytics.resource_analysis
    | unfold DataAnalytics.risk_analysis
    | unfold DataAnalytics.vendor_analysis
    | unfold DataAnalytics.task_distribution
    | unfold DataAnalytics.billable_hours
    | by apply elem_of_nil in Hin ]; by rewrite Hp.
Qed.

Lemma load_steps disk (l : list (string * string)) (m : gmap string DataFrame) out :
  (foldl (DataAnalytics.load_step disk) (m, out) l).2
  = out ++ ((fun f : string * string =>
               match disk !! f.2 with
               | Some df => DataAnalytics.Loaded f.1 (len df, length (columns df))
               | None => DataAnalytics.NotFound f.2
               end) <$> l).
Proof.
  revert m out. induction l as [|f l IH]; intros m out; simpl; [by rewrite app_nil_r|].
  unfold DataAnalytics.load_step at 2. destruct (disk !! f.2); simpl; rewrite IH;
    by rewrite <- app_assoc.
Qed.

Lemma load_steps_lookup disk (l : list (string * string)) (m : gmap string DataFrame) out name file :
  NoDup l.*1 -> (name, file) ∈ l ->
  (foldl (DataAnalytics.load_step disk) (m, out) l).1 !! name
  = match disk !! file with Some df => Some df | None => m !! name end.
Proof.
  revert m out. induction l as [|[n f] l IH]; intros m out Hnd Hin; [by apply elem_of_nil in Hin|].
  rewrite fmap_cons in Hnd. apply NoDup_cons in Hnd as [Hn Hnd]. simpl in Hn.
  simpl. apply elem_of_cons in Hin as [[= <- <-]|Hin].
  - assert (Hkeep : forall m' out', (foldl (DataAnalytics.load_step disk) (m', out') l).1 !! name = m' !! name).
    { clear -Hn. induction l as [|[n' f'] l IH]; intros m' out'; simpl; [done|].
      rewrite fmap_cons, not_elem_of_cons in Hn. destruct Hn as [Hne Hn]. simpl in Hne.
      unfold DataAnalytics.load_step at 2. simpl. destruct (disk !! f'); simpl; rewrite IH by done;
        [by rewrite lookup_insert_ne|done]. }
    unfold DataAnalytics.load_step at 2. simpl. destruct (disk !! file); simpl; rewrite Hkeep;
      [by rewrite lookup_insert_eq|done].
  - unfold DataAnalytics.load_step at 2. simpl.
    assert (n <> name).
    { intros ->. apply Hn. apply list_elem_of_fmap. by exists (name, file). }
    destruct (disk !! f); simpl; rewrite (IH _ _ Hnd Hin); [|done].
    by rewrite lookup_insert_ne.
Qed.

Lemma read_all_missing disk (l : list (string * string)) data name file :
  (name, file) ∈ l -> disk !! file = None ->
  exists f, App.read_all disk l data = Err (FileNotFoundError f).
Proof.
  revert data. induction l as [|[n f] l IH]; intros data Hin Hf; [by apply elem_of_nil in Hin|].
  simpl. apply elem_of_cons in Hin as [[= <- <-]|Hin].
  - rewrite Hf. eauto.
  - destruct (disk !! f); [by apply IH | eauto].
Qed.

Lemma elem_of_concat {A} (x : A) (l : list A) (ls : list (list A)) :
  x ∈ l -> l ∈ ls -> x ∈ concat ls.
Proof.
  intros Hx. induction ls as [|l' ls IH]; intros Hl; [by apply elem_of_nil in Hl|].
  simpl. apply elem_of_app. apply elem_of_cons in Hl as [<-|Hl]; [by left | right; by apply IH].
Qed.

Lemma perform_eda_layout argsort dfs :
  DataAnalytics.perform_eda argsort dfs
  = let* ss := mapM (section_output dfs) (eda_layout argsort) in
    Ok (DataAnalytics.PLine "Starting EDA Process..." :: concat ss).
Proof.
  unfold DataAnalytics.perform_eda, eda_layout, section_output.
  cbn [mapM bind fst snd]. cbv zeta.
  generalize (DataAnalytics.project_financial_health argsort dfs)
             (DataAnalytics.client_analysis argsort dfs)
             (DataAnalytics.resource_analysis argsort dfs)
             (DataAnalytics.risk_analysis argsort dfs)
             (DataAnalytics.vendor_analysis argsort dfs)
             (DataAnalytics.task_distribution argsort dfs)
             (DataAnalytics.billable_hours dfs).
  intros [p1|e] r2 r3 r4 r5 r6 r7; simpl; [|done].
  destruct r2 as [p2|e]; simpl; [|done]. destruct r3 as [p3|e]; simpl; [|done].
  destruct r4 as [p4|e]; simpl; [|done]. destruct r5 as [p5|e]; simpl; [|done].
  destruct r6 as [p6|e]; simpl; [|done]. destruct r7 as [p7|e]; simpl; [|done].
  rewrite !app_nil_r. repeat (rewrite <- !app_assoc; simpl). reflexivity.
Qed.

Lemma concat_empties {A B} (l : list A) : concat ((fun _ => @nil B) <$> l) = [].
Proof. induction l as [|x l IH]; [done | by simpl]. Qed.

Lemma blocks_skipped argsort dfs (bs : list block) :
  (forall b, b ∈ bs -> b ∈ eda_blocks argsort) ->
  Forall (fun b : block => DataAnalytics.present dfs b.1 = false) bs ->
  mapM (fun b : block => b.2 dfs) bs = Ok ((fun _ => []) <$> bs).
Proof.
  intros Hsub Hall. induction Hall as [|[names body] bs Hb _ IH]; [done|].
  simpl. rewrite (block_skipped argsort dfs names body); [|apply Hsub; left|done].
  simpl. rewrite IH; [done|]. intros b' Hb'. apply Hsub. by right.
Qed.

Lemma section_output_skipped argsort dfs hb :
  hb ∈ eda_layout argsort ->
  Forall (fun b : block => DataAnalytics.present dfs b.1 = false) hb.2 ->
  section_output dfs hb = Ok [DataAnalytics.PLine hb.1].
Proof.
  intros Hin Hall. unfold section_output.
  rewrite (blocks_skipped argsort dfs hb.2); [|intros b Hb|done].
  - simpl. by rewrite concat_empties.
  - unfold eda_blocks. apply (elem_of_concat b hb.2); [done|].
    apply list_elem_of_fmap. by exists hb.
Qed.

(** C2, as the code has it: on the EDA path, whichever files are on
    disk, loading puts every file that is there under its table name,
    reports every file that is not, and goes on; the ETL leaves a missing
    table missing and no step of the run ends on a missing file or a
    missing table.  [perform_eda] prints its progress line and, for each
    of its six sections, the header and then what the guarded blocks of
    the section print; a block whose tables are not all there prints
    nothing, so a section that is skipped leaves its header alone, and
    with no block to run the output is the progress line and the six
    headers.  [main] prints the two progress lines of the ETL in front.
    The dashboard instead needs every file: its loader stops at the first
    one that is not there. *)
Theorem eda_tolerates_missing_tables (pn : string -> option Qc) (pd : string -> option Z)
    (argsort : list Qc -> list nat) (disk : gmap string DataFrame) :
  (forall name file, (name, file) ∈ DataAnalytics.files ->
     (DataAnalytics.load_data disk).1 !! name = disk !! file
     /\ (DataAnalytics.NotFound file ∈ (DataAnalytics.load_data disk).2 <-> disk !! file = None))
  /\ table_fault (DataAnalytics.main pn pd argsort disk).2 = false
  /\ (forall dfs, table_fault (DataAnalytics.etl_process pn pd dfs) = false
                  /\ table_fault (DataAnalytics.perform_eda argsort dfs) = false)
  /\ (forall dfs dfs' t, DataAnalytics.etl_process pn pd dfs = Ok dfs' ->
                         dfs !! t = None -> dfs' !! t = None)
  /\ (forall dfs names body, (names, body) ∈ eda_blocks argsort ->
        DataAnalytics.present dfs names = false -> body dfs = Ok [])
  /\ (forall dfs,
        DataAnalytics.perform_eda argsort dfs
        = let* ss := mapM (section_output dfs) (eda_layout argsort) in
          Ok (DataAnalytics.PLine "Starting EDA Process..." :: concat ss))
  /\ (forall dfs hb, hb ∈ eda_layout argsort ->
        Forall (fun b : block => DataAnalytics.present dfs b.1 = false) hb.2 ->
        section_output dfs hb = Ok [DataAnalytics.PLine hb.1])
  /\ (forall dfs,
        Forall (fun b : block => DataAnalytics.present dfs b.1 = false) (eda_blocks argsort) ->
        DataAnalytics.perform_eda argsort dfs
        = Ok (DataAnalytics.PLine "Starting EDA Process..."
              :: ((fun hb : string * list block => DataAnalytics.PLine hb.1)
                    <$> eda_layout argsort)))
  /\ DataAnalytics.main pn pd argsort disk
     = ((DataAnalytics.load_data disk).2,
        let* dfs := DataAnalytics.etl_process pn pd (DataAnalytics.load_data disk).1 in
        let* p := DataAnalytics.perform_eda argsort dfs in
        Ok (DataAnalytics.PLine "Starting ETL Process..."
            :: DataAnalytics.PLine "ETL Process Completed." :: p))
  /\ (forall name file, (name, file) ∈ App.files -> disk !! file = None ->
        exists f, App.load_data pd disk = Err (FileNotFoundError f)).
Proof.
  split; [|split; [|split; [|split; [|split; [|split; [|split; [|split; [|split]]]]]]]].
  - intros name file Hin. unfold DataAnalytics.load_data. split.
    + rewrite (load_steps_lookup disk _ _ _ name file); [|compute_done|done].
      rewrite lookup_empty. by destruct (disk !! file).
    + rewrite load_steps, app_nil_l, list_elem_of_fmap. split.
      * intros ([n f] & Heq & _). simpl in Heq. destruct (disk !! f) eqn:E; [done|].
        by injection Heq as ->.
      * intros Hf. exists (name, file). simpl. by rewrite Hf.
  - apply no_fault_main.
  - intros dfs. split; [apply no_fault_etl_process | apply no_fault_perform_eda].
  - intros dfs dfs' t [_ Hl]%etl_process_iff Ht. by rewrite Hl, Ht.
  - apply block_skipped.
  - apply perform_eda_layout.
  - intros dfs hb. apply section_output_skipped.
  - intros dfs Hall. rewrite perform_eda_layout.
    assert (E : mapM (section_output dfs) (eda_layout argsort)
                = Ok ((fun hb : string * list block => [DataAnalytics.PLine hb.1])
                        <$> eda_layout argsort)).
    { assert (Hsub : forall hb, hb ∈ eda_layout argsort ->
                       section_output dfs hb = Ok [DataAnalytics.PLine hb.1]).
      { intros hb Hin. apply (section_output_skipped argsort); [done|].
        apply Forall_forall. intros b Hb. apply (proj1 (Forall_forall _ _) Hall).
        unfold eda_blocks. apply (elem_of_concat b hb.2); [done|].
        apply list_elem_of_fmap. by exists hb. }
      induction (eda_layout argsort) as [|hb l IH]; [done|].
      simpl. rewrite Hsub by left. simpl. rewrite IH; [done|].
      intros hb' Hin. apply Hsub. by right. }
    rewrite E. reflexivity.
  - reflexivity.
  - intros name file Hin Hf. unfold App.load_data.
    destruct (read_all_missing disk App.files ∅ name file Hin Hf) as [f ->]. eauto.
Qed.

(** C2 as stated fails off the EDA path: without [risks.csv] the
    dashboard's loader ends in [FileNotFoundError] and the batch report,
    whose loader passes over the file in silence, ends in a [KeyError] on
    the table, while the EDA script runs through. *)
Lemma dashboard_and_report_need_every_table :
  App.load_data Samples.parse_datetime Samples.disk_without_risks
    = Err (FileNotFoundError "risks.csv")
  /\ GenerateReport.main Samples.parse_numeric Samples.stable_argsort Samples.disk_without_risks
     = Err (MissingTable "risks")
  /\ bind (DataAnalytics.main Samples.parse_numeric Samples.parse_datetime
             Samples.stable_argsort Samples.disk_without_risks).2
          (fun printed => Ok (length printed)) = Ok 17%nat.
Proof. repeat split; vm_compute; reflexivity. Qed.

(** ** Group sums *)

Lemma floats_iff c rs xs :
  floats c rs = Ok xs <-> Forall (summable c) rs /\ xs = float_of c <$> rs.
Proof.
  unfold floats. rewrite mapM_Forall2. split.
  - induction 1 as [|r x rs xs Hr _ [IH1 IH2]]; [by split; [constructor|]|].
    split; [constructor; [by exists x|done]|].
    rewrite fmap_cons. unfold float_of at 1. rewrite Hr. by f_equal.
  - intros [HF ->]. induction HF as [|r rs [x Hx] _ IH]; [constructor|].
    rewrite fmap_cons. constructor; [|done]. unfold float_of. by rewrite Hx.
Qed.

Lemma series_sum_app xs ys : series_sum (xs ++ ys) = series_sum xs + series_sum ys.
Proof.
  unfold series_sum. induction xs as [|x xs IH]; simpl; [by rewrite Qcplus_0_l|].
  rewrite IH. by rewrite Qcplus_assoc.
Qed.

Lemma series_sum_perm xs ys : Permutation xs ys -> series_sum xs = series_sum ys.
Proof.
  unfold series_sum. induction 1 as [|x xs ys _ IH|x y xs|xs ys zs _ IH1 _ IH2]; simpl.
  - done.
  - by rewrite IH.
  - rewrite !Qcplus_assoc. f_equal. apply Qcplus_comm.
  - by rewrite IH1.
Qed.

Lemma group_insert_perm k r gs :
  Permutation (concat (snd <$> group_insert k r gs)) (concat (snd <$> gs) ++ [r]).
Proof.
  induction gs as [|[k' rs] gs IH]; simpl; [done|].
  case_bool_decide.
  - simpl. rewrite <- !app_assoc. apply Permutation_app_head. apply Permutation_app_comm.
  - destruct (value_ltb k k'); simpl.
    + rewrite (Permutation_app_comm _ [r]). done.
    + rewrite IH. by rewrite app_assoc.
Qed.

Lemma groups_perm_from key rs acc :
  Permutation
    (concat (snd <$> foldl (fun gs r => let k := cell key r in
                                         if isna k then gs else group_insert k r gs) acc rs))
    (concat (snd <$> acc) ++ List.filter (keyed key) rs).
Proof.
  revert acc. induction rs as [|r rs IH]; intros acc; simpl; [by rewrite app_nil_r|].
  rewrite IH. unfold keyed at 2. destruct (isna (cell key r)); simpl; [done|].
  rewrite group_insert_perm. rewrite <- app_assoc. done.
Qed.

Lemma groups_perm key rs :
  Permutation (concat (snd <$> groups key rs)) (List.filter (keyed key) rs).
Proof. unfold groups. by rewrite groups_perm_from. Qed.

Lemma series_sum_concat c (gs : list (value * list (Row))) :
  series_sum (float_of c <$> concat (snd <$> gs))
  = series_sum ((fun g : value * list (Row) =>
                   Some (series_sum (float_of c <$> g.2))) <$> gs).
Proof.
  induction gs as [|g gs IH]; [done|].
  rewrite !fmap_cons. cbn [concat]. rewrite fmap_app, series_sum_app, IH. done.
Qed.

Lemma group_sums_iff c (gs : list (value * list (Row))) out :
  mapM (fun g : value * list (Row) =>
          bind (floats c g.2) (fun xs => Ok (g.1, series_sum xs))) gs = Ok out
  <-> Forall (summable c) (concat (snd <$> gs))
      /\ out = (fun g : value * list (Row) =>
                  (g.1, series_sum (float_of c <$> g.2))) <$> gs.
Proof.
  revert out. induction gs as [|g gs IH]; intros out; simpl.
  - split; [intros [= <-]; by split; [constructor|] | by intros [_ ->]].
  - split.
    + intros (y & Hy & (ys & Hys & [= <-])%bind_Ok)%bind_Ok.
      apply bind_Ok in Hy as (xs & [H1 ->]%floats_iff & [= <-]).
      apply IH in Hys as [H2 ->]. by rewrite Forall_app.
    + rewrite Forall_app. intros [[H1 H2] ->].
      assert (floats c g.2 = Ok (float_of c <$> g.2)) as -> by (by apply floats_iff).
      simpl. erewrite (proj2 (IH _)); [done|]. by split.
Qed.

(** C9, as the code has it: for a group-sum over any table, the sum of
    the per-group sums equals the sum of the value column over the rows
    that carry a group key (a row whose key is absent belongs to no
    group); it is the sum over the whole table when every row carries a
    key.  The group-sum returns whenever that column sum does.  On the
    example of the specification A gets 15 and B gets 7, 22 in all. *)
Theorem group_sums_partition (df : DataFrame) (key val : string) :
  has_column df key = true ->
  (forall total, col_sum (select_rows (keyed key) df) val = Ok total ->
     exists gs, groupby_sum df key val = Ok gs
                /\ series_sum ((fun g : value * Qc => Some g.2) <$> gs) = total)
  /\ (forall gs, groupby_sum df key val = Ok gs ->
        col_sum (select_rows (keyed key) df) val
        = Ok (series_sum ((fun g : value * Qc => Some g.2) <$> gs)))
  /\ (Forall (fun r => isna (cell key r) = false) (rows df) ->
        select_rows (keyed key) df = df)
  /\ groupby_sum Samples.grouped "g" "v" = Ok [(VStr "A", Qc_of_Z 15); (VStr "B", Qc_of_Z 7)]
  /\ col_sum Samples.grouped "v" = Ok (Qc_of_Z 22).
Proof.
  intros Hk. cut (
    (forall total, col_sum (select_rows (keyed key) df) val = Ok total ->
       exists gs, groupby_sum df key val = Ok gs
                  /\ series_sum ((fun g : value * Qc => Some g.2) <$> gs) = total)
    /\ (forall gs, groupby_sum df key val = Ok gs ->
          col_sum (select_rows (keyed key) df) val
          = Ok (series_sum ((fun g : value * Qc => Some g.2) <$> gs)))
    /\ (Forall (fun r => isna (cell key r) = false) (rows df) ->
          select_rows (keyed key) df = df)).
  { intros (H1 & H2 & H3). repeat split; [exact H1 | exact H2 | exact H3 | compute_done..]. }
  unfold col_sum, groupby_sum, groupby. rewrite Hk. simpl.
  change (has_column (select_rows (keyed key) df) val) with (has_column df val).
  assert (Hsum : series_sum ((fun g : value * Qc => Some g.2)
                   <$> ((fun g : value * list (Row) =>
                           (g.1, series_sum (float_of val <$> g.2))) <$> groups key (rows df)))
                 = series_sum (float_of val <$> List.filter (keyed key) (rows df))).
  { rewrite <- list_fmap_compose. rewrite <- (series_sum_perm _ _ (fmap_Permutation _ _ _ (groups_perm key (rows df)))).
    by rewrite series_sum_concat. }
  split; [|split].
  - destruct (has_column df val); [|done].
    intros total (xs & [HF ->]%floats_iff & [= <-])%bind_Ok.
    eexists. split.
    + apply group_sums_iff. split; [|reflexivity]. by rewrite groups_perm.
    + done.
  - destruct (has_column df val); [|done].
    intros gs [HF ->]%group_sums_iff.
    assert (HF' : Forall (summable val) (List.filter (keyed key) (rows df))).
    { by rewrite <- groups_perm. }
    replace (floats val (List.filter (keyed key) (rows df)))
      with (Ok (float_of val <$> List.filter (keyed key) (rows df)) : result (list (option Qc))).
    + simpl. by rewrite Hsum.
    + symmetry. by apply floats_iff.
  - intros HF. clear Hsum Hk. destruct df as [cs rs]. unfold select_rows. simpl in *. f_equal.
    induction HF as [|r rs Hr _ IH]; simpl; [done|].
    unfold keyed at 1. rewrite Hr. simpl. by rewrite IH.
Qed.

Lemma group_sums_partition_witness :
  (forall total, col_sum (select_rows (keyed "g") Samples.grouped) "v" = Ok total ->
     exists gs, groupby_sum Samples.grouped "g" "v" = Ok gs
                /\ series_sum ((fun g : value * Qc => Some g.2) <$> gs) = total)
  /\ (forall gs, groupby_sum Samples.grouped "g" "v" = Ok gs ->
        col_sum (select_rows (keyed "g") Samples.grouped) "v"
        = Ok (series_sum ((fun g : value * Qc => Some g.2) <$> gs)))
  /\ (Forall (fun r => isna (cell "g" r) = false) (rows Samples.grouped) ->
        select_rows (keyed "g") Samples.grouped = Samples.grouped)
  /\ groupby_sum Samples.grouped "g" "v" = Ok [(VStr "A", Qc_of_Z 15); (VStr "B", Qc_of_Z 7)]
  /\ col_sum Samples.grouped "v" = Ok (Qc_of_Z 22).
Proof. apply (group_sums_partition Samples.grouped "g" "v"). vm_compute. reflexivity. Defined.

(** C9 as stated fails: a row without group key is in no group, so the
    group sums add up to less than the column.  It happens inside the
    programs: a project whose client is unknown has no industry after the
    left join and is missing from the budget by industry. *)
Lemma group_sums_miss_unkeyed_rows :
  groupby_sum Samples.unkeyed "g" "v" = Ok [(VStr "A", Qc_of_Z 5)]
  /\ col_sum Samples.unkeyed "v" = Ok (Qc_of_Z 15)
  /\ Qc_of_Z 5 <> Qc_of_Z 15
  /\ bind (merge Left "client_id" Samples.projects Samples.clients)
          (fun client_proj => groupby_sum client_proj "industry" "budget_aed")
     = Ok [(VStr "Government", Qc_of_Z 200); (VStr "Real Estate", Qc_of_Z 100)]
  /\ col_sum Samples.projects "budget_aed" = Ok (Qc_of_Z 600).
Proof. repeat split; compute_done. Qed.

(** ** Joins *)

(** C7 at an employee and a vendor that are not in their tables: the
    timesheets carry 6 hours of employee E9 and the purchase orders 40 of
    vendor V7; the two name joins of [perform_eda] give no [how] and are
    inner joins, so neither E9 nor V7 reaches the top-5 frames.  The
    joins of the same function that are given [how='left'] keep their
    unmatched rows (project P3 of unknown client C9 stays, with an absent
    industry), and the dashboard's chart of the same vendor totals keeps
    V7 under its id. *)
Lemma inner_joins_drop_unmatched :
  Samples.column_of Samples.normalized "timesheets" "employee_id"
    = Some [VStr "E1"; VStr "E9"; VStr "E1"]
  /\ Samples.column_of Samples.normalized "employees" "employee_id"
     = Some [VStr "E1"; VStr "E2"]
  /\ Samples.printed_column "Top 5 Employees by Logged Hours:" "employee_id"
       (DataAnalytics.resource_analysis Samples.stable_argsort Samples.normalized)
     = Some [VStr "E1"]
  /\ Samples.column_of Samples.normalized "purchase_orders" "vendor_id"
     = Some [VStr "V1"; VStr "V7"]
  /\ Samples.printed_column "Top 5 Vendors by Spend:" "vendor_id"
       (DataAnalytics.vendor_analysis Samples.stable_argsort Samples.normalized)
     = Some [VStr "V1"]
  /\ bind (merge Left "client_id" Samples.projects Samples.clients)
          (fun client_proj => Ok (cell "project_id" <$> rows client_proj,
                                  cell "industry" <$> rows client_proj))
     = Ok ([VStr "P1"; VStr "P2"; VStr "P3"],
           [VStr "Real Estate"; VStr "Government"; VNaN])
  /\ Samples.charted "Top Vendors by PO Value"
       (App.render Samples.stable_argsort Samples.month_label App.VendorAnalysis Samples.data)
     = Some [(VStr "V7", Qc_of_Z 40); (VStr "Gulf Steel", Qc_of_Z 10)].
Proof. repeat split; compute_done. Qed.

(** ** Sorting and top-n *)

Lemma gather_nil {A} (l : list A) : gather l [] = [].
Proof. done. Qed.

Lemma gather_cons {A} (l : list A) i p :
  gather l (i :: p) = match l !! i with Some x => x :: gather l p | None => gather l p end.
Proof. done. Qed.

Lemma gather_app {A} (l : list A) p q : gather l (p ++ q) = gather l p ++ gather l q.
Proof. apply omap_app. Qed.

Lemma gather_reverse {A} (l : list A) p : gather l (reverse p) = reverse (gather l p).
Proof.
  induction p as [|i p IH]; [done|].
  rewrite reverse_cons, gather_app, IH, !gather_cons, gather_nil.
  destruct (l !! i); simpl; [by rewrite reverse_cons | by rewrite app_nil_r].
Qed.

Lemma gather_seq_from {A} (l1 l2 : list A) :
  gather (l1 ++ l2) (seq (length l1) (length l2)) = l2.
Proof.
  revert l1. induction l2 as [|x l2 IH]; intros l1; [done|].
  simpl length. simpl seq. rewrite gather_cons, lookup_app_r by lia.
  rewrite Nat.sub_diag. simpl. f_equal.
  specialize (IH (l1 ++ [x])). rewrite <- app_assoc, length_app in IH. simpl in IH.
  rewrite Nat.add_1_r in IH. exact IH.
Qed.

Lemma gather_seq {A} (l : list A) : gather l (seq 0 (length l)) = l.
Proof. apply (gather_seq_from [] l). Qed.

Lemma gather_perm {A} (l : list A) p :
  Permutation p (seq 0 (length l)) -> Permutation (gather l p) l.
Proof.
  intros Hp. transitivity (gather l (seq 0 (length l))).
  - by apply omap_Permutation.
  - by rewrite gather_seq.
Qed.

Lemma gather_fmap {A B} (f : A -> B) (l : list A) p : gather (f <$> l) p = f <$> gather l p.
Proof.
  induction p as [|i p IH]; [done|]. rewrite !gather_cons, list_lookup_fmap.
  destruct (l !! i); simpl; by rewrite IH.
Qed.

Lemma filter_partition {A} (p : A -> bool) (l : list A) :
  Permutation (List.filter p l ++ List.filter (fun x => negb (p x)) l) l.
Proof.
  induction l as [|x l IH]; simpl; [done|].
  destruct (p x); simpl; [by rewrite IH|].
  rewrite <- Permutation_middle. by rewrite IH.
Qed.

Lemma numbers_fmap items (idx : list nat) :
  Forall (fun i => is_number items i = true) idx ->
  omap (fun i => mjoin (items !! i)) idx = number_at items <$> idx
  /\ gather items idx = Some <$> (number_at items <$> idx).
Proof.
  induction 1 as [|i idx Hi _ [IH1 IH2]]; [done|].
  unfold is_number in Hi. apply bool_decide_eq_true in Hi as [q Hq].
  assert (Hn : number_at items i = q) by (unfold number_at; by rewrite Hq).
  rewrite gather_cons, !fmap_cons. cbn [omap list_omap]. rewrite IH1, IH2, Hn, Hq.
  destruct (items !! i) as [[q'|]|] eqn:E; simpl in Hq; try done.
  by injection Hq as ->.
Qed.

Lemma nans_gather items (idx : list nat) :
  Forall (fun i => (i < length items)%nat /\ is_number items i = false) idx ->
  Forall (fun k => k = None) (gather items idx).
Proof.
  induction 1 as [|i idx [Hlt Hi] _ IH]; [constructor|].
  rewrite gather_cons. apply lookup_lt_is_Some in Hlt as [k Hk]. rewrite Hk.
  constructor; [|exact IH].
  unfold is_number in Hi. apply bool_decide_eq_false in Hi. rewrite Hk in Hi. simpl in Hi.
  destruct k; [|done]. exfalso. apply Hi. eauto.
Qed.

Section WithSort.
Variable argsort : list Qc -> list nat.
Hypothesis Hsort : argsort_spec argsort.

Lemma nargsort_unfold items asc :
  nargsort argsort items asc
  = (let non_nan_idx := List.filter (is_number items) (seq 0 (length items)) in
     let non_nan_idx := if asc then non_nan_idx else reverse non_nan_idx in
     let indexer := gather non_nan_idx (argsort (number_at items <$> non_nan_idx)) in
     (if asc then indexer else reverse indexer))
    ++ List.filter (fun i => negb (is_number items i)) (seq 0 (length items)).
Proof.
  unfold nargsort. cbv zeta. f_equal.
  assert (H : Forall (fun i => is_number items i = true)
                (if asc then List.filter (is_number items) (seq 0 (length items))
                 else reverse (List.filter (is_number items) (seq 0 (length items))))).
  { assert (H0 : Forall (fun i => is_number items i = true)
                   (List.filter (is_number items) (seq 0 (length items)))).
    { apply Forall_forall. intros i Hi. apply list_elem_of_In, filter_In in Hi. tauto. }
    destruct asc; [done|]. by apply Forall_reverse. }
  apply numbers_fmap in H as [H _]. fold (is_number items). by rewrite H.
Qed.

Lemma nargsort_perm items asc :
  Permutation (nargsort argsort items asc) (seq 0 (length items)).
Proof.
  rewrite nargsort_unfold. cbv zeta.
  set (A := if asc then List.filter _ _ else reverse (List.filter _ _)).
  assert (HA : Permutation A (List.filter (is_number items) (seq 0 (length items)))).
  { unfold A. destruct asc; [done|]. by rewrite reverse_Permutation. }
  assert (Hi : Permutation (gather A (argsort (number_at items <$> A))) A).
  { apply gather_perm. destruct (Hsort (number_at items <$> A)) as [Hp _].
    by rewrite length_fmap in Hp. }
  rewrite <- (filter_partition (is_number items) (seq 0 (length items))) at 2.
  apply Permutation_app; [|done].
  destruct asc; [by rewrite Hi | by rewrite reverse_Permutation, Hi].
Qed.

Lemma nargsort_in_order items asc :
  in_order asc (gather items (nargsort argsort items asc)).
Proof.
  rewrite nargsort_unfold. cbv zeta.
  set (A := if asc then List.filter _ _ else reverse (List.filter _ _)).
  assert (HA : Forall (fun i => is_number items i = true) A).
  { assert (H0 : Forall (fun i => is_number items i = true)
                   (List.filter (is_number items) (seq 0 (length items)))).
    { apply Forall_forall. intros i Hi. apply list_elem_of_In, filter_In in Hi. tauto. }
    unfold A. destruct asc; [done|]. by apply Forall_reverse. }
  destruct (Hsort (number_at items <$> A)) as [Hp Hs].
  set (p := argsort (number_at items <$> A)) in *.
  assert (HG : gather items (gather A p) = Some <$> gather (number_at items <$> A) p).
  { assert (Hsub : Forall (fun i => is_number items i = true) (gather A p)).
    { apply Forall_forall. intros i Hi. unfold gather in Hi.
      apply list_elem_of_omap in Hi as (j & _ & Hj).
      eapply Forall_forall in HA; [exact HA|]. by eapply list_elem_of_lookup_2. }
    apply numbers_fmap in Hsub as [_ ->]. by rewrite gather_fmap. }
  rewrite gather_app.
  exists (if asc then gather (number_at items <$> A) p
          else reverse (gather (number_at items <$> A) p)),
         (gather items (List.filter (fun i => negb (is_number items i)) (seq 0 (length items)))).
  split; [|split].
  - f_equal. destruct asc; [done|]. by rewrite gather_reverse, HG, fmap_reverse.
  - apply nans_gather. apply Forall_forall. intros i Hi.
    apply list_elem_of_In, filter_In in Hi as [Hi1 Hi2]. apply in_seq in Hi1.
    split; [lia|]. by apply negb_true_iff.
  - destruct asc; [done|]. by apply Sorted_reverse.
Qed.
End WithSort.

Lemma gather_inj {A} (l : list A) (p q : list nat) :
  NoDup l ->
  Forall (fun i => (i < length l)%nat) p -> Forall (fun i => (i < length l)%nat) q ->
  gather l p = gather l q -> p = q.
Proof.
  intros Hnd Hp. revert q. induction Hp as [|i p Hi _ IH]; intros q Hq Heq.
  - destruct Hq as [|j q Hj _]; [done|]. rewrite gather_cons in Heq.
    apply lookup_lt_is_Some in Hj as [y Hy]. by rewrite Hy in Heq.
  - apply lookup_lt_is_Some in Hi as [x Hx]. rewrite gather_cons, Hx in Heq.
    destruct Hq as [|j q Hj Hq]; [done|].
    apply lookup_lt_is_Some in Hj as [y Hy]. rewrite gather_cons, Hy in Heq.
    injection Heq as <- Heq. f_equal; [by eapply NoDup_lookup | by apply IH].
Qed.

Lemma perm_seq_bound (p : list nat) n :
  Permutation p (seq 0 n) -> Forall (fun i => (i < n)%nat) p.
Proof.
  intros Hp. apply Forall_forall. intros i Hi. rewrite Hp in Hi.
  apply list_elem_of_In, in_seq in Hi. lia.
Qed.

Lemma argsort_unique (a1 a2 : list Qc -> list nat) (xs : list Qc) :
  argsort_spec a1 -> argsort_spec a2 -> NoDup xs -> a1 xs = a2 xs.
Proof.
  intros H1 H2 Hnd. destruct (H1 xs) as [Hp1 Hs1], (H2 xs) as [Hp2 Hs2].
  apply (gather_inj xs); [done|by apply perm_seq_bound..|].
  apply (Sorted_unique Qcle); [done..|].
  by rewrite (gather_perm xs _ Hp1), (gather_perm xs _ Hp2).
Qed.

Lemma omap_filter_Some {A B} (f : A -> option B) (l : list A) :
  omap f (List.filter (fun x => bool_decide (is_Some (f x))) l) = omap f l.
Proof.
  induction l as [|x l IH]; [done|]. simpl. case_bool_decide as H.
  - cbn [omap list_omap]. destruct (f x); by rewrite IH.
  - rewrite IH. cbn [omap list_omap]. destruct (f x); [|done]. exfalso. apply H. eauto.
Qed.

Lemma omap_lookups (items : list (option Qc)) :
  omap (fun i => mjoin (items !! i)) (seq 0 (length items)) = omap id items.
Proof.
  transitivity (omap id (gather items (seq 0 (length items)))); [|by rewrite gather_seq].
  generalize (seq 0 (length items)). intros l.
  induction l as [|i l IH]; [done|].
  rewrite gather_cons. cbn [omap list_omap]. rewrite IH.
  destruct (items !! i) as [[q|]|]; done.
Qed.

Lemma nargsort_unique (a1 a2 : list Qc -> list nat) items asc :
  argsort_spec a1 -> argsort_spec a2 -> NoDup (omap id items) ->
  nargsort a1 items asc = nargsort a2 items asc.
Proof.
  intros H1 H2 Hnd. rewrite !nargsort_unfold. cbv zeta. f_equal.
  set (A := if asc then List.filter _ _ else reverse (List.filter _ _)).
  rewrite (argsort_unique a1 a2); [done..|].
  assert (HA : Forall (fun i => is_number items i = true) A).
  { assert (H0 : Forall (fun i => is_number items i = true)
                   (List.filter (is_number items) (seq 0 (length items)))).
    { apply Forall_forall. intros i Hi. apply list_elem_of_In, filter_In in Hi. tauto. }
    unfold A. destruct asc; [done|]. by apply Forall_reverse. }
  apply numbers_fmap in HA as [<- _].
  assert (H0 : omap (fun i => mjoin (items !! i))
                 (List.filter (is_number items) (seq 0 (length items))) = omap id items).
  { unfold is_number. rewrite (omap_filter_Some (fun i => mjoin (items !! i))).
    apply omap_lookups. }
  unfold A. destruct asc; [by rewrite H0|].
  assert (Hp : Permutation
                 (omap (fun i => mjoin (items !! i))
                    (reverse (List.filter (is_number items) (seq 0 (length items)))))
                 (omap (fun i => mjoin (items !! i))
                    (List.filter (is_number items) (seq 0 (length items)))))
    by apply omap_Permutation, reverse_Permutation.
  by rewrite Hp, H0.
Qed.

Lemma omap_id_fmap {A B} (f : A -> option B) (l : list A) : omap id (f <$> l) = omap f l.
Proof.
  induction l as [|x l IH]; [done|]. rewrite fmap_cons. cbn [omap list_omap].
  unfold id at 1. destruct (f x); by rewrite IH.
Qed.

Lemma floats_summable c rs :
  Forall (summable c) rs -> floats c rs = Ok (float_of c <$> rs).
Proof. intros H. by apply floats_iff. Qed.

(** The two sorts by insertion meet the contract of [argsort]. *)

Section Insertion.
Variable before : Qc -> Qc -> bool.
Hypothesis before_le : forall x y, before x y = true -> x <= y.
Hypothesis not_before_ge : forall x y, before x y = false -> y <= x.

Lemma insert_by_perm p l : Permutation (insert_by before p l) (p :: l).
Proof.
  induction l as [|q l IH]; simpl; [done|].
  destruct (before p.2 q.2); [done|]. rewrite IH. apply perm_swap.
Qed.

Lemma insert_by_HdRel q p l :
  HdRel key_le q l -> key_le q p -> HdRel key_le q (insert_by before p l).
Proof.
  intros Hl Hp. destruct l as [|r l]; simpl; [by constructor|].
  destruct (before p.2 r.2); constructor; [done|]. by inversion Hl.
Qed.

Lemma insert_by_sorted p l :
  Sorted key_le l -> Sorted key_le (insert_by before p l).
Proof.
  induction 1 as [|q l Hl IH Hq]; simpl; [by repeat constructor|].
  destruct (before p.2 q.2) eqn:E.
  - constructor; [by constructor|]. constructor. by apply before_le.
  - constructor; [done|]. apply insert_by_HdRel; [done|]. by apply not_before_ge.
Qed.

Lemma insertion_sorted (l acc : list (nat * Qc)) :
  Sorted key_le acc ->
  Sorted key_le (foldl (fun acc p => insert_by before p acc) acc l)
  /\ Permutation (foldl (fun acc p => insert_by before p acc) acc l) (l ++ acc).
Proof.
  revert acc. induction l as [|p l IH]; intros acc Hacc; simpl; [done|].
  destruct (IH (insert_by before p acc)) as [H1 H2]; [by apply insert_by_sorted|].
  split; [done|]. rewrite H2, insert_by_perm. by rewrite Permutation_middle.
Qed.

Lemma enumerate_lookup (l1 xs : list Qc) :
  Forall (fun p : nat * Qc => (l1 ++ xs) !! p.1 = Some p.2)
         (zip (seq (length l1) (length xs)) xs).
Proof.
  revert l1. induction xs as [|x xs IH]; intros l1; simpl; [constructor|].
  constructor.
  - simpl. rewrite lookup_app_r by lia. by rewrite Nat.sub_diag.
  - specialize (IH (l1 ++ [x])). rewrite <- app_assoc, length_app in IH. simpl in IH.
    by rewrite Nat.add_1_r in IH.
Qed.

Lemma gather_pairs (xs : list Qc) (ps : list (nat * Qc)) :
  Forall (fun p : nat * Qc => xs !! p.1 = Some p.2) ps -> gather xs ps.*1 = ps.*2.
Proof.
  induction 1 as [|p ps Hp _ IH]; [done|].
  rewrite !fmap_cons, gather_cons, Hp. by rewrite IH.
Qed.

Lemma sorted_keys (ps : list (nat * Qc)) : Sorted key_le ps -> Sorted Qcle ps.*2.
Proof.
  induction 1 as [|p ps _ IH Hp]; [constructor|].
  rewrite fmap_cons. constructor; [done|].
  destruct Hp as [|q ps Hq]; [constructor|]. rewrite fmap_cons. by constructor.
Qed.

Lemma argsort_by_spec : argsort_spec (argsort_by before).
Proof.
  intros xs. unfold argsort_by.
  destruct (insertion_sorted (zip (seq 0 (length xs)) xs) []) as [Hs Hp]; [constructor|].
  rewrite app_nil_r in Hp. split.
  - rewrite Hp. rewrite fst_zip; [done|]. by rewrite length_seq.
  - rewrite gather_pairs; [by apply sorted_keys|].
    rewrite Hp. apply (enumerate_lookup [] xs).
Qed.
End Insertion.

Lemma stable_argsort_spec : argsort_spec Samples.stable_argsort.
Proof.
  apply argsort_by_spec.
  - intros x y Hxy%bool_decide_eq_true. by apply Qclt_le_weak.
  - intros x y Hxy%bool_decide_eq_false. by apply Qcnot_lt_le.
Qed.

(** *** The stable sort keeps ties in row order *)

Lemma lex_trans a b c : lex a b -> lex b c -> lex a c.
Proof.
  unfold lex. intros [H1|[H1 H1']] [H2|[H2 H2']].
  - left. by eapply Qclt_trans.
  - left. by rewrite <- H2.
  - left. by rewrite H1.
  - right. split; [congruence|lia].
Qed.

Lemma insert_stable_Forall (p q : nat * Qc) l :
  lex q p -> Forall (lex q) l ->
  Forall (lex q) (insert_by (fun x y => bool_decide (x < y)) p l).
Proof.
  intros Hp Hl. rewrite insert_by_perm. by constructor.
Qed.

Lemma insert_stable_sorted (p : nat * Qc) l :
  Forall (fun q : nat * Qc => (q.1 < p.1)%nat) l ->
  StronglySorted lex l ->
  StronglySorted lex (insert_by (fun x y => bool_decide (x < y)) p l).
Proof.
  intros Hlt. induction 1 as [|q l Hl IH Hq]; simpl; [by repeat constructor|].
  apply Forall_cons in Hlt as [Hqp Hlt].
  case_bool_decide as E.
  - constructor; [by constructor|]. constructor; [by left|].
    eapply Forall_impl; [exact Hq|]. intros r Hr. eapply lex_trans; [|exact Hr]. by left.
  - constructor; [by apply IH|]. apply insert_stable_Forall; [|done].
    apply Qcnot_lt_le, Qcle_lt_or_eq in E as [E|E]; [by left|]. right. by split.
Qed.

Lemma insertion_stable (s : nat) (xs : list Qc) (acc : list (nat * Qc)) :
  Forall (fun q : nat * Qc => (q.1 < s)%nat) acc ->
  StronglySorted lex acc ->
  StronglySorted lex
    (foldl (fun acc p => insert_by (fun x y => bool_decide (x < y)) p acc) acc
       (zip (seq s (length xs)) xs)).
Proof.
  revert s acc. induction xs as [|x xs IH]; intros s acc Hlt Hs; simpl; [done|].
  apply IH; [|by apply insert_stable_sorted].
  rewrite insert_by_perm.
  constructor; [simpl; lia|]. eapply Forall_impl; [exact Hlt|]. simpl. intros; lia.
Qed.

Lemma StronglySorted_Forall {A} (R : A -> A -> Prop) (P : A -> Prop) l :
  StronglySorted R l -> Forall P l ->
  StronglySorted (fun a b => R a b /\ P a /\ P b) l.
Proof.
  induction 1 as [|a l Hl IH Ha]; intros HP; [constructor|].
  apply Forall_cons in HP as [Pa Pl]. constructor; [by apply IH|].
  rewrite Forall_forall in *. intros b Hb. auto.
Qed.

Lemma StronglySorted_weaken {A} (R1 R2 : A -> A -> Prop) l :
  (forall a b, R1 a b -> R2 a b) -> StronglySorted R1 l -> StronglySorted R2 l.
Proof.
  intros HR. induction 1 as [|a l Hl IH Ha]; constructor; [done|].
  eapply Forall_impl; [exact Ha|]. auto.
Qed.

Lemma mergesort_stable xs : StronglySorted (pos_before xs) (mergesort xs).
Proof.
  unfold mergesort, argsort_by.
  pose proof (insertion_stable 0 xs [] ltac:(constructor) ltac:(constructor)) as Hs.
  assert (Hv : Forall (fun p : nat * Qc => xs !! p.1 = Some p.2)
                 (foldl (fun acc p => insert_by (fun x y => bool_decide (x < y)) p acc) []
                    (zip (seq 0 (length xs)) xs))).
  { destruct (insertion_sorted (fun x y => bool_decide (x < y))
                (fun x y Hxy => Qclt_le_weak _ _ (proj1 (bool_decide_eq_true _) Hxy))
                (fun x y Hxy => Qcnot_lt_le _ _ (proj1 (bool_decide_eq_false _) Hxy))
                (zip (seq 0 (length xs)) xs) []) as [_ Hp]; [constructor|].
    rewrite app_nil_r in Hp. rewrite Hp. apply (enumerate_lookup [] xs). }
  apply (StronglySorted_fmap fst
           (fun a b : nat * Qc => lex a b /\ xs !! a.1 = Some a.2 /\ xs !! b.1 = Some b.2)
           (pos_before xs)); [|by apply StronglySorted_Forall].
  intros [ka x] [kb y] (Hl & Ha & Hb). simpl in *. by exists x, y.
Qed.

Lemma StronglySorted_gather {A} (R1 : nat -> nat -> Prop) (R2 : A -> A -> Prop)
    (l : list A) (p : list nat) :
  (forall ka kb i j, R1 ka kb -> l !! ka = Some i -> l !! kb = Some j -> R2 i j) ->
  StronglySorted R1 p -> StronglySorted R2 (gather l p).
Proof.
  intros HR. induction 1 as [|k p Hp IH Hk]; [constructor|].
  rewrite gather_cons. destruct (l !! k) as [i|] eqn:E; [|done].
  constructor; [done|]. apply Forall_forall. intros j Hj.
  apply list_elem_of_omap in Hj as (kb & Hkb & Hj).
  rewrite Forall_forall in Hk. eauto.
Qed.

Lemma StronglySorted_lookup {A} (R : A -> A -> Prop) l a b x y :
  StronglySorted R l -> (a < b)%nat -> l !! a = Some x -> l !! b = Some y -> R x y.
Proof.
  intros Hs. revert a b. induction Hs as [|z l Hl IH Hz]; intros a b Hab Ha Hb; [done|].
  destruct b as [|b]; [lia|]. simpl in Hb. destruct a as [|a].
  - simpl in Ha. injection Ha as ->. rewrite Forall_forall in Hz. apply Hz.
    by eapply list_elem_of_lookup_2.
  - simpl in Ha. apply (IH a b); [lia|done..].
Qed.

Lemma StronglySorted_filter {A} (R : A -> A -> Prop) (f : A -> bool) l :
  StronglySorted R l -> StronglySorted R (List.filter f l).
Proof.
  induction 1 as [|a l Hl IH Ha]; simpl; [constructor|].
  destruct (f a); [|done]. constructor; [done|].
  rewrite Forall_forall in *. intros b Hb. apply Ha.
  apply list_elem_of_In, filter_In in Hb as [Hb _]. by apply list_elem_of_In.
Qed.

Lemma StronglySorted_seq s n : StronglySorted lt (seq s n).
Proof.
  revert s. induction n as [|n IH]; intros s; simpl; constructor; [done|].
  apply Forall_forall. intros j Hj%list_elem_of_In%in_seq. lia.
Qed.

Lemma StronglySorted_reverse {A} (R : A -> A -> Prop) l :
  StronglySorted R l -> StronglySorted (flip R) (reverse l).
Proof.
  induction 1 as [|a l Hl IH Ha]; [constructor|].
  rewrite reverse_cons. apply StronglySorted_app_2; [|done|by repeat constructor].
  intros x y Hx Hy%list_elem_of_singleton. subst y.
  rewrite elem_of_reverse in Hx. rewrite Forall_forall in Ha. by apply Ha.
Qed.

Lemma is_number_at items i :
  is_number items i = true -> mjoin (items !! i) = Some (number_at items i).
Proof.
  unfold is_number, number_at. intros [x Hx]%bool_decide_eq_true. by rewrite Hx.
Qed.

Lemma not_number_at items i : negb (is_number items i) = true -> mjoin (items !! i) = None.
Proof.
  unfold is_number. intros H%negb_true_iff%bool_decide_eq_false.
  destruct (mjoin (items !! i)) eqn:E; [|done]. by destruct H.
Qed.

Lemma nargsort_stable items asc :
  StronglySorted (comes_first items asc) (nargsort mergesort items asc).
Proof.
  rewrite nargsort_unfold. cbv zeta.
  set (A := List.filter (is_number items) (seq 0 (length items))).
  assert (HA : StronglySorted lt A) by apply StronglySorted_filter, StronglySorted_seq.
  assert (HAn : forall k i, A !! k = Some i -> is_number items i = true).
  { intros k i Hi%list_elem_of_lookup_2. apply list_elem_of_In, filter_In in Hi. tauto. }
  apply StronglySorted_app_2.
  - intros i j Hi Hj. apply list_elem_of_In, filter_In in Hj as [_ Hj].
    assert (Hn : is_number items i = true).
    { assert (Hi' : i ∈ A); [|apply list_elem_of_In, filter_In in Hi'; tauto].
      destruct asc.
      + apply list_elem_of_omap in Hi as (k & _ & Hk). by eapply list_elem_of_lookup_2.
      + apply elem_of_reverse, list_elem_of_omap in Hi as (k & _ & Hk).
        apply elem_of_reverse. by eapply list_elem_of_lookup_2. }
    unfold comes_first. by rewrite (is_number_at _ _ Hn), (not_number_at _ _ Hj).
  - destruct asc.
    + eapply StronglySorted_gather; [|apply mergesort_stable].
      intros ka kb i j (x & y & Hx & Hy & Hl) Hi Hj.
      rewrite list_lookup_fmap, Hi in Hx. rewrite list_lookup_fmap, Hj in Hy.
      simpl in Hx, Hy. injection Hx as <-. injection Hy as <-.
      unfold comes_first.
      rewrite (is_number_at _ _ (HAn _ _ Hi)), (is_number_at _ _ (HAn _ _ Hj)).
      destruct Hl as [Hl|[Hl Hk]]; simpl in *; [by left|]. right. split; [done|].
      by apply (StronglySorted_lookup lt A ka kb).
    + apply (StronglySorted_weaken (flip (fun i j => comes_first items false j i)));
        [done|].
      apply StronglySorted_reverse.
      apply (StronglySorted_gather (pos_before (number_at items <$> reverse A)));
        [|apply mergesort_stable].
      * intros ka kb i j (x & y & Hx & Hy & Hl) Hi Hj.
        rewrite list_lookup_fmap, Hi in Hx. rewrite list_lookup_fmap, Hj in Hy.
        simpl in Hx, Hy. injection Hx as <-. injection Hy as <-.
        assert (Hni : is_number items i = true).
        { apply list_elem_of_lookup_2, elem_of_reverse, list_elem_of_In, filter_In in Hi. tauto. }
        assert (Hnj : is_number items j = true).
        { apply list_elem_of_lookup_2, elem_of_reverse, list_elem_of_In, filter_In in Hj. tauto. }
        unfold comes_first.
        rewrite (is_number_at _ _ Hnj), (is_number_at _ _ Hni).
        destruct Hl as [Hl|[Hl Hk]]; simpl in *; [by left|]. right. split; [done|].
        apply (StronglySorted_lookup (flip lt) (reverse A) ka kb); [|done..].
        by apply StronglySorted_reverse.
  - set (B := List.filter _ _).
    assert (HB : Forall (fun i => negb (is_number items i) = true) B).
    { apply Forall_forall. intros i Hi. apply list_elem_of_In, filter_In in Hi. tauto. }
    eapply StronglySorted_weaken;
      [|apply (StronglySorted_Forall lt); [apply StronglySorted_filter, StronglySorted_seq|exact HB]].
    intros i j (Hij & Hi & Hj). unfold comes_first.
    by rewrite (not_number_at _ _ Hi), (not_number_at _ _ Hj).
Qed.

(** What holds of a top-n selection whatever the sort: [sort_values(by)
    .head(n)] returns the first [n] rows of the table rearranged so that
    the sort column is in order, absent keys last.  The sort is the
    library's default kind, which the code never asks to be stable; how
    that sort orders rows whose keys tie is decided inside numpy and is
    not modelled.  When no two rows carry the same number the result does
    not depend on the sort at all; and with a stable sort the rows come
    by key and, among equal keys, in the order of the table.  [nlargest]
    is that stable selection when the table has more than [n] rows, and
    the default sort otherwise.  On the three rows X, Y, Z a stable sort
    returns X, Y, Z. *)
Lemma top_n_sorted_prefix (argsort : list Qc -> list nat) (n : nat) (by_ : string)
    (ascending : bool) (df : DataFrame) :
  argsort_spec argsort ->
  has_column df by_ = true ->
  Forall (summable by_) (rows df) ->
  exists sorted,
    top_n argsort n by_ ascending df = Ok {| columns := columns df; rows := head n sorted |}
    /\ Permutation sorted (rows df)
    /\ in_order ascending (float_of by_ <$> sorted)
    /\ (NoDup (omap (float_of by_) (rows df)) ->
        forall argsort', argsort_spec argsort' ->
          top_n argsort' n by_ ascending df = top_n argsort n by_ ascending df)
    /\ (exists order,
          top_n mergesort n by_ ascending df
          = Ok {| columns := columns df; rows := head n (gather (rows df) order) |}
          /\ Permutation order (seq 0 (len df))
          /\ StronglySorted (comes_first (float_of by_ <$> rows df) ascending) order)
    /\ ((n < len df)%nat -> nlargest argsort n by_ df = top_n mergesort n by_ false df)
    /\ ((len df <= n)%nat -> nlargest argsort n by_ df = top_n argsort n by_ false df)
    /\ bind (top_n Samples.stable_argsort 3 "v" false Samples.tied)
            (fun top => Ok (cell "name" <$> rows top))
       = Ok [VStr "X"; VStr "Y"; VStr "Z"]
    /\ bind (nlargest Samples.stable_argsort 2 "v" Samples.tied)
            (fun top => Ok (cell "name" <$> rows top))
       = Ok [VStr "X"; VStr "Y"].
Proof.
  intros Hs Hc Hf.
  assert (Htop : forall a,
            top_n a n by_ ascending df
            = Ok {| columns := columns df;
                    rows := head n (gather (rows df)
                                      (nargsort a (float_of by_ <$> rows df) ascending)) |}).
  { intros a. unfold top_n, sort_values. by rewrite Hc, (floats_summable by_ _ Hf). }
  exists (gather (rows df) (nargsort argsort (float_of by_ <$> rows df) ascending)).
  split; [apply Htop|]. split; [|split; [|split; [|split; [|split; [|split; [|split]]]]]].
  - apply gather_perm. rewrite <- (length_fmap (float_of by_)). by apply nargsort_perm.
  - rewrite <- gather_fmap. by apply nargsort_in_order.
  - intros Hnd a' Ha'. rewrite !Htop. rewrite (nargsort_unique a' argsort); [done..|].
    by rewrite omap_id_fmap.
  - exists (nargsort mergesort (float_of by_ <$> rows df) ascending).
    split; [apply Htop|]. split; [|apply nargsort_stable].
    unfold len. rewrite <- (length_fmap (float_of by_)). apply nargsort_perm.
    apply stable_argsort_spec.
  - intros Hn. unfold nlargest. by rewrite (proj2 (Nat.ltb_lt n (len df)) Hn).
  - intros Hn. unfold nlargest. by rewrite (proj2 (Nat.ltb_ge n (len df)) Hn).
  - compute_done.
  - compute_done.
Qed.

(** ** The financial-health pipeline on the scenario of the specification *)

(** With budgets 100, 200, 300 and expenses of 50, 250 and none, the
    pipeline of [perform_eda] (aggregate, left join, fill, derive) gives
    the actuals 50, 250, 0, the variances 50, -50, 300 and the
    utilisations 50, 125, 0 per cent. *)
Lemma financial_health_scenario :
  bind (DataAnalytics.fin_df Samples.scenario)
       (fun fu => Ok (cell "total_actuals" <$> rows fu.1,
                      cell "budget_variance" <$> rows fu.1,
                      fu.2))
  = Ok ([Samples.n 50; Samples.n 250; Samples.n 0],
        [Samples.n 50; Samples.n (-50); Samples.n 300],
        [FFin (Qc_of_Z 50); FFin (Qc_of_Z 125); FFin (Qc_of_Z 0)]).
Proof. compute_done. Qed.

(** ** Loading, [data_analytics.py] *)

Lemma load_steps_absent disk (l : list (string * string)) (m : gmap string DataFrame) out name :
  name ∉ l.*1 -> (foldl (DataAnalytics.load_step disk) (m, out) l).1 !! name = m !! name.
Proof.
  revert m out. induction l as [|f l IH]; intros m out Hn; simpl; [done|].
  rewrite fmap_cons, not_elem_of_cons in Hn. destruct Hn as [Hf Hn].
  unfold DataAnalytics.load_step at 2. destruct (disk !! f.2); simpl.
  - rewrite IH by done. by rewrite lookup_insert_ne.
  - by rewrite IH.
Qed.

(** X2: [load_data] of [data_analytics.py] prints one line for each of
    its eleven files, in the order of its list: the shape of the table
    when the file is there, a warning naming the file when it is not.  The
    mapping it returns holds a table under a name exactly when the file
    of that name exists, and the table is the content of that file. *)
Theorem load_data_reports_every_file (disk : gmap string DataFrame) :
  (DataAnalytics.load_data disk).2
  = (fun f : string * string =>
       match disk !! f.2 with
       | Some df => DataAnalytics.Loaded f.1 (len df, length (columns df))
       | None => DataAnalytics.NotFound f.2
       end) <$> DataAnalytics.files
  /\ (forall name df, (DataAnalytics.load_data disk).1 !! name = Some df <->
        exists file, (name, file) ∈ DataAnalytics.files /\ disk !! file = Some df).
Proof.
  split.
  - unfold DataAnalytics.load_data. by rewrite load_steps.
  - intros name df. unfold DataAnalytics.load_data.
    destruct (decide (name ∈ DataAnalytics.files.*1)) as [Hin|Hout].
    + apply list_elem_of_fmap in Hin as ([name' file] & -> & Hin).
      change ((name', file).1) with name'.
      rewrite (load_steps_lookup disk _ ∅ [] name' file); [|compute_done|done].
      rewrite lookup_empty. split.
      * intros H. exists file. split; [done|]. by destruct (disk !! file).
      * intros (file' & Hin' & Hd).
        assert (file' = file) as ->.
        { clear -Hin Hin'. unfold DataAnalytics.files in *.
          repeat (apply elem_of_cons in Hin as [Hin|Hin]; [injection Hin as -> ->|]);
          repeat (apply elem_of_cons in Hin' as [Hin'|Hin']; [by injection Hin' as ?|]);
          try (by apply elem_of_nil in Hin'); by apply elem_of_nil in Hin. }
        by rewrite Hd.
    + rewrite load_steps_absent by done. rewrite lookup_empty. split; [done|].
      intros (file & Hin & _). destruct Hout. apply list_elem_of_fmap. by exists (name, file).
Qed.

(** ** What the ETL leaves alone *)

Lemma updates_lookup_other l r c : c ∉ l.*1 -> updates l r !! c = r !! c.
Proof. apply updates_lookup_ne. Qed.

Lemma filter_fst_subseteq {A} (p : string * A -> bool) (l : list (string * A)) c :
  c ∈ (List.filter p l).*1 -> c ∈ l.*1.
Proof.
  intros ([c' a] & -> & Hin)%list_elem_of_fmap.
  apply list_elem_of_In, filter_In in Hin as [Hin _].
  apply list_elem_of_fmap. exists (c', a). split; [done|]. by apply list_elem_of_In.
Qed.

Lemma specs_fst pn pd t : (specs pn pd t).*1 = date_columns t ++ numeric_columns t.
Proof.
  unfold specs. rewrite fmap_app, <- !list_fmap_compose. simpl. by rewrite !list_fmap_id.
Qed.

(** X3: when [etl_process] returns, the mapping has the same table names
    as before, and every table has the labels and the number of rows it
    had; a cell outside the date and numeric columns listed for its table
    is the cell that was there. *)
Theorem etl_process_keeps_shape (pn : string -> option Qc) (pd : string -> option Z)
    (dfs dfs' : gmap string DataFrame) :
  DataAnalytics.etl_process pn pd dfs = Ok dfs' ->
  dom dfs' = dom dfs
  /\ forall t df, dfs !! t = Some df ->
       exists df', dfs' !! t = Some df'
         /\ columns df' = columns df
         /\ len df' = len df
         /\ Forall2 (fun r r' : Row =>
                       forall c, c ∉ date_columns t -> c ∉ numeric_columns t -> r' !! c = r !! c)
                    (rows df) (rows df').
Proof.
  intros [_ Hl]%etl_process_iff. split.
  - apply set_eq. intros t. rewrite !elem_of_dom, Hl. by rewrite fmap_is_Some.
  - intros t df Ht. exists (apply_specs (specs pn pd t) df).
    split; [by rewrite Hl, Ht|]. split; [apply apply_specs_columns|].
    rewrite rows_apply_specs. split; [unfold len; rewrite rows_apply_specs; apply length_fmap|].
    apply Forall2_fmap_r, Forall_Forall2_diag, Forall_forall. intros r _ c Hd Hn.
    apply updates_lookup_ne. intros Hc%filter_fst_subseteq.
    rewrite specs_fst, elem_of_app in Hc. tauto.
Qed.

(** The sample tables keep their names, labels and lengths through the
    normaliser, and their cells outside the converted columns. *)
Lemma etl_process_keeps_shape_witness :
  dom Samples.normalized = dom Samples.loaded
  /\ forall t df, Samples.loaded !! t = Some df ->
       exists df', Samples.normalized !! t = Some df'
         /\ columns df' = columns df
         /\ len df' = len df
         /\ Forall2 (fun r r' : Row =>
                       forall c, c ∉ date_columns t -> c ∉ numeric_columns t -> r' !! c = r !! c)
                    (rows df) (rows df').
Proof.
  apply (etl_process_keeps_shape Samples.parse_numeric Samples.parse_datetime
           Samples.loaded Samples.normalized).
  reflexivity.
Defined.

Lemma to_datetime_date pd v : to_datetime pd v = VNaT \/ exists t, to_datetime pd v = VDate t.
Proof.
  destruct v as [q|s| | |]; simpl; eauto; [destruct (nanoseconds q) | destruct (pd s)]; eauto.
Qed.

Lemma to_datetime_as_date pd v : as_date v (to_datetime pd v).
Proof.
  split; [apply to_datetime_date|]. split; [by intros d ->|]. by destruct v.
Qed.

Lemma fst_paired {A B} (g : B) (l : list A) : ((fun c => (c, g)) <$> l).*1 = l.
Proof. induction l as [|x l IH]; [done|]. rewrite !fmap_cons. simpl. by rewrite IH. Qed.

Lemma dates_converted pd (cols : list string) (df : DataFrame) :
  NoDup cols ->
  Forall2 (fun r r' : Row =>
             forall c,
               (c ∈ cols -> has_column df c = true -> as_date (cell c r) (cell c r'))
               /\ (c ∉ cols \/ has_column df c = false -> r' !! c = r !! c))
          (rows df) (rows (apply_specs ((fun c => (c, to_datetime pd)) <$> cols) df)).
Proof.
  intros Hnd. rewrite rows_apply_specs.
  apply Forall2_fmap_r, Forall_Forall2_diag, Forall_forall. intros r _ c.
  unfold compose. cbv beta. split.
  - intros Hc Hh. unfold cell at 2. erewrite updates_lookup.
    + apply to_datetime_as_date.
    + apply NoDup_fst_filter. by rewrite fst_paired.
    + apply list_elem_of_In, filter_In. split; [|done]. apply list_elem_of_In.
      apply list_elem_of_fmap. by exists c.
  - intros Hc. apply updates_lookup_ne. intros ([c' g] & -> & Hin)%list_elem_of_fmap.
    apply list_elem_of_In, filter_In in Hin as [Hin Hh]. simpl in *.
    apply list_elem_of_In, list_elem_of_fmap in Hin as (c0 & [= -> ->] & Hc0).
    destruct Hc as [Hc|Hc]; [done | congruence].
Qed.

(** X4: when [etl_process] returns, a date column listed for a table is
    converted if the table has it: whatever the column held and however
    its texts are read, every cell is then a date or NaT; a cell that was
    a date is that date, an absent cell is NaT.  A listed date column
    the table does not have is not created. *)
Theorem etl_process_dates (pn : string -> option Qc) (pd : string -> option Z)
    (dfs dfs' : gmap string DataFrame) (t c : string) (df : DataFrame) :
  DataAnalytics.etl_process pn pd dfs = Ok dfs' ->
  dfs !! t = Some df ->
  c ∈ date_columns t ->
  exists df', dfs' !! t = Some df'
    /\ has_column df' c = has_column df c
    /\ (has_column df c = true ->
        Forall2 (fun r r' : Row => as_date (cell c r) (cell c r')) (rows df) (rows df'))
    /\ (has_column df c = false ->
        Forall2 (fun r r' : Row => r' !! c = r !! c) (rows df) (rows df')).
Proof.
  intros [_ Hl]%etl_process_iff Ht Hc. exists (apply_specs (specs pn pd t) df).
  split; [by rewrite Hl, Ht|]. split; [apply has_column_apply_specs|].
  rewrite rows_apply_specs. split; intros Hh.
  - apply Forall2_fmap_r, Forall_Forall2_diag, Forall_forall. intros r _.
    assert (E : cell c (updates (List.filter (fun cg : string * (value -> value) =>
                                   has_column df cg.1) (specs pn pd t)) r)
                = to_datetime pd (cell c r)).
    { unfold cell at 1. erewrite updates_lookup; [done| |].
      - apply NoDup_fst_filter, specs_NoDup.
      - apply list_elem_of_In, filter_In. split; [|done]. apply list_elem_of_In.
        unfold specs. apply elem_of_app. left. apply list_elem_of_fmap. by exists c. }
    unfold compose. cbv beta. rewrite E. apply to_datetime_as_date.
  - apply Forall2_fmap_r, Forall_Forall2_diag, Forall_forall. intros r _.
    unfold compose. apply updates_lookup_ne. intros ([c' g] & -> & Hin)%list_elem_of_fmap.
    apply list_elem_of_In, filter_In in Hin as [_ Hin]. simpl in *. congruence.
Qed.

(** The start dates of the sample projects after the normaliser. *)
Lemma etl_process_dates_witness :
  exists df', Samples.normalized !! "projects" = Some df'
    /\ has_column df' "start_date" = has_column Samples.loaded_projects "start_date"
    /\ (has_column Samples.loaded_projects "start_date" = true ->
        Forall2 (fun r r' : Row => as_date (cell "start_date" r) (cell "start_date" r'))
                (rows Samples.loaded_projects) (rows df'))
    /\ (has_column Samples.loaded_projects "start_date" = false ->
        Forall2 (fun r r' : Row => r' !! "start_date" = r !! "start_date")
                (rows Samples.loaded_projects) (rows df')).
Proof.
  apply (etl_process_dates Samples.parse_numeric Samples.parse_datetime
           Samples.loaded Samples.normalized "projects" "start_date" Samples.loaded_projects).
  - reflexivity.
  - reflexivity.
  - compute_done.
Defined.

(** ** When the ETL raises *)

Lemma on_table_Err n f (d : gmap string DataFrame) e :
  DataAnalytics.on_table n f d = Err e -> exists df, d !! n = Some df /\ f df = Err e.
Proof.
  unfold DataAnalytics.on_table. destruct (d !! n) as [df|]; [|done].
  destruct (f df) eqn:E; [done|]. simpl. intros [= ->]. by exists df.
Qed.

Lemma numeric_Err pn c df e :
  DataAnalytics.numeric pn c df = Err e -> has_column df c = false /\ e = MissingColumn c.
Proof.
  unfold DataAnalytics.numeric, transform. destruct (has_column df c); [done|].
  by intros [= <-].
Qed.

Lemma numeric_Ok pn c df df' :
  DataAnalytics.numeric pn c df = Ok df' -> forall c', has_column df' c' = has_column df c'.
Proof.
  intros H c'. apply (numeric_rewrites pn c) in H as [_ ->]. apply has_column_apply_specs.
Qed.

(** X5: [etl_process] returns exactly when every table that is there
    has the numeric columns listed for it; it never fails on a missing
    table or a missing date column.  When it raises, it is a KeyError that
    names a numeric column missing from a table that is there. *)
Theorem etl_process_needs_numeric_columns (pn : string -> option Qc) (pd : string -> option Z)
    (dfs : gmap string DataFrame) :
  ((exists dfs', DataAnalytics.etl_process pn pd dfs = Ok dfs') <-> required dfs)
  /\ (forall e, DataAnalytics.etl_process pn pd dfs = Err e ->
        exists t df c, dfs !! t = Some df /\ c ∈ numeric_columns t
                       /\ has_column df c = false /\ e = MissingColumn c).
Proof.
  split.
  - split.
    + intros [dfs' H]. by apply etl_process_iff in H as [H _].
    + intros Hreq. exists (map_imap (fun t df => Some (apply_specs (specs pn pd t) df)) dfs).
      apply etl_process_iff. split; [done|]. intros t. rewrite map_lookup_imap.
      by destruct (dfs !! t).
  - intros e. unfold DataAnalytics.etl_process.
    set (d0 := foldl _ dfs DataAnalytics.date_cols).
    assert (H0 : forall t, d0 !! t
              = apply_specs ((fun c => (c, to_datetime pd)) <$> date_columns t) <$> dfs !! t).
    { intros t. unfold d0. rewrite date_loop_lookup by apply date_cols_NoDup.
      unfold date_columns. destruct (dfs !! t); simpl; [|done].
      by rewrite convert_dates_apply_specs. }
    clearbody d0.
    assert (Hstep : forall t (d : gmap string DataFrame) df c,
              (forall t', d !! t' = None \/ exists df0 df1, dfs !! t' = Some df0 /\ d !! t' = Some df1
                          /\ forall c', has_column df1 c' = has_column df0 c') ->
              d !! t = Some df -> has_column df c = false -> c ∈ numeric_columns t ->
              exists t df c', dfs !! t = Some df /\ c' ∈ numeric_columns t
                              /\ has_column df c' = false /\ MissingColumn c = MissingColumn c').
    { intros t d df c Hd Ht Hc Hin. destruct (Hd t) as [Hn|(df0 & df1 & E0 & E1 & Hcols)]; [congruence|].
      exists t, df0, c. rewrite Ht in E1. injection E1 as <-. by rewrite <- Hcols. }
    assert (Hinv0 : forall t', d0 !! t' = None \/ exists df0 df1, dfs !! t' = Some df0 /\ d0 !! t' = Some df1
                          /\ forall c', has_column df1 c' = has_column df0 c').
    { intros t'. rewrite H0. destruct (dfs !! t') as [df0|]; [|by left]. right.
      eexists _, _. split; [done|]. split; [done|]. intros c'. apply has_column_apply_specs. }
    assert (Hnext : forall n f (d d' : gmap string DataFrame),
              (forall df df', f df = Ok df' -> forall c', has_column df' c' = has_column df c') ->
              (forall t', d !! t' = None \/ exists df0 df1, dfs !! t' = Some df0 /\ d !! t' = Some df1
                          /\ forall c', has_column df1 c' = has_column df0 c') ->
              DataAnalytics.on_table n f d = Ok d' ->
              (forall t', d' !! t' = None \/ exists df0 df1, dfs !! t' = Some df0 /\ d' !! t' = Some df1
                          /\ forall c', has_column df1 c' = has_column df0 c')).
    { intros n f d d' Hf Hd. unfold DataAnalytics.on_table.
      destruct (d !! n) as [df|] eqn:En; [|by intros [= <-]].
      destruct (f df) as [df'|] eqn:Ef; [|done]. simpl. intros [= <-] t'.
      destruct (decide (t' = n)) as [->|Hne].
      - rewrite lookup_insert_eq. right.
        destruct (Hd n) as [Hn|(df0 & df1 & E0 & E1 & Hcols)]; [congruence|].
        exists df0, df'. split; [done|]. split; [done|]. intros c'.
        rewrite En in E1. injection E1 as <-. by rewrite (Hf _ _ Ef).
      - rewrite lookup_insert_ne by done. apply Hd. }
    destruct (DataAnalytics.on_table "projects" _ d0) as [d1|e1] eqn:E1; simpl.
    2:{ intros [= <-]. apply on_table_Err in E1 as (df & Hdf & Hf).
        destruct (DataAnalytics.numeric pn "budget_aed" df) as [df1|] eqn:Eb; simpl in Hf.
        - apply numeric_Err in Hf as [Hc ->].
          rewrite (numeric_Ok _ _ _ _ Eb) in Hc.
          eapply (Hstep "projects"); [exact Hinv0|done..|compute_done].
        - injection Hf as ->. apply numeric_Err in Eb as [Hc ->].
          eapply (Hstep "projects"); [exact Hinv0|done..|compute_done]. }
    assert (Hinv1 : forall t', d1 !! t' = None \/ exists df0 df1, dfs !! t' = Some df0
                       /\ d1 !! t' = Some df1
                       /\ forall c', has_column df1 c' = has_column df0 c').
    { eapply Hnext; [|exact Hinv0|exact E1].
      intros df df' H c'. apply bind_Ok in H as (df1 & Ha & Hb).
      by rewrite (numeric_Ok _ _ _ _ Hb), (numeric_Ok _ _ _ _ Ha). }
    destruct (DataAnalytics.on_table "expenses" _ d1) as [d2|e2] eqn:E2; simpl.
    2:{ intros [= <-]. apply on_table_Err in E2 as (df & Hdf & Hf).
        apply numeric_Err in Hf as [Hc ->].
        eapply (Hstep "expenses"); [exact Hinv1|done..|compute_done]. }
    assert (Hinv2 := Hnext _ _ _ _ (numeric_Ok pn "amount_aed") Hinv1 E2).
    destruct (DataAnalytics.on_table "purchase_orders" _ d2) as [d3|e3] eqn:E3; simpl.
    2:{ intros [= <-]. apply on_table_Err in E3 as (df & Hdf & Hf).
        apply numeric_Err in Hf as [Hc ->].
        eapply (Hstep "purchase_orders"); [exact Hinv2|done..|compute_done]. }
    assert (Hinv3 := Hnext _ _ _ _ (numeric_Ok pn "amount_aed") Hinv2 E3).
    intros E4. apply on_table_Err in E4 as (df & Hdf & Hf).
    apply numeric_Err in Hf as [Hc ->].
    eapply (Hstep "employees"); [exact Hinv3|done..|compute_done].
Qed.

(** ** Counting values *)

Lemma Qc_of_nat_S n : Qc_of_nat (S n) = Qc_of_nat n + 1.
Proof.
  unfold Qc_of_nat, Qc_of_Z. apply Qc_is_canon. simpl.
  rewrite Nat2Z.inj_succ. unfold Z.succ. rewrite inject_Z_plus.
  unfold Qcplus. rewrite !Qred_correct. reflexivity.
Qed.

Lemma Qc_of_nat_0 : Qc_of_nat 0 = 0.
Proof. by apply Qc_is_canon. Qed.

Lemma total_cons k q s : total ((k, q) :: s) = q + total s.
Proof. done. Qed.

Lemma count_add_total v acc : total (count_add v acc) = total acc + 1.
Proof.
  induction acc as [|[w n] acc IH]; simpl.
  - rewrite !total_cons. unfold total. simpl. ring.
  - case_bool_decide; rewrite !total_cons; [ring|]. rewrite IH. ring.
Qed.

Lemma count_add_keys v acc :
  (count_add v acc).*1 = if bool_decide (v ∈ acc.*1) then acc.*1 else acc.*1 ++ [v].
Proof.
  induction acc as [|[w n] acc IH]; [done|].
  cbn [count_add]. rewrite fmap_cons. cbn [fst].
  destruct (decide (v = w)) as [->|Hne].
  - rewrite !bool_decide_eq_true_2; [done| |done]. apply elem_of_cons. by left.
  - rewrite (bool_decide_eq_false_2 (v = w)) by done. rewrite fmap_cons, IH. cbn [fst].
    destruct (decide (v ∈ acc.*1)) as [Hin|Hout].
    + rewrite !bool_decide_eq_true_2; [done| |done]. apply elem_of_cons. by right.
    + rewrite !bool_decide_eq_false_2; [done| |done].
      intros [?|?]%elem_of_cons; done.
Qed.

Lemma count_add_NoDup v acc : NoDup acc.*1 -> NoDup (count_add v acc).*1.
Proof.
  intros H. rewrite count_add_keys. case_bool_decide; [done|].
  apply NoDup_app. split; [done|]. split; [|apply NoDup_singleton].
  intros x Hx Hv%list_elem_of_singleton. by subst.
Qed.

Lemma count_of_cons w u n acc :
  count_of w ((u, n) :: acc) = if bool_decide (u = w) then n else count_of w acc.
Proof. unfold count_of. simpl. by case_bool_decide. Qed.

Lemma count_of_add v w acc :
  count_of w (count_add v acc) = count_of w acc + (if bool_decide (v = w) then 1 else 0).
Proof.
  induction acc as [|[u n] acc IH].
  - cbn [count_add]. rewrite count_of_cons. unfold count_of. simpl.
    case_bool_decide; ring.
  - cbn [count_add]. destruct (decide (v = u)) as [->|Hne].
    + rewrite (bool_decide_eq_true_2 (u = u)) by done. rewrite !count_of_cons.
      case_bool_decide; [ring|]. ring.
    + rewrite (bool_decide_eq_false_2 (v = u)) by done. rewrite !count_of_cons.
      destruct (decide (u = w)) as [->|Hne'].
      * rewrite (bool_decide_eq_true_2 (w = w)) by done.
        rewrite (bool_decide_eq_false_2 (v = w)) by done. ring.
      * rewrite (bool_decide_eq_false_2 (u = w)) by done. apply IH.
Qed.

Lemma tally_from l acc :
  let out := foldl (fun acc v => if isna v then acc else count_add v acc) acc l in
  total out = total acc + Qc_of_nat (length (present_cells l))
  /\ (NoDup acc.*1 -> NoDup out.*1)
  /\ (forall w, isna w = false -> count_of w out = count_of w acc + Qc_of_nat (occurrences w l))
  /\ (forall w, w ∈ out.*1 <-> w ∈ acc.*1 \/ w ∈ present_cells l).
Proof.
  revert acc. induction l as [|v l IH]; intros acc; cbn zeta.
  - cbn [foldl]. unfold present_cells, occurrences. cbn [List.filter length].
    rewrite Qc_of_nat_0. split; [ring|].
    split; [done|]. split.
    + intros w _. ring.
    + intros w. rewrite elem_of_nil. tauto.
  - cbn [foldl]. destruct (isna v) eqn:Ev.
    + destruct (IH acc) as (H1 & H2 & H3 & H4). unfold present_cells. cbn [List.filter].
      rewrite Ev. cbn [negb]. split; [exact H1|]. split; [exact H2|]. split; [|exact H4].
      intros w Hw. rewrite H3 by done. unfold occurrences. cbn [List.filter].
      rewrite bool_decide_eq_false_2; [done|]. intros ->. congruence.
    + destruct (IH (count_add v acc)) as (H1 & H2 & H3 & H4).
      unfold present_cells. cbn [List.filter]. rewrite Ev. cbn [negb length].
      split; [|split; [|split]].
      * rewrite H1, count_add_total, Qc_of_nat_S. fold (present_cells l). ring.
      * intros Hn. by apply H2, count_add_NoDup.
      * intros w Hw. rewrite H3, count_of_add by done. unfold occurrences. cbn [List.filter].
        destruct (decide (v = w)) as [->|Hne].
        -- rewrite !bool_decide_eq_true_2 by done. cbn [length]. rewrite Qc_of_nat_S. ring.
        -- rewrite !bool_decide_eq_false_2 by done. ring.
      * intros w. rewrite H4, count_add_keys. fold (present_cells l).
        rewrite elem_of_cons. case_bool_decide as E.
        -- split; [tauto|]. intros [?|[->|?]]; tauto.
        -- rewrite elem_of_app, list_elem_of_singleton. tauto.
Qed.

Lemma count_of_elem (acc : list (value * Qc)) v q :
  NoDup acc.*1 -> (v, q) ∈ acc <-> v ∈ acc.*1 /\ count_of v acc = q.
Proof.
  induction acc as [|[u n] acc IH]; intros Hn.
  - rewrite fmap_nil, !elem_of_nil. tauto.
  - rewrite fmap_cons in Hn. apply NoDup_cons in Hn as [Hu Hn]. cbn [fst] in Hu.
    rewrite fmap_cons, !elem_of_cons, count_of_cons, (IH Hn). cbn [fst].
    destruct (decide (u = v)) as [->|Hne].
    + rewrite bool_decide_eq_true_2 by done. split.
      * intros [[= ->]|[Hv _]]; [by split; [left|]|done].
      * intros [_ ->]. by left.
    + rewrite bool_decide_eq_false_2 by done. split.
      * intros [[= -> ->]|[Hv Hq]]; [done|]. split; [by right|done].
      * intros [[->|Hv] Hq]; [done|]. by right.
Qed.

Lemma series_sort_values_perm {X} argsort (view : X -> option Qc) asc (s : list (value * X)) :
  argsort_spec argsort -> Permutation (series_sort_values argsort view asc s) s.
Proof.
  intros Hs. unfold series_sort_values. apply gather_perm.
  rewrite <- (length_fmap (fun kv : value * X => view kv.2) s). by apply nargsort_perm.
Qed.

Lemma series_sort_values_in_order {X} argsort (view : X -> option Qc) asc (s : list (value * X)) :
  argsort_spec argsort ->
  in_order asc ((fun kv : value * X => view kv.2) <$> series_sort_values argsort view asc s).
Proof.
  intros Hs. unfold series_sort_values. rewrite <- gather_fmap. by apply nargsort_in_order.
Qed.

Lemma value_counts_tally argsort l :
  value_counts argsort l = series_sort_values argsort Some false (tally l).
Proof. done. Qed.

Lemma total_perm s s' : Permutation s s' -> total s = total s'.
Proof. intros H. unfold total. apply series_sum_perm. by apply fmap_Permutation. Qed.

Lemma tally_spec l :
  total (tally l) = Qc_of_nat (length (present_cells l))
  /\ NoDup (tally l).*1
  /\ (forall v q, (v, q) ∈ tally l <-> v ∈ present_cells l /\ q = Qc_of_nat (occurrences v l)).
Proof.
  destruct (tally_from l []) as (H1 & H2 & H3 & H4). cbn zeta in *. fold (tally l) in *.
  split; [|split].
  - rewrite H1. unfold total. simpl. ring.
  - apply H2. constructor.
  - intros v q. rewrite count_of_elem by (apply H2; constructor). rewrite H4.
    rewrite fmap_nil, elem_of_nil. split.
    + intros [[[]|Hv] Hq]. split; [done|]. rewrite <- Hq, H3.
      * unfold count_of. simpl. ring.
      * apply list_elem_of_In, filter_In in Hv as [_ Hv]. by apply negb_true_iff.
    + intros [Hv ->]. split; [by right|]. rewrite H3.
      * unfold count_of. simpl. ring.
      * apply list_elem_of_In, filter_In in Hv as [_ Hv]. by apply negb_true_iff.
Qed.

Lemma value_counts_counted (argsort : list Qc -> list nat) (l : list value) :
  argsort_spec argsort ->
  total (value_counts argsort l) = Qc_of_nat (length (present_cells l))
  /\ NoDup (value_counts argsort l).*1
  /\ (forall v q, (v, q) ∈ value_counts argsort l <->
                  v ∈ present_cells l /\ q = Qc_of_nat (occurrences v l))
  /\ in_order false ((fun kv : value * Qc => Some kv.2) <$> value_counts argsort l).
Proof.
  intros Hs. rewrite value_counts_tally.
  pose proof (series_sort_values_perm argsort Some false (tally l) Hs) as Hp.
  destruct (tally_spec l) as (H1 & H2 & H3).
  split; [|split; [|split]].
  - by rewrite (total_perm _ _ Hp).
  - by rewrite Hp.
  - intros v q. by rewrite Hp.
  - by apply (series_sort_values_in_order argsort Some false).
Qed.

(** X10: [value_counts], as the three programs call it, under any
    correct sort: the result has one entry for each distinct value that is
    not absent, with the number of cells that hold it; no value comes
    twice, the counts are in descending order and add up to the number of
    cells that are not absent. *)
Theorem value_counts_partition (argsort : list Qc -> list nat) (l : list value) :
  argsort_spec argsort ->
  total (value_counts argsort l) = Qc_of_nat (length (present_cells l))
  /\ NoDup (value_counts argsort l).*1
  /\ (forall v q, (v, q) ∈ value_counts argsort l <->
                  v ∈ present_cells l /\ q = Qc_of_nat (occurrences v l))
  /\ in_order false ((fun kv : value * Qc => Some kv.2) <$> value_counts argsort l).
Proof. apply value_counts_counted. Qed.

(** The counts of the statuses of the sample tasks, under the stable
    sort. *)
Lemma value_counts_partition_witness :
  total (value_counts Samples.stable_argsort Samples.task_statuses)
  = Qc_of_nat (length (present_cells Samples.task_statuses))
  /\ NoDup (value_counts Samples.stable_argsort Samples.task_statuses).*1
  /\ (forall v q, (v, q) ∈ value_counts Samples.stable_argsort Samples.task_statuses <->
                  v ∈ present_cells Samples.task_statuses
                  /\ q = Qc_of_nat (occurrences v Samples.task_statuses))
  /\ in_order false ((fun kv : value * Qc => Some kv.2)
                       <$> value_counts Samples.stable_argsort Samples.task_statuses).
Proof.
  apply (value_counts_partition Samples.stable_argsort Samples.task_statuses).
  apply stable_argsort_spec.
Defined.

(** ** Percentages *)

Lemma Qc_of_nat_le n m : (n <= m)%nat -> Qc_of_nat n <= Qc_of_nat m.
Proof.
  intros H. unfold Qcle, Qc_of_nat, Qc_of_Z. simpl. rewrite !Qred_correct.
  rewrite <- Zle_Qle. lia.
Qed.

Lemma Qc_of_nat_pos n : (0 < n)%nat -> 0 < Qc_of_nat n.
Proof.
  intros H. unfold Qclt, Qc_of_nat, Qc_of_Z. simpl. rewrite !Qred_correct.
  unfold Qlt. simpl. lia.
Qed.

Lemma Qc_of_nat_nonzero n : n <> 0%nat -> Qc_of_nat n <> 0.
Proof.
  intros H E. assert (Hp : 0 < Qc_of_nat n) by (apply Qc_of_nat_pos; lia).
  rewrite E in Hp. by apply Qclt_not_eq in Hp.
Qed.

Lemma Qc_of_Z_100_pos : 0 < Qc_of_Z 100.
Proof. done. Qed.

(** A share [part / whole * 100] of a positive whole lies between 0 and
    100 when the part lies between 0 and the whole. *)
Lemma share_bounds (part whole : Qc) :
  0 <= part -> part <= whole -> 0 < whole ->
  0 <= part / whole * Qc_of_Z 100 /\ part / whole * Qc_of_Z 100 <= Qc_of_Z 100.
Proof.
  intros H0 H1 Hw.
  assert (Hne : whole <> 0) by (apply not_eq_sym, Qclt_not_eq, Hw).
  assert (E : part / whole * Qc_of_Z 100 * whole = part * Qc_of_Z 100) by (field; done).
  split; apply (Qcmult_lt_0_le_reg_r _ _ whole Hw); rewrite E.
  - replace (0 * whole) with (0 * Qc_of_Z 100) by ring.
    apply Qcmult_le_compat_r; [done|]. by apply Qclt_le_weak.
  - rewrite (Qcmult_comm (Qc_of_Z 100) whole).
    apply Qcmult_le_compat_r; [done|]. by apply Qclt_le_weak.
Qed.

Lemma share_pos (part whole : Qc) :
  0 < part -> 0 < whole -> 0 < part / whole * Qc_of_Z 100.
Proof.
  intros Hp Hw.
  assert (Hne : whole <> 0) by (apply not_eq_sym, Qclt_not_eq, Hw).
  assert (E : part / whole * Qc_of_Z 100 * whole = part * Qc_of_Z 100) by (field; done).
  apply Qcnot_le_lt. intros H.
  apply (Qcmult_le_compat_r _ _ whole) in H; [|by apply Qclt_le_weak].
  rewrite E in H. replace (0 * whole) with (0 * Qc_of_Z 100) in H by ring.
  apply (Qcle_not_lt _ _ H). by apply Qcmult_lt_compat_r.
Qed.

Lemma total_scale (f : Qc -> Qc) a (s : list (value * Qc)) :
  (forall q, f q = q * a) ->
  total ((fun kv : value * Qc => (kv.1, f kv.2)) <$> s) = total s * a.
Proof.
  intros Hf. induction s as [|[k q] s IH].
  - unfold total. simpl. ring.
  - rewrite fmap_cons, !total_cons, IH. cbn [snd]. rewrite Hf. ring.
Qed.

Lemma percentages_total (s : list (value * Qc)) :
  total s <> 0 -> total (DataAnalytics.percentages s) = Qc_of_Z 100.
Proof.
  intros Hne. unfold DataAnalytics.percentages. fold (total s).
  rewrite (total_scale (fun q => q / total s * Qc_of_Z 100) (/ total s * Qc_of_Z 100)).
  - field. done.
  - intros q. unfold Qcdiv. ring.
Qed.

(** X7: the task-status distribution of [perform_eda].  When the tasks
    table is there with a status column, the section prints for each
    status that occurs its share, count / number of tasks with a status *
    100, each status once; the shares add up to 100 (numbers being exact
    rationals here), and the series is empty for a table without any
    status. *)
Theorem task_distribution_percentages (argsort : list Qc -> list nat)
    (dfs : gmap string DataFrame) (tasks : DataFrame) :
  argsort_spec argsort ->
  dfs !! "tasks" = Some tasks ->
  has_column tasks "status" = true ->
  let statuses := cell "status" <$> rows tasks in
  exists s,
    DataAnalytics.task_distribution argsort dfs
      = Ok [DataAnalytics.PSeries "Task Status Distribution:" s]
    /\ (forall v p, (v, p) ∈ s <->
          v ∈ present_cells statuses
          /\ p = Qc_of_nat (occurrences v statuses)
                 / Qc_of_nat (length (present_cells statuses)) * Qc_of_Z 100)
    /\ NoDup s.*1
    /\ (present_cells statuses <> [] -> total s = Qc_of_Z 100)
    /\ (present_cells statuses = [] -> s = []).
Proof.
  intros Hs Ht Hc statuses.
  destruct (value_counts_counted argsort statuses Hs) as (H1 & H2 & H3 & _).
  exists (DataAnalytics.percentages (value_counts argsort statuses)).
  split; [|split; [|split; [|split]]].
  - unfold DataAnalytics.task_distribution, DataAnalytics.present, DataAnalytics.table, getitem.
    simpl. rewrite Ht. simpl. by rewrite Hc.
  - intros v p. unfold DataAnalytics.percentages.
    fold (total (value_counts argsort statuses)). rewrite H1.
    rewrite list_elem_of_fmap. split.
    + intros ([v' q] & [= -> ->] & Hin). apply H3 in Hin as [Hv ->]. done.
    + intros [Hv ->]. exists (v, Qc_of_nat (occurrences v statuses)). split; [done|].
      by apply H3.
  - unfold DataAnalytics.percentages. by rewrite <- list_fmap_compose.
  - intros Hne. apply percentages_total. rewrite H1. apply Qc_of_nat_nonzero.
    by destruct (present_cells statuses).
  - intros He. destruct (value_counts argsort statuses) as [|[v q] vc] eqn:E; [done|].
    assert (Hin : (v, q) ∈ (v, q) :: vc) by (apply elem_of_cons; by left).
    apply H3 in Hin as [Hv _]. rewrite He in Hv. by apply elem_of_nil in Hv.
Qed.

(** The task distribution of the normalised sample tables. *)
Lemma task_distribution_percentages_witness :
  let statuses := cell "status" <$> rows Samples.normalized_tasks in
  exists s,
    DataAnalytics.task_distribution Samples.stable_argsort Samples.normalized
      = Ok [DataAnalytics.PSeries "Task Status Distribution:" s]
    /\ (forall v p, (v, p) ∈ s <->
          v ∈ present_cells statuses
          /\ p = Qc_of_nat (occurrences v statuses)
                 / Qc_of_nat (length (present_cells statuses)) * Qc_of_Z 100)
    /\ NoDup s.*1
    /\ (present_cells statuses <> [] -> total s = Qc_of_Z 100)
    /\ (present_cells statuses = [] -> s = []).
Proof.
  apply (task_distribution_percentages Samples.stable_argsort Samples.normalized
           Samples.normalized_tasks).
  - apply stable_argsort_spec.
  - reflexivity.
  - reflexivity.
Defined.

(** ** Running a view *)

Lemma bindM_Ok {A B} (m : App.M A) (k : A -> App.M B) data b data' :
  App.bindM m k data = (Ok b, data') ->
  exists a data1, m data = (Ok a, data1) /\ k a data1 = (Ok b, data').
Proof.
  unfold App.bindM. destruct (m data) as [[a|e] data1]; [|done]. intros H. by exists a, data1.
Qed.

Lemma pure_Ok {A} (r : result A) data a data' :
  App.pure r data = (Ok a, data') -> r = Ok a /\ data' = data.
Proof. unfold App.pure. by intros [= -> ->]. Qed.

Lemma read_Ok name data df data' :
  App.read name data = (Ok df, data') -> data !! name = Some df /\ data' = data.
Proof.
  unfold App.read, DataAnalytics.table. destruct (data !! name); [|done]. by intros [= -> ->].
Qed.

Lemma ret_Ok {A} (a b : A) data data' : App.ret a data = (Ok b, data') -> a = b /\ data' = data.
Proof. unfold App.ret. by intros [= -> ->]. Qed.

Ltac view_step H :=
  let x := fresh "x" in let d := fresh "d" in let Hx := fresh "Hx" in
  apply bindM_Ok in H as (x & d & Hx & H);
  first [ apply read_Ok in Hx as [Hx ->] | apply pure_Ok in Hx as [Hx ->] ].

Lemma count_eq_Ok df c v n :
  App.count_eq df c v = Ok n ->
  n = length (List.filter (fun r : Row => bool_decide (cell c r = v)) (rows df))
  /\ (n <= len df)%nat.
Proof.
  unfold App.count_eq. destruct (has_column df c); [|done]. intros [= <-].
  split; [done|]. unfold len. simpl. clear. induction (rows df) as [|r l IH]; simpl; [done|].
  destruct (bool_decide _); simpl; lia.
Qed.

(** ** The completion rate of the overview *)

(** X17: the completion rate of the Executive Overview.  When the view
    renders, its fifth metric is the completion rate; it lies between 0
    and 100, is 0 for an empty tasks table, and otherwise the number of
    tasks whose status is Completed / number of tasks * 100. *)
Theorem completion_rate_is_a_percentage (argsort : list Qc -> list nat)
    (data data' : gmap string DataFrame) (shown : list App.shown) :
  App.executive_overview argsort data = (Ok shown, data') ->
  exists tasks q,
    data !! "tasks" = Some tasks
    /\ shown !! 4%nat = Some (App.Metric "Completion Rate" (FFin q))
    /\ 0 <= q /\ q <= Qc_of_Z 100
    /\ (len tasks = 0%nat -> q = 0)
    /\ ((0 < len tasks)%nat ->
        q = Qc_of_nat (length (List.filter
                                 (fun r : Row => bool_decide (cell "status" r = VStr "Completed"))
                                 (rows tasks)))
            / Qc_of_nat (len tasks) * Qc_of_Z 100).
Proof.
  intros H. unfold App.executive_overview in H.
  do 10 view_step H. apply ret_Ok in H as [<- _].
  match goal with Hc : App.count_eq ?t "status" (VStr "Completed") = Ok ?n |- _ =>
    apply count_eq_Ok in Hc as [Hn Hle]; exists t end.
  eexists. split; [done|]. split; [reflexivity|].
  unfold App.ratio. case_bool_decide as Hpos.
  - destruct (share_bounds (Qc_of_nat x4) (Qc_of_nat (len x3))) as [Hlo Hhi];
      [apply (Qc_of_nat_le 0); lia | by apply Qc_of_nat_le | done |].
    split; [done|]. split; [done|]. split.
    + intros E. rewrite E in Hpos. by apply Qclt_not_eq in Hpos.
    + intros _. by rewrite Hn.
  - split; [done|]. split; [done|]. split; [done|].
    intros Hl. destruct Hpos. by apply Qc_of_nat_pos.
Qed.

(** The completion rate the overview shows of the sample tables. *)
Lemma completion_rate_is_a_percentage_witness :
  exists tasks q,
    Samples.data !! "tasks" = Some tasks
    /\ Samples.overview !! 4%nat = Some (App.Metric "Completion Rate" (FFin q))
    /\ 0 <= q /\ q <= Qc_of_Z 100
    /\ (len tasks = 0%nat -> q = 0)
    /\ ((0 < len tasks)%nat ->
        q = Qc_of_nat (length (List.filter
                                 (fun r : Row => bool_decide (cell "status" r = VStr "Completed"))
                                 (rows tasks)))
            / Qc_of_nat (len tasks) * Qc_of_Z 100).
Proof.
  apply (completion_rate_is_a_percentage Samples.stable_argsort Samples.data Samples.data
           Samples.overview).
  reflexivity.
Defined.

(** ** The milestone summary *)

Lemma occurrences_le_present v l :
  isna v = false -> (occurrences v l <= length (present_cells l))%nat.
Proof.
  intros Hv. unfold occurrences, present_cells. induction l as [|w l IH]; simpl; [done|].
  case_bool_decide as E.
  - subst w. rewrite Hv. simpl. lia.
  - destruct (isna w); simpl; lia.
Qed.

Lemma occurrences_pos v l : v ∈ l -> (0 < occurrences v l)%nat.
Proof.
  unfold occurrences. induction 1 as [v l|v w l _ IH]; simpl.
  - rewrite bool_decide_eq_true_2 by done. simpl. lia.
  - destruct (bool_decide _); simpl; lia.
Qed.

Lemma present_cells_le l : (length (present_cells l) <= length l)%nat.
Proof.
  unfold present_cells. induction l as [|w l IH]; simpl; [done|].
  destruct (isna w); simpl; lia.
Qed.

Lemma present_cells_all l : Forall (fun v => isna v = false) l -> present_cells l = l.
Proof.
  unfold present_cells. induction 1 as [|v l Hv _ IH]; simpl; [done|].
  rewrite Hv. simpl. by rewrite IH.
Qed.

(** X22: the milestone summary of the Risk & Compliance view.  When the
    view renders, the summary lists each milestone status that occurs with
    its share count / number of milestones * 100; each share is above 0
    and at most 100, and the shares add up to 100 when no milestone lacks
    a status (to less otherwise, the divisor counting those too). *)
Theorem milestone_summary_shares (argsort : list Qc -> list nat)
    (data data' : gmap string DataFrame) (shown : list App.shown) :
  argsort_spec argsort ->
  App.risk_compliance argsort data = (Ok shown, data') ->
  exists milestones summary,
    data !! "milestones" = Some milestones
    /\ shown !! 7%nat = Some (App.Chart "Milestone Summary" summary)
    /\ (forall v p, (v, p) ∈ summary <->
          v ∈ present_cells (cell "status" <$> rows milestones)
          /\ p = Qc_of_nat (occurrences v (cell "status" <$> rows milestones))
                 / Qc_of_nat (len milestones) * Qc_of_Z 100)
    /\ (summary <> [] -> len milestones <> 0%nat)
    /\ Forall (fun kv : value * Qc => 0 < kv.2 /\ kv.2 <= Qc_of_Z 100) summary
    /\ (summary <> [] ->
        total summary
        = Qc_of_nat (length (present_cells (cell "status" <$> rows milestones)))
          / Qc_of_nat (len milestones) * Qc_of_Z 100)
    /\ (summary <> [] -> Forall (fun r => isna (cell "status" r) = false) (rows milestones) ->
        total summary = Qc_of_Z 100).
Proof.
  intros Hs H. unfold App.risk_compliance in H.
  do 10 view_step H. apply ret_Ok in H as [<- _].
  match goal with Hm : _ !! "milestones" = Some ?m |- _ => exists m; rename Hm into Hmil end.
  match goal with Hg : getitem ?m "status" = Ok ?st |- _ =>
    unfold getitem in Hg; destruct (has_column m "status"); [|done]; injection Hg as <- end.
  eexists. split; [done|]. split; [reflexivity|].
  set (statuses := cell "status" <$> rows _).
  destruct (value_counts_counted argsort statuses Hs) as (H1 & H2 & H3 & _).
  assert (Hlen : len x7 = length statuses) by (unfold statuses, len; by rewrite length_fmap).
  assert (Hmem : forall v p,
            (v, p) ∈ (fun kv : value * Qc => (kv.1, kv.2 / Qc_of_nat (len x7) * Qc_of_Z 100))
                       <$> value_counts argsort statuses
            <-> v ∈ present_cells statuses
                /\ p = Qc_of_nat (occurrences v statuses) / Qc_of_nat (len x7) * Qc_of_Z 100).
  { intros v p. rewrite list_elem_of_fmap. split.
    - intros ([v' q] & [= -> ->] & Hin). apply H3 in Hin as [Hv ->]. done.
    - intros [Hv ->]. exists (v, Qc_of_nat (occurrences v statuses)). split; [done|].
      by apply H3. }
  assert (Hne : (fun kv : value * Qc => (kv.1, kv.2 / Qc_of_nat (len x7) * Qc_of_Z 100))
                  <$> value_counts argsort statuses <> [] -> len x7 <> 0%nat).
  { intros Hn Hz. apply Hn.
    assert (E : statuses = []) by (apply length_zero_iff_nil; lia).
    destruct (value_counts argsort statuses) as [|[v q] vc] eqn:Evc; [done|].
    assert (Hin : (v, q) ∈ (v, q) :: vc) by (apply elem_of_cons; by left).
    apply H3 in Hin as [Hv _]. rewrite E in Hv. by apply elem_of_nil in Hv. }
  split; [exact Hmem|]. split; [exact Hne|]. split; [|split].
  - apply Forall_forall. intros [v p] Hin. apply Hmem in Hin as [Hv ->]. simpl.
    assert (Hv' := Hv). apply list_elem_of_In, filter_In in Hv' as [Hin Hna].
    apply list_elem_of_In in Hin. apply negb_true_iff in Hna.
    assert (Hpos : (0 < occurrences v statuses)%nat) by by apply occurrences_pos.
    assert (Hle : (occurrences v statuses <= len x7)%nat).
    { rewrite Hlen. etrans; [by apply occurrences_le_present|apply present_cells_le]. }
    assert (Hw : 0 < Qc_of_nat (len x7)) by (apply Qc_of_nat_pos; lia).
    destruct (share_bounds (Qc_of_nat (occurrences v statuses)) (Qc_of_nat (len x7)))
      as [Hlo Hhi]; [apply (Qc_of_nat_le 0); lia|by apply Qc_of_nat_le|done|].
    split; [|done]. apply share_pos; [by apply Qc_of_nat_pos|done].
  - intros Hn.
    rewrite (total_scale (fun q => q / Qc_of_nat (len x7) * Qc_of_Z 100)
               (/ Qc_of_nat (len x7) * Qc_of_Z 100)).
    + rewrite H1. unfold Qcdiv. ring.
    + intros q. unfold Qcdiv. ring.
  - intros Hn Hall.
    rewrite (total_scale (fun q => q / Qc_of_nat (len x7) * Qc_of_Z 100)
               (/ Qc_of_nat (len x7) * Qc_of_Z 100)); [|intros q; unfold Qcdiv; ring].
    rewrite H1, present_cells_all.
    + rewrite <- Hlen. field. apply Qc_of_nat_nonzero. by apply Hne.
    + unfold statuses. by apply Forall_fmap.
Qed.

(** The milestone summary the risk view shows of the sample tables. *)
Lemma milestone_summary_shares_witness :
  exists milestones summary,
    Samples.data !! "milestones" = Some milestones
    /\ Samples.risk_view !! 7%nat = Some (App.Chart "Milestone Summary" summary)
    /\ (forall v p, (v, p) ∈ summary <->
          v ∈ present_cells (cell "status" <$> rows milestones)
          /\ p = Qc_of_nat (occurrences v (cell "status" <$> rows milestones))
                 / Qc_of_nat (len milestones) * Qc_of_Z 100)
    /\ (summary <> [] -> len milestones <> 0%nat)
    /\ Forall (fun kv : value * Qc => 0 < kv.2 /\ kv.2 <= Qc_of_Z 100) summary
    /\ (summary <> [] ->
        total summary
        = Qc_of_nat (length (present_cells (cell "status" <$> rows milestones)))
          / Qc_of_nat (len milestones) * Qc_of_Z 100)
    /\ (summary <> [] -> Forall (fun r => isna (cell "status" r) = false) (rows milestones) ->
        total summary = Qc_of_Z 100).
Proof.
  apply (milestone_summary_shares Samples.stable_argsort Samples.data Samples.data
           Samples.risk_view).
  - apply stable_argsort_spec.
  - reflexivity.
Defined.

(** ** Loading the dashboard *)

Lemma read_all_Ok disk fs data :
  Forall (fun f : string * string => is_Some (disk !! f.2)) fs ->
  App.read_all disk fs data = Ok (tables_of disk fs data).
Proof.
  revert data. induction fs as [|f fs IH]; intros data Hall; [done|].
  apply Forall_cons in Hall as [[df Hf] Hall]. simpl. rewrite Hf. by apply IH.
Qed.

Lemma read_all_Err disk fs data e :
  App.read_all disk fs data = Err e ->
  exists pre f post, fs = pre ++ f :: post
    /\ Forall (fun f : string * string => is_Some (disk !! f.2)) pre
    /\ disk !! f.2 = None /\ e = FileNotFoundError f.2.
Proof.
  revert data. induction fs as [|f fs IH]; intros data; [done|].
  simpl. destruct (disk !! f.2) as [df|] eqn:Hf.
  - intros (pre & g & post & -> & Hpre & Hg & ->)%IH.
    exists (f :: pre), g, post. split; [done|]. split; [|done].
    constructor; [by rewrite Hf|done].
  - intros [= <-]. by exists [], f, fs.
Qed.

Lemma tables_of_lookup disk (fs : list (string * string)) data name file :
  NoDup fs.*1 -> (name, file) ∈ fs ->
  tables_of disk fs data !! name
  = match disk !! file with Some df => Some df | None => data !! name end.
Proof.
  revert data. induction fs as [|[n f] fs IH]; intros data Hnd Hin; [by apply elem_of_nil in Hin|].
  rewrite fmap_cons in Hnd. apply NoDup_cons in Hnd as [Hn Hnd]. simpl in Hn.
  apply elem_of_cons in Hin as [[= <- <-]|Hin]; simpl.
  - assert (Hout : forall d, tables_of disk fs d !! name = d !! name).
    { clear -Hn. induction fs as [|[n' f'] fs IH]; intros d; [done|]. simpl.
      rewrite fmap_cons, not_elem_of_cons in Hn. destruct Hn as [Hne Hn]. simpl in Hne.
      rewrite IH by done. destruct (disk !! f'); [by rewrite lookup_insert_ne|done]. }
    rewrite Hout. destruct (disk !! file); [by rewrite lookup_insert_eq|done].
  - rewrite (IH _ Hnd Hin). destruct (disk !! file); [done|].
    destruct (disk !! f); [|done]. rewrite lookup_insert_ne; [done|].
    intros ->. apply Hn. apply list_elem_of_fmap. by exists (name, file).
Qed.

Lemma tables_of_absent disk (fs : list (string * string)) data name :
  name ∉ fs.*1 -> tables_of disk fs data !! name = data !! name.
Proof.
  revert data. induction fs as [|[n' f'] fs IH]; intros d Hn; [done|]. simpl.
  rewrite fmap_cons, not_elem_of_cons in Hn. destruct Hn as [Hne Hn]. simpl in Hne.
  rewrite IH by done. destruct (disk !! f'); [by rewrite lookup_insert_ne|done].
Qed.

Lemma convert_date_alter pd name col (data : gmap string DataFrame) :
  is_Some (data !! name) ->
  App.convert_date pd name col data
  = Ok (alter (apply_specs [(col, to_datetime pd)]) name data).
Proof.
  intros [df Hdf]. unfold App.convert_date, DataAnalytics.table. rewrite Hdf. simpl.
  assert (E : alter (apply_specs [(col, to_datetime pd)]) name data
              = <[name := apply_specs [(col, to_datetime pd)] df]> data).
  { apply map_eq. intros t. destruct (decide (t = name)) as [->|Hne].
    - by rewrite lookup_insert_eq, lookup_alter_eq, Hdf.
    - by rewrite lookup_insert_ne, lookup_alter_ne. }
  rewrite E, <- (cellwise_apply_specs col (to_datetime pd) df).
  destruct (has_column df col); [done|]. by rewrite insert_id.
Qed.

Lemma every_file_or_error pd disk data :
  App.load_data pd disk = Ok data ->
  Forall (fun f : string * string => is_Some (disk !! f.2)) App.files.
Proof.
  intros Hd. apply Forall_forall. intros [n f] Hin. simpl.
  destruct (disk !! f) eqn:E; [done|].
  destruct (read_all_missing disk App.files ∅ n f Hin E) as [g Hg].
  unfold App.load_data in Hd. rewrite Hg in Hd. done.
Qed.

Lemma dashboard_load_Ok pd disk :
  Forall (fun f : string * string => is_Some (disk !! f.2)) App.files ->
  App.load_data pd disk
  = Ok (alter (apply_specs [("planned_end", to_datetime pd)]) "milestones"
       (alter (apply_specs [("planned_start", to_datetime pd)]) "milestones"
       (alter (apply_specs [("date", to_datetime pd)]) "timesheets"
       (alter (apply_specs [("date", to_datetime pd)]) "expenses"
       (alter (apply_specs [("end_date", to_datetime pd)]) "projects"
       (alter (apply_specs [("start_date", to_datetime pd)]) "projects"
          (tables_of disk App.files ∅))))))).
Proof.
  intros Hall. unfold App.load_data. rewrite read_all_Ok by done. cbn [bind].
  assert (Hin : forall name, name ∈ App.files.*1 ->
            is_Some (tables_of disk App.files ∅ !! name)).
  { intros name ([n f] & -> & Hin)%list_elem_of_fmap.
    rewrite (tables_of_lookup disk _ _ n f); [|compute_done|done].
    rewrite Forall_forall in Hall. destruct (Hall _ Hin) as [df Hdf]. simpl in Hdf.
    rewrite Hdf. eauto. }
  repeat (rewrite convert_date_alter;
          [cbn [bind]|rewrite ?lookup_alter_is_Some; apply Hin; compute_done]).
  done.
Qed.

Lemma dashboard_load_lookup pd disk data name file :
  App.load_data pd disk = Ok data ->
  (name, file) ∈ App.files ->
  data !! name
  = apply_specs ((fun c => (c, to_datetime pd)) <$> dashboard_date_columns name)
      <$> disk !! file.
Proof.
  intros Hd Hin. pose proof (every_file_or_error _ _ _ Hd) as Hall.
  rewrite (dashboard_load_Ok pd disk Hall) in Hd.
  assert (Ht : tables_of disk App.files ∅ !! name = disk !! file).
  { rewrite (tables_of_lookup disk _ _ name file); [|compute_done|done].
    rewrite lookup_empty. by destruct (disk !! file). }
  remember (tables_of disk App.files ∅) as T eqn:ET. clear ET Hall.
  injection Hd as <-.
  unfold App.files in Hin.
  repeat (apply elem_of_cons in Hin as [Hin|Hin];
          [injection Hin as -> ->;
           repeat first [rewrite lookup_alter_ne by done | rewrite lookup_alter_eq];
           rewrite Ht; destruct (disk !! _) as [df|]; [|done]; cbn [fmap option_fmap option_map];
           match goal with |- context [dashboard_date_columns ?n] =>
             let v := eval vm_compute in (dashboard_date_columns n) in
             change (dashboard_date_columns n) with v end;
           cbn [list_fmap]; rewrite ?apply_specs_app, ?apply_specs_nil; done|]).
  by apply elem_of_nil in Hin.
Qed.

Lemma dashboard_date_columns_NoDup name : NoDup (dashboard_date_columns name).
Proof.
  unfold dashboard_date_columns. repeat case_bool_decide; compute_done.
Qed.

(** X15: [load_data] of the dashboard is all or nothing.  It returns
    exactly when all ten files exist; the mapping then holds the ten
    tables and no other, each with the labels and the rows of its file,
    cell for cell, except that the date columns it has, among those
    listed for it, are converted: their cells are dates or NaT, a date
    staying what it was and an absent cell becoming NaT.  When it raises,
    it is a FileNotFoundError for the first file of the list that is
    missing. *)
Theorem dashboard_load_all_or_nothing (pd : string -> option Z) (disk : gmap string DataFrame) :
  ((exists data, App.load_data pd disk = Ok data)
   <-> forall name file, (name, file) ∈ App.files -> is_Some (disk !! file))
  /\ (forall data, App.load_data pd disk = Ok data ->
        (forall name file, (name, file) ∈ App.files ->
           exists df df',
             disk !! file = Some df /\ data !! name = Some df'
             /\ columns df' = columns df /\ len df' = len df
             /\ Forall2 (fun r r' : Row =>
                           forall c,
                             (c ∈ dashboard_date_columns name -> has_column df c = true ->
                              as_date (cell c r) (cell c r'))
                             /\ (c ∉ dashboard_date_columns name \/ has_column df c = false ->
                                 r' !! c = r !! c))
                        (rows df) (rows df'))
        /\ (forall name, name ∉ App.files.*1 -> data !! name = None))
  /\ (forall e, App.load_data pd disk = Err e ->
        exists pre f post, App.files = pre ++ f :: post
          /\ Forall (fun f : string * string => is_Some (disk !! f.2)) pre
          /\ disk !! f.2 = None /\ e = FileNotFoundError f.2).
Proof.
  split; [|split].
  - split.
    + intros [data Hd] name file Hin.
      pose proof (every_file_or_error _ _ _ Hd) as Hall. rewrite Forall_forall in Hall.
      apply (Hall (name, file) Hin).
    + intros Hall. eexists. apply dashboard_load_Ok. apply Forall_forall.
      intros [n f] Hin. by eapply Hall.
  - intros data Hd. split.
    + intros name file Hin.
      pose proof (every_file_or_error _ _ _ Hd) as Hall. rewrite Forall_forall in Hall.
      destruct (Hall (name, file) Hin) as [df Hdf]. simpl in Hdf.
      pose proof (dashboard_load_lookup pd disk data name file Hd Hin) as Hl.
      rewrite Hdf in Hl. simpl in Hl. eexists df, _. split; [done|]. split; [exact Hl|].
      split; [apply apply_specs_columns|].
      split; [unfold len; rewrite rows_apply_specs; apply length_fmap|].
      apply dates_converted, dashboard_date_columns_NoDup.
    + intros name Hn. pose proof (every_file_or_error _ _ _ Hd) as Hall.
      rewrite (dashboard_load_Ok pd disk Hall) in Hd.
      assert (Ha : tables_of disk App.files ∅ !! name = None)
        by (by rewrite tables_of_absent, lookup_empty).
      remember (tables_of disk App.files ∅) as T eqn:ET. clear ET Hall.
      injection Hd as <-.
      assert (Hne : forall t, t ∈ App.files.*1 -> name <> t) by (by intros t Ht ->).
      rewrite !lookup_alter_ne by (apply not_eq_sym, Hne; compute_done).
      done.
  - intros e He. unfold App.load_data in He.
    destruct (App.read_all disk App.files ∅) as [d0|e0] eqn:Er.
    + exfalso.
      assert (Hall : Forall (fun f : string * string => is_Some (disk !! f.2)) App.files).
      { apply Forall_forall. intros [n f] Hin. simpl.
        destruct (disk !! f) eqn:E; [done|].
        destruct (read_all_missing disk App.files ∅ n f Hin E) as [g Hg]. congruence. }
      pose proof (dashboard_load_Ok pd disk Hall) as Hk. unfold App.load_data in Hk.
      rewrite Er in Hk. congruence.
    + simpl in He. injection He as <-. by apply read_all_Err in Er.
Qed.

(** ** The month of an expense, after loading *)



(** ** No view meets a missing table *)

Lemma finds_ret {A} (a : A) : finds_tables (App.ret a).
Proof. by intros data H. Qed.

Lemma finds_pure {A} (r : result A) : table_fault r = false -> finds_tables (App.pure r).
Proof. by intros Hr data H. Qed.

Lemma finds_read name : name ∈ App.files.*1 -> finds_tables (App.read name).
Proof.
  intros Hn data H. split; [|done]. unfold App.read, DataAnalytics.table. simpl.
  by destruct (H name Hn) as [df ->].
Qed.

Lemma finds_bind {A B} (m : App.M A) (k : A -> App.M B) :
  finds_tables m -> (forall a, finds_tables (k a)) -> finds_tables (App.bindM m k).
Proof.
  intros Hm Hk data H. unfold App.bindM. destruct (Hm data H) as [H1 H2].
  destruct (m data) as [[a|e] data1]; simpl in *; [by apply Hk|done].
Qed.

Lemma finds_setitem name col f :
  name ∈ App.files.*1 -> (forall r, table_fault (f r) = false) ->
  finds_tables (App.setitem name col f).
Proof.
  intros Hn Hf data H. unfold App.setitem, DataAnalytics.table.
  destruct (H name Hn) as [df ->].
  pose proof (no_fault_assignM col f df Hf) as Ha.
  destruct (assignM col f df) as [df'|e]; simpl; [|done].
  split; [done|]. intros n Hin. rewrite lookup_insert_is_Some'. right. by apply H.
Qed.

Lemma no_fault_col_sum df c : table_fault (col_sum df c) = false.
Proof. unfold col_sum. auto with fault. Qed.

Lemma no_fault_col_mean df c : table_fault (col_mean df c) = false.
Proof. unfold col_mean. auto with fault. Qed.

Lemma no_fault_count_eq df c v : table_fault (App.count_eq df c v) = false.
Proof. unfold App.count_eq. by destruct (has_column df c). Qed.

Lemma no_fault_groupby_size df k : table_fault (groupby_size df k) = false.
Proof. unfold groupby_size. auto with fault. Qed.

Lemma no_fault_keep_isin c sel df : table_fault (App.keep_isin c sel df) = false.
Proof. unfold App.keep_isin. by destruct (has_column df c). Qed.

Lemma no_fault_apply_filters t s p df : table_fault (App.apply_filters t s p df) = false.
Proof.
  unfold App.apply_filters.
  repeat (apply no_fault_bind; [|intros ?]);
    repeat match goal with |- context [match ?l with [] => _ | _ => _ end] => destruct l end;
    auto using no_fault_keep_isin.
Qed.

Lemma no_fault_label names i nm n x : table_fault (App.label names i nm n x) = false.
Proof. unfold App.label. by destruct (default x _). Qed.

Lemma no_fault_relabel names i nm n s : table_fault (App.relabel names i nm n s) = false.
Proof.
  unfold App.relabel. repeat apply no_fault_if; try done.
  apply no_fault_mapM. intros kv. apply no_fault_bind; [apply no_fault_label|done].
Qed.

Lemma no_fault_month_of ml v : table_fault (App.month_of ml v) = false.
Proof. by destruct v. Qed.

#[local] Hint Resolve no_fault_col_sum no_fault_col_mean no_fault_count_eq no_fault_groupby_size
  no_fault_apply_filters no_fault_relabel no_fault_month_of : fault.

Ltac finds_view :=
  repeat first
    [ apply finds_ret
    | apply finds_read; compute_done
    | apply finds_setitem; [compute_done|intros ?; auto with fault]
    | apply finds_pure; auto with fault
    | apply finds_bind; [|intros ?] ].

Lemma render_finds_tables argsort month_label p :
  finds_tables (App.render argsort month_label p).
Proof.
  destruct p; simpl;
    [unfold App.executive_overview | unfold App.project_analytics
    | unfold App.financial_insights | unfold App.resource_management
    | unfold App.risk_compliance | unfold App.vendor_analysis]; finds_view.
Qed.

(** X16: after the dashboard's [load_data] has returned, all ten tables
    are in the mapping, no view ends on a missing file or table, every
    view leaves all ten tables in the mapping, and so no view rendered
    after another does either. *)
Theorem views_find_their_tables (pd : string -> option Z) (argsort : list Qc -> list nat)
    (month_label : Z -> string) (disk data : gmap string DataFrame) (p : App.page) :
  App.load_data pd disk = Ok data ->
  all_loaded data
  /\ table_fault (App.render argsort month_label p data).1 = false
  /\ all_loaded (App.render argsort month_label p data).2
  /\ forall q, table_fault
                 (App.render argsort month_label q (App.render argsort month_label p data).2).1
               = false.
Proof.
  intros Hd.
  assert (Hl : all_loaded data).
  { intros name ([n f] & -> & Hin)%list_elem_of_fmap. simpl.
    rewrite (dashboard_load_lookup pd disk data n f Hd Hin).
    pose proof (every_file_or_error _ _ _ Hd) as Hall. rewrite Forall_forall in Hall.
    destruct (Hall _ Hin) as [df Hdf]. simpl in Hdf. rewrite Hdf. eauto. }
  destruct (render_finds_tables argsort month_label p data Hl) as [H1 H2].
  split; [done|]. split; [done|]. split; [done|].
  intros q. by apply render_finds_tables.
Qed.

(** On the sample disk: after Financial Insights has run, every view
    still finds its tables. *)
Lemma views_find_their_tables_witness :
  all_loaded Samples.data
  /\ table_fault (App.render Samples.stable_argsort Samples.month_label
                    App.FinancialInsights Samples.data).1 = false
  /\ all_loaded Samples.after_insights
  /\ forall q, table_fault (App.render Samples.stable_argsort Samples.month_label q
                              Samples.after_insights).1 = false.
Proof.
  apply (views_find_their_tables Samples.parse_datetime Samples.stable_argsort
           Samples.month_label Samples.disk Samples.data App.FinancialInsights).
  reflexivity.
Defined.

(** ** Labels *)

Lemma substring_length n s :
  String.length (String.substring 0 n s) = Nat.min n (String.length s).
Proof.
  revert s. induction n as [|n IH]; intros s.
  - by destruct s.
  - destruct s as [|a s]; simpl; [done|]. by rewrite IH.
Qed.

Lemma find_unique {A} `{EqDecision B} (f : A -> B) (l : list A) (k : B) (r : A) :
  NoDup (f <$> l) -> r ∈ l -> f r = k ->
  List.find (fun x => bool_decide (f x = k)) l = Some r.
Proof.
  induction l as [|x l IH]; intros Hnd Hin Hk; [by apply elem_of_nil in Hin|].
  rewrite fmap_cons in Hnd. apply NoDup_cons in Hnd as [Hx Hnd]. simpl.
  apply elem_of_cons in Hin as [->|Hin].
  - by rewrite bool_decide_eq_true_2.
  - rewrite bool_decide_eq_false_2; [by apply IH|].
    intros E. apply Hx. rewrite E, <- Hk. apply list_elem_of_fmap. by exists r.
Qed.

Lemma find_no_match {A} (p : A -> bool) (l : list A) :
  List.find p l = None -> forall x, x ∈ l -> p x = false.
Proof.
  intros H x Hx. apply list_elem_of_In in Hx. by apply (List.find_none p l H).
Qed.

(** X21: the labels of the ranking charts ([proj_names.get(x, x)[:n]]).
    When the ids of the names table are distinct and the relabelling
    returns, it keeps the amounts and their order, and each key becomes
    the first [n] characters of the name recorded for that id, or of the
    key itself when no row has that id. *)
Theorem relabel_cuts_names (names : DataFrame) (id_col name_col : string) (n : nat)
    (s out : list (value * Qc)) :
  NoDup (cell id_col <$> rows names) ->
  App.relabel names id_col name_col n s = Ok out ->
  Forall2 (fun kv kv' : value * Qc =>
             kv'.2 = kv.2
             /\ exists full,
                  kv'.1 = VStr (String.substring 0 n full)
                  /\ String.length (String.substring 0 n full) = Nat.min n (String.length full)
                  /\ ((exists r, r ∈ rows names /\ cell id_col r = kv.1
                                 /\ cell name_col r = VStr full
                                 /\ forall r', r' ∈ rows names ->
                                                cell id_col r' = kv.1 -> r' = r)
                      \/ ((forall r, r ∈ rows names -> cell id_col r <> kv.1)
                          /\ kv.1 = VStr full)))
          s out.
Proof.
  intros Hnd. unfold App.relabel.
  destruct (has_column names id_col); [|done]. destruct (has_column names name_col); [|done].
  simpl. intros H. apply mapM_Forall2 in H.
  eapply Forall2_impl; [exact H|]. simpl. intros [k q] [k' q'] Hl.
  apply bind_Ok in Hl as (l & Hl & [= <- <-]). split; [done|].
  unfold App.label in Hl.
  destruct (List.find _ (rows names)) as [r|] eqn:Ef; simpl in Hl.
  - apply find_some in Ef as [Hin Hr]. apply bool_decide_eq_true in Hr.
    destruct (cell name_col r) as [|full| | |] eqn:En; try done. injection Hl as <-.
    exists full. split; [done|]. split; [apply substring_length|]. left.
    exists r. split; [by apply list_elem_of_In|]. split; [done|]. split; [done|].
    intros r' Hr' Hk'. apply list_elem_of_In in Hin.
    pose proof (find_unique (cell id_col) (rows names) k r Hnd Hin Hr) as E1.
    pose proof (find_unique (cell id_col) (rows names) k r' Hnd Hr' Hk') as E2.
    congruence.
  - destruct k as [|full| | |]; try done. injection Hl as <-.
    exists full. split; [done|]. split; [apply substring_length|]. right. split; [|done].
    intros r Hr. pose proof (find_no_match _ _ Ef r Hr) as Hf. simpl in Hf.
    by apply bool_decide_eq_false in Hf.
Qed.

(** The vendor chart of the samples: a vendor on file gets its name, an
    unknown id stays as it is. *)
Lemma relabel_cuts_names_witness :
  Forall2 (fun kv kv' : value * Qc =>
             kv'.2 = kv.2
             /\ exists full,
                  kv'.1 = VStr (String.substring 0 30 full)
                  /\ String.length (String.substring 0 30 full)
                     = Nat.min 30 (String.length full)
                  /\ ((exists r, r ∈ rows Samples.vendors /\ cell "vendor_id" r = kv.1
                                 /\ cell "vendor_name" r = VStr full
                                 /\ forall r', r' ∈ rows Samples.vendors ->
                                                cell "vendor_id" r' = kv.1 -> r' = r)
                      \/ ((forall r, r ∈ rows Samples.vendors -> cell "vendor_id" r <> kv.1)
                          /\ kv.1 = VStr full)))
          Samples.vendor_spend Samples.vendor_labels.
Proof.
  apply (relabel_cuts_names Samples.vendors "vendor_id" "vendor_name" 30
           Samples.vendor_spend Samples.vendor_labels).
  - compute_done.
  - reflexivity.
Defined.

(** ** A selection that matches no project *)

Lemma gather_empty {A} (p : list nat) : gather ([] : list A) p = [].
Proof. induction p as [|i p IH]; [done|]. by rewrite gather_cons, lookup_nil. Qed.

Lemma apply_filters_rows t s p projects :
  has_column projects "type" = true ->
  has_column projects "status" = true ->
  has_column projects "priority" = true ->
  App.apply_filters t s p projects
  = Ok {| columns := columns projects;
          rows := List.filter (fun r => App.selected_by t "type" r
                                        && App.selected_by s "status" r
                                        && App.selected_by p "priority" r) (rows projects) |}.
Proof.
  intros Ht Hs Hp. unfold App.apply_filters, copy.
  rewrite (keep_selected t "type" projects Ht). simpl.
  rewrite keep_selected by done. simpl.
  rewrite keep_selected by done. simpl.
  rewrite (filter_filter_andb (App.selected_by t "type") (App.selected_by s "status")).
  by rewrite filter_filter_andb.
Qed.

Lemma filter_all {A} (l : list A) : List.filter (fun _ => true) l = l.
Proof. induction l as [|x l IH]; simpl; [done | by rewrite IH]. Qed.

Lemma getitem_Ok df c l : getitem df c = Ok l -> has_column df c = true.
Proof. unfold getitem. by destruct (has_column df c). Qed.

(** C10: in the Project Analytics view an empty selection restricts
    nothing and the selections that are not empty combine as a
    conjunction.  Whenever the view renders, everything it shows is
    computed from the filtered frame, which has the labels of the loaded
    projects table and exactly its rows, in order, that pass each of the
    three filters: the number of projects, the total budget, the average
    progress, the number completed, the two charts and the table of
    details; with three empty selections the filtered frame is the
    projects table.  The view leaves the loaded mapping as it was. *)
Theorem filters_conjunctive (argsort : list Qc -> list nat)
    (type_filter status_filter priority_filter : list value)
    (data data' : gmap string DataFrame) (shown : list App.shown) :
  App.project_analytics argsort type_filter status_filter priority_filter data
  = (Ok shown, data') ->
  exists projects budget avg_progress completed display details,
    data !! "projects" = Some projects
    /\ data' = data
    /\ let filtered_projects :=
         {| columns := columns projects;
            rows := List.filter (fun r => App.selected_by type_filter "type" r
                                          && App.selected_by status_filter "status" r
                                          && App.selected_by priority_filter "priority" r)
                                (rows projects) |} in
       (forall r, r ∈ rows filtered_projects <->
                  r ∈ rows projects
                  /\ App.passes type_filter "type" r
                  /\ App.passes status_filter "status" r
                  /\ App.passes priority_filter "priority" r)
       /\ (type_filter = [] -> status_filter = [] -> priority_filter = [] ->
           filtered_projects = projects)
       /\ App.apply_filters type_filter status_filter priority_filter projects
          = Ok filtered_projects
       /\ col_sum filtered_projects "budget_aed" = Ok budget
       /\ col_mean filtered_projects "completion_percentage" = Ok avg_progress
       /\ App.count_eq filtered_projects "status" (VStr "Completed") = Ok completed
       /\ select_columns ["project_id"; "project_name"; "type"; "status";
                          "completion_percentage"; "budget_aed"; "priority"]
            filtered_projects = Ok display
       /\ sort_values argsort "budget_aed" false display = Ok details
       /\ shown = [App.Metric "Projects" (App.count (len filtered_projects));
                   App.Metric "Total Budget" (App.num budget);
                   App.Metric "Avg Progress" avg_progress;
                   App.Metric "Completed" (App.count completed);
                   App.Table "Progress Distribution" filtered_projects;
                   App.Table "Budget vs Progress" filtered_projects;
                   App.Table "Project Details" details].
Proof.
  intros H. unfold App.project_analytics in H.
  view_step H. rename x into projects, Hx into Hprojects.
  view_step H. apply bind_Ok in Hx as (ct & Ht%getitem_Ok & _).
  view_step H. apply bind_Ok in Hx as (cs & Hs%getitem_Ok & _).
  view_step H. apply bind_Ok in Hx as (cp & Hp%getitem_Ok & _).
  view_step H. rename x2 into filtered, Hx into Hfiltered.
  rewrite (apply_filters_rows _ _ _ _ Ht Hs Hp) in Hfiltered.
  injection Hfiltered as <-.
  view_step H. rename Hx into Hbudget.
  view_step H. rename Hx into Havg.
  view_step H. rename Hx into Hcompleted.
  view_step H. rename Hx into Hdisplay.
  view_step H. rename Hx into Hdetails.
  apply ret_Ok in H as [<- ->].
  eexists projects, _, _, _, _, _. split; [done|]. split; [done|]. cbv zeta.
  split; [|split; [|split; [by apply apply_filters_rows|]]].
  - intros r. simpl. rewrite list_elem_of_In, filter_In, <- list_elem_of_In.
    rewrite !andb_true_iff, !selected_by_passes. tauto.
  - intros -> -> ->. simpl. rewrite filter_all. by destruct projects.
  - split; [exact Hbudget|]. split; [exact Havg|]. split; [exact Hcompleted|].
    split; [exact Hdisplay|]. split; [exact Hdetails|]. reflexivity.
Qed.

(** The view of the sample projects of type Residential and of priority
    High or Low. *)
Lemma filters_conjunctive_witness :
  exists projects budget avg_progress completed display details,
    Samples.data !! "projects" = Some projects
    /\ Samples.data = Samples.data
    /\ let filtered_projects :=
         {| columns := columns projects;
            rows := List.filter (fun r => App.selected_by [VStr "Residential"] "type" r
                                          && App.selected_by [] "status" r
                                          && App.selected_by [VStr "High"; VStr "Low"]
                                               "priority" r)
                                (rows projects) |} in
       (forall r, r ∈ rows filtered_projects <->
                  r ∈ rows projects
                  /\ App.passes [VStr "Residential"] "type" r
                  /\ App.passes [] "status" r
                  /\ App.passes [VStr "High"; VStr "Low"] "priority" r)
       /\ ([VStr "Residential"] = [] -> @nil value = [] -> [VStr "High"; VStr "Low"] = [] ->
           filtered_projects = projects)
       /\ App.apply_filters [VStr "Residential"] [] [VStr "High"; VStr "Low"] projects
          = Ok filtered_projects
       /\ col_sum filtered_projects "budget_aed" = Ok budget
       /\ col_mean filtered_projects "completion_percentage" = Ok avg_progress
       /\ App.count_eq filtered_projects "status" (VStr "Completed") = Ok completed
       /\ select_columns ["project_id"; "project_name"; "type"; "status";
                          "completion_percentage"; "budget_aed"; "priority"]
            filtered_projects = Ok display
       /\ sort_values Samples.stable_argsort "budget_aed" false display = Ok details
       /\ Samples.analytics
          = [App.Metric "Projects" (App.count (len filtered_projects));
             App.Metric "Total Budget" (App.num budget);
             App.Metric "Avg Progress" avg_progress;
             App.Metric "Completed" (App.count completed);
             App.Table "Progress Distribution" filtered_projects;
             App.Table "Budget vs Progress" filtered_projects;
             App.Table "Project Details" details].
Proof.
  apply (filters_conjunctive Samples.stable_argsort
           [VStr "Residential"] [] [VStr "High"; VStr "Low"]
           Samples.data Samples.data Samples.analytics).
  reflexivity.
Defined.

(** X18: a selection that matches no project, in Project Analytics.
    The view still renders: 0 projects, a total budget of 0, an average
    progress that is not a number, 0 completed, and three tables without
    rows; the loaded tables are left as they were. *)
Theorem empty_selection_metrics (argsort : list Qc -> list nat)
    (type_filter status_filter priority_filter : list value)
    (data : gmap string DataFrame) (projects : DataFrame) :
  data !! "projects" = Some projects ->
  Forall (fun c => has_column projects c = true)
    ["project_id"; "project_name"; "type"; "status"; "completion_percentage"; "budget_aed";
     "priority"] ->
  List.filter (fun r => App.selected_by type_filter "type" r
                        && App.selected_by status_filter "status" r
                        && App.selected_by priority_filter "priority" r) (rows projects) = [] ->
  App.project_analytics argsort type_filter status_filter priority_filter data
  = (Ok [App.Metric "Projects" (FFin 0);
         App.Metric "Total Budget" (FFin 0);
         App.Metric "Avg Progress" FNaN;
         App.Metric "Completed" (FFin 0);
         App.Table "Progress Distribution" {| columns := columns projects; rows := [] |};
         App.Table "Budget vs Progress" {| columns := columns projects; rows := [] |};
         App.Table "Project Details"
           {| columns := ["project_id"; "project_name"; "type"; "status";
                          "completion_percentage"; "budget_aed"; "priority"];
              rows := [] |}],
     data).
Proof.
  intros Hd Hcols Hnone.
  repeat (apply Forall_cons in Hcols as [? Hcols]).
  unfold App.project_analytics, App.bindM, App.read, App.pure, App.ret, DataAnalytics.table.
  rewrite Hd. unfold getitem.
  repeat match goal with H : has_column projects _ = true |- _ => rewrite H end.
  cbn [bind].
  rewrite apply_filters_rows by done. rewrite Hnone.
  unfold col_sum, col_mean, App.count_eq, select_columns, has_column in *. cbn [columns rows].
  repeat match goal with H : bool_decide _ = true |- _ => rewrite H end.
  cbn.
  repeat match goal with H : bool_decide _ = true |- _ => rewrite H end.
  cbn. unfold sort_values, has_column. cbn [columns rows].
  rewrite bool_decide_eq_true_2 by compute_done. cbn.
  rewrite gather_empty. unfold App.count, App.num. rewrite Qc_of_nat_0. done.
Qed.

(** No sample project is of type Tunnel: the view shows zeros and empty
    tables. *)
Lemma empty_selection_metrics_witness :
  App.project_analytics Samples.stable_argsort [VStr "Tunnel"] [] [] Samples.data
  = (Ok [App.Metric "Projects" (FFin 0);
         App.Metric "Total Budget" (FFin 0);
         App.Metric "Avg Progress" FNaN;
         App.Metric "Completed" (FFin 0);
         App.Table "Progress Distribution"
           {| columns := columns Samples.data_projects; rows := [] |};
         App.Table "Budget vs Progress"
           {| columns := columns Samples.data_projects; rows := [] |};
         App.Table "Project Details"
           {| columns := ["project_id"; "project_name"; "type"; "status";
                          "completion_percentage"; "budget_aed"; "priority"];
              rows := [] |}],
     Samples.data).
Proof.
  apply (empty_selection_metrics Samples.stable_argsort [VStr "Tunnel"] [] [] Samples.data
           Samples.data_projects).
  - reflexivity.
  - repeat constructor.
  - reflexivity.
Defined.

(** ** The options of a filter *)







(** ** The order of group keys *)

Lemma string_compare_refl s : (s ?= s)%string = Eq.
Proof.
  pose proof (String.compare_antisym s s) as H. destruct (s ?= s)%string; done.
Qed.

Lemma ascii_compare_trans a b c :
  Ascii.compare a b = Lt -> Ascii.compare b c = Lt -> Ascii.compare a c = Lt.
Proof.
  unfold Ascii.compare. rewrite !N.compare_lt_iff. apply N.lt_trans.
Qed.

Lemma string_compare_trans s1 s2 s3 :
  (s1 ?= s2)%string = Lt -> (s2 ?= s3)%string = Lt -> (s1 ?= s3)%string = Lt.
Proof.
  revert s2 s3. induction s1 as [|a s1 IH]; intros [|b s2] [|c s3]; simpl; try done.
  destruct (Ascii.compare a b) eqn:Eab; try done.
  - apply Ascii.compare_eq_iff in Eab as ->.
    destruct (Ascii.compare b c) eqn:Ebc; try done. apply IH.
  - intros _. destruct (Ascii.compare b c) eqn:Ebc; try done.
    + apply Ascii.compare_eq_iff in Ebc as <-. by rewrite Eab.
    + by rewrite (ascii_compare_trans a b c).
Qed.

Lemma value_ltb_irrefl v : value_ltb v v = false.
Proof.
  destruct v; simpl; try done.
  - apply bool_decide_eq_false. intros H. by apply Qclt_not_eq in H.
  - unfold String.ltb. by rewrite string_compare_refl.
  - apply bool_decide_eq_false. lia.
Qed.

Lemma value_ltb_trans a b c :
  value_ltb a b = true -> value_ltb b c = true -> value_ltb a c = true.
Proof.
  destruct a, b, c; simpl; try done.
  - rewrite !bool_decide_eq_true. apply Qclt_trans.
  - unfold String.ltb.
    destruct (s ?= s0)%string eqn:E1; try done. destruct (s0 ?= s1)%string eqn:E2; try done.
    by rewrite (string_compare_trans _ _ _ E1 E2).
  - rewrite !bool_decide_eq_true. lia.
Qed.

Lemma value_ltb_total a b :
  isna a = false -> isna b = false -> a <> b -> value_ltb a b = false -> value_ltb b a = true.
Proof.
  destruct a, b; simpl; try done.
  - intros _ _ Hne H%bool_decide_eq_false. apply bool_decide_eq_true.
    apply Qcnot_lt_le, Qcle_lt_or_eq in H as [H|H]; [done|]. by subst.
  - intros _ _ Hne. unfold String.ltb. rewrite (String.compare_antisym s0 s).
    destruct (s ?= s0)%string eqn:E; try done.
    apply String.compare_eq_iff in E. by subst.
  - intros _ _ Hne H%bool_decide_eq_false. apply bool_decide_eq_true.
    assert (t <> t0) by congruence. lia.
Qed.

(** ** What [groupby] returns *)

Lemma keys_sorted_NoDup ks : keys_sorted ks -> NoDup ks.
Proof.
  induction 1 as [|k ks _ IH Hk]; constructor; [|done].
  intros Hin. rewrite Forall_forall in Hk. specialize (Hk k Hin).
  by rewrite value_ltb_irrefl in Hk.
Qed.

Lemma group_insert_split k r (gs : list (value * list Row)) :
  keys_sorted gs.*1 -> Forall (fun g : value * list Row => isna g.1 = false) gs ->
  isna k = false ->
  exists pre post,
    Forall (fun g : value * list Row => value_ltb g.1 k = true) pre
    /\ Forall (fun g : value * list Row => value_ltb k g.1 = true) post
    /\ ((gs = pre ++ post /\ group_insert k r gs = pre ++ (k, [r]) :: post)
        \/ exists g, gs = pre ++ (k, g) :: post
                     /\ group_insert k r gs = pre ++ (k, g ++ [r]) :: post).
Proof.
  intros Hs Hna Hk. induction gs as [|[k0 g0] gs IH].
  - exists [], []. split; [constructor|]. split; [constructor|]. by left.
  - rewrite fmap_cons in Hs. apply StronglySorted_inv in Hs as [Hs Hk0]. cbn [fst] in Hk0.
    apply Forall_cons in Hna as [Hna0 Hna]. cbn [fst] in Hna0.
    cbn [group_insert]. destruct (decide (k = k0)) as [->|Hne].
    + rewrite bool_decide_eq_true_2 by done.
      exists [], gs. split; [constructor|]. split; [by apply Forall_fmap in Hk0|].
      right. by exists g0.
    + rewrite bool_decide_eq_false_2 by done. destruct (value_ltb k k0) eqn:Elt.
      * exists [], ((k0, g0) :: gs). split; [constructor|]. split; [|by left].
        constructor; [done|]. apply Forall_fmap in Hk0.
        eapply Forall_impl; [exact Hk0|]. intros g Hg. by eapply value_ltb_trans.
      * destruct (IH Hs Hna) as (pre & post & Hpre & Hpost & Hcase).
        exists ((k0, g0) :: pre), post. split; [|split; [done|]].
        { constructor; [|done]. by apply value_ltb_total. }
        destruct Hcase as [[-> ->]|(g & -> & ->)]; [by left|right; by exists g].
Qed.

Lemma with_key_app key k rs1 rs2 :
  with_key key k (rs1 ++ rs2) = with_key key k rs1 ++ with_key key k rs2.
Proof. apply filter_app_bool. Qed.

Lemma with_key_nil key k rs :
  (forall r, r ∈ rs -> cell key r <> k) -> with_key key k rs = [].
Proof.
  intros H. unfold with_key. induction rs as [|r rs IH]; simpl; [done|].
  rewrite bool_decide_eq_false_2; [|apply H; by left].
  apply IH. intros r' Hr'. apply H. by right.
Qed.

Lemma groups_of_step key rs r gs :
  groups_of key rs gs ->
  groups_of key (rs ++ [r])
    (if isna (cell key r) then gs else group_insert (cell key r) r gs).
Proof.
  intros (Hs & Hg & Hall). destruct (isna (cell key r)) eqn:Ena.
  - split; [done|]. split.
    + eapply Forall_impl; [exact Hg|]. intros [k g] (Hk & Hg' & Hne). split; [done|].
      split; [|done]. simpl in *. rewrite Hg' at 1.
      rewrite with_key_app. unfold with_key at 3. simpl.
      rewrite bool_decide_eq_false_2; [by rewrite app_nil_r|].
      intros E. congruence.
    + intros r' [Hr'|Hr']%elem_of_app Hna; [by apply Hall|].
      apply list_elem_of_singleton in Hr' as ->. congruence.
  - set (k := cell key r) in *.
    assert (Hna : Forall (fun g : value * list Row => isna g.1 = false) gs).
    { eapply Forall_impl; [exact Hg|]. by intros g (? & _). }
    destruct (group_insert_split k r gs Hs Hna Ena) as (pre & post & Hpre & Hpost & Hcase).
    assert (Hother : forall g : value * list Row, g.1 <> k ->
              isna g.1 = false /\ g.2 = with_key key g.1 rs /\ g.2 <> [] ->
              isna g.1 = false /\ g.2 = with_key key g.1 (rs ++ [r]) /\ g.2 <> []).
    { intros [k' g'] Hne (Hk' & Hg' & Hne'). split; [done|]. split; [|done]. simpl in *.
      rewrite Hg' at 1. rewrite with_key_app. unfold with_key at 3. simpl.
      rewrite bool_decide_eq_false_2; [by rewrite app_nil_r|]. fold k. congruence. }
    assert (Hlt_ne : forall g : value * list Row, value_ltb g.1 k = true -> g.1 <> k).
    { intros g Hlt E. rewrite E, value_ltb_irrefl in Hlt. done. }
    assert (Hgt_ne : forall g : value * list Row, value_ltb k g.1 = true -> g.1 <> k).
    { intros g Hlt E. rewrite E, value_ltb_irrefl in Hlt. done. }
    destruct Hcase as [[-> ->]|(g & -> & ->)].
    + apply Forall_app in Hg as [Hg1 Hg2]. rewrite fmap_app in Hs.
      split; [|split].
      * rewrite fmap_app, fmap_cons. cbn [fst].
        apply StronglySorted_app in Hs as (H12 & H1 & H2).
        apply StronglySorted_app_2; [|done|].
        -- intros x1 x2 Hx1 [->|Hx2]%elem_of_cons; [|by apply H12].
           apply list_elem_of_fmap in Hx1 as (g1 & -> & Hg1').
           rewrite Forall_forall in Hpre. by apply Hpre.
        -- constructor; [done|]. by apply Forall_fmap.
      * apply Forall_app. split.
        -- rewrite Forall_forall in *. intros g Hgin. apply Hother; [|by apply Hg1].
           by apply Hlt_ne, Hpre.
        -- constructor.
           ++ split; [done|]. split; [|done]. cbn [fst snd]. rewrite with_key_app, with_key_nil.
              ** unfold with_key. simpl. fold k. by rewrite bool_decide_eq_true_2.
              ** intros r' Hr' E. assert (Hin : k ∈ (pre ++ post).*1).
                 { rewrite <- E. apply Hall; [done|]. by rewrite E. }
                 rewrite fmap_app in Hin.
                 apply elem_of_app in Hin as [Hin|Hin];
                   apply list_elem_of_fmap in Hin as (g & Eg & Hgin).
                 --- rewrite Forall_forall in Hpre. by apply (Hlt_ne g (Hpre g Hgin)).
                 --- rewrite Forall_forall in Hpost. by apply (Hgt_ne g (Hpost g Hgin)).
           ++ rewrite Forall_forall in *. intros g Hgin. apply Hother; [|by apply Hg2].
              by apply Hgt_ne, Hpost.
      * intros r' [Hr'|Hr']%elem_of_app Hna'.
        -- specialize (Hall r' Hr' Hna'). rewrite fmap_app in Hall.
           rewrite fmap_app, fmap_cons, elem_of_app, elem_of_cons.
           apply elem_of_app in Hall. tauto.
        -- apply list_elem_of_singleton in Hr' as ->. fold k.
           rewrite fmap_app, fmap_cons, elem_of_app, elem_of_cons. right. by left.
    + assert (Ekeys : (pre ++ (k, g ++ [r]) :: post).*1 = (pre ++ (k, g) :: post).*1).
      { by rewrite !fmap_app, !fmap_cons. }
      split; [by rewrite Ekeys|]. split.
      * apply Forall_app in Hg as [Hg1 Hg2]. apply Forall_cons in Hg2 as [(_ & Hgk & _) Hg2].
        cbn [fst snd] in Hgk. apply Forall_app. split.
        -- rewrite Forall_forall in *. intros g' Hgin. apply Hother; [|by apply Hg1].
           by apply Hlt_ne, Hpre.
        -- constructor.
           ++ split; [done|]. cbn [fst snd]. split; [|by destruct g].
              rewrite with_key_app, <- Hgk.
              unfold with_key. simpl. fold k. by rewrite bool_decide_eq_true_2.
           ++ rewrite Forall_forall in *. intros g' Hgin. apply Hother; [|by apply Hg2].
              by apply Hgt_ne, Hpost.
      * rewrite Ekeys. intros r' [Hr'|Hr']%elem_of_app Hna'; [by apply Hall|].
        apply list_elem_of_singleton in Hr' as ->. fold k.
        rewrite fmap_app, fmap_cons, elem_of_app, elem_of_cons. right. by left.
Qed.

Lemma groups_from key rs0 rs gs :
  groups_of key rs0 gs ->
  groups_of key (rs0 ++ rs)
    (foldl (fun gs r => let k := cell key r in
                        if isna k then gs else group_insert k r gs) gs rs).
Proof.
  revert rs0 gs. induction rs as [|r rs IH]; intros rs0 gs H.
  - by rewrite app_nil_r.
  - cbn [foldl]. replace (rs0 ++ r :: rs) with ((rs0 ++ [r]) ++ rs) by (by rewrite <- app_assoc).
    apply IH. by apply groups_of_step.
Qed.

Lemma groups_spec key rs : groups_of key rs (groups key rs).
Proof.
  apply (groups_from key [] rs []). split; [constructor|]. split; [constructor|].
  intros r Hr. by apply elem_of_nil in Hr.
Qed.

Lemma groups_member key rs k g :
  (k, g) ∈ groups key rs <-> isna k = false /\ with_key key k rs <> [] /\ g = with_key key k rs.
Proof.
  destruct (groups_spec key rs) as (Hs & Hg & Hall). split.
  - intros Hin. rewrite Forall_forall in Hg. destruct (Hg _ Hin) as (H1 & H2 & H3).
    cbn [fst snd] in *. split; [done|]. by rewrite <- H2.
  - intros (Hk & Hne & ->).
    destruct (with_key key k rs) as [|r rs'] eqn:E; [done|].
    assert (Hr : r ∈ with_key key k rs) by (rewrite E; by left).
    apply list_elem_of_In, filter_In in Hr as [Hr Hkr]. apply list_elem_of_In in Hr.
    apply bool_decide_eq_true in Hkr. subst k.
    specialize (Hall r Hr Hk). apply list_elem_of_fmap in Hall as ([k' g'] & Hk' & Hin).
    cbn [fst] in Hk'. rewrite Forall_forall in Hg. destruct (Hg _ Hin) as (_ & H2 & _).
    cbn [fst snd] in H2. rewrite H2, <- Hk', E in Hin. exact Hin.
Qed.

Lemma groupby_sum_Ok df key val s :
  groupby_sum df key val = Ok s ->
  s = (fun g : value * list Row => (g.1, series_sum (float_of val <$> g.2)))
        <$> groups key (rows df).
Proof.
  unfold groupby_sum, groupby. destruct (has_column df key); [|done]. cbn [bind].
  destruct (has_column df val); [|done]. by intros [_ ->]%group_sums_iff.
Qed.

Lemma groupby_sum_keys (df : DataFrame) (key val : string) (s : list (value * Qc)) :
  groupby_sum df key val = Ok s ->
  keys_sorted s.*1
  /\ NoDup s.*1
  /\ forall k q, (k, q) ∈ s <->
       isna k = false
       /\ with_key key k (rows df) <> []
       /\ q = series_sum (float_of val <$> with_key key k (rows df)).
Proof.
  intros ->%groupby_sum_Ok. destruct (groups_spec key (rows df)) as (Hs & _ & _).
  assert (Ek : ((fun g : value * list Row => (g.1, series_sum (float_of val <$> g.2)))
                  <$> groups key (rows df)).*1 = (groups key (rows df)).*1).
  { rewrite <- list_fmap_compose. done. }
  rewrite Ek. split; [done|]. split; [by apply keys_sorted_NoDup|].
  intros k q. rewrite list_elem_of_fmap. split.
  - intros ([k' g] & [= -> ->] & Hin). apply groups_member in Hin as (H1 & H2 & ->). done.
  - intros (H1 & H2 & ->). exists (k, with_key key k (rows df)). split; [done|].
    by apply groups_member.
Qed.

Lemma sum_for_Some s k q : NoDup s.*1 -> sum_for s k = Some q <-> (k, q) ∈ s.
Proof.
  intros Hnd. unfold sum_for. split.
  - destruct (List.find _ s) as [[k' q']|] eqn:E; [|done]. intros [= <-].
    apply find_some in E as [Hin Hk]. apply bool_decide_eq_true in Hk. simpl in Hk. subst.
    by apply list_elem_of_In.
  - intros Hin. by rewrite (find_unique fst s k (k, q) Hnd Hin).
Qed.

Lemma sum_for_None s k : sum_for s k = None <-> k ∉ s.*1.
Proof.
  unfold sum_for. split.
  - destruct (List.find _ s) eqn:E; [done|]. intros _ ([k' q] & -> & Hin)%list_elem_of_fmap.
    pose proof (find_no_match _ _ E _ Hin) as Hf. simpl in Hf.
    by apply bool_decide_eq_false in Hf.
  - intros Hn. destruct (List.find _ s) as [[k' q]|] eqn:E; [|done].
    apply find_some in E as [Hin Hk]. apply bool_decide_eq_true in Hk. simpl in Hk. subst.
    destruct Hn. apply list_elem_of_fmap. exists (k, q). split; [done|]. by apply list_elem_of_In.
Qed.

Lemma groupby_sum_for df key val s k :
  groupby_sum df key val = Ok s -> isna k = false ->
  default 0 (sum_for s k) = series_sum (float_of val <$> with_key key k (rows df)).
Proof.
  intros Hs Hk. destruct (groupby_sum_keys df key val s Hs) as (_ & Hnd & Hmem).
  destruct (sum_for s k) as [q|] eqn:E.
  - apply sum_for_Some in E; [|done]. apply Hmem in E as (_ & _ & ->). done.
  - apply sum_for_None in E. simpl.
    destruct (with_key key k (rows df)) as [|r rs'] eqn:Ew; [done|].
    destruct E. apply list_elem_of_fmap.
    exists (k, series_sum (float_of val <$> with_key key k (rows df))). split; [done|].
    apply Hmem. rewrite Ew. done.
Qed.

(** X8: [groupby(key)[val].sum()], key by key.  When it returns, the
    keys come in strictly ascending order, and it has an entry (k, q)
    exactly when k is not absent, some row has the key k, and q is the
    sum of the value column over the rows with that key. *)
Theorem groupby_sum_per_key (df : DataFrame) (key val : string) (s : list (value * Qc)) :
  groupby_sum df key val = Ok s ->
  keys_sorted s.*1
  /\ NoDup s.*1
  /\ forall k q, (k, q) ∈ s <->
       isna k = false
       /\ with_key key k (rows df) <> []
       /\ q = series_sum (float_of val <$> with_key key k (rows df)).
Proof. apply groupby_sum_keys. Qed.

(** The group sums of the grouped sample. *)
Lemma groupby_sum_per_key_witness :
  keys_sorted Samples.group_sums.*1
  /\ NoDup Samples.group_sums.*1
  /\ forall k q, (k, q) ∈ Samples.group_sums <->
       isna k = false
       /\ with_key "g" k (rows Samples.grouped) <> []
       /\ q = series_sum (float_of "v" <$> with_key "g" k (rows Samples.grouped)).
Proof.
  apply (groupby_sum_per_key Samples.grouped "g" "v" Samples.group_sums).
  reflexivity.
Defined.

(** ** Joining an aggregate onto a table *)

Lemma rename_row_id (f : string -> string) (r : Row) :
  (forall c, is_Some (r !! c) -> f c = c) -> rename_row f r = r.
Proof.
  intros Hf. unfold rename_row. rewrite <- (list_to_map_to_list r) at 2. f_equal.
  rewrite <- (list_fmap_id (map_to_list r)) at 2. apply Forall_fmap_ext, Forall_forall.
  intros [c v] Hin. simpl. rewrite Hf; [done|]. apply elem_of_map_to_list in Hin. eauto.
Qed.

Lemma rename_row_singleton (f : string -> string) c v :
  rename_row f ({[c := v]} : Row) = {[f c := v]}.
Proof. unfold rename_row. rewrite map_to_list_singleton. simpl. apply insert_empty. Qed.

Lemma bind_singletons {A B} (f : A -> list B) (g : A -> B) (l : list A) :
  Forall (fun x => f x = [g x]) l -> l ≫= f = g <$> l.
Proof.
  induction 1 as [|x l Hx _ IH]; [done|]. rewrite bind_cons, fmap_cons, Hx, IH. done.
Qed.

Lemma filter_fmap_bool {A B} (f : A -> B) (p : B -> bool) (l : list A) :
  List.filter p (f <$> l) = f <$> List.filter (fun x => p (f x)) l.
Proof.
  induction l as [|x l IH]; [done|]. rewrite fmap_cons. cbn [List.filter].
  destruct (p (f x)); [rewrite fmap_cons|]; by rewrite IH.
Qed.

Lemma filter_absent {A} `{EqDecision B} (f : A -> B) (l : list A) (k : B) :
  k ∉ f <$> l -> List.filter (fun x => bool_decide (f x = k)) l = [].
Proof.
  induction l as [|x l IH]; intros Hk; [done|].
  rewrite fmap_cons, not_elem_of_cons in Hk. destruct Hk as [Hx Hk]. cbn [List.filter].
  rewrite bool_decide_eq_false_2 by congruence. by apply IH.
Qed.

Lemma filter_unique {A} `{EqDecision B} (f : A -> B) (l : list A) (k : B) :
  NoDup (f <$> l) ->
  List.filter (fun x => bool_decide (f x = k)) l
  = match List.find (fun x => bool_decide (f x = k)) l with Some x => [x] | None => [] end.
Proof.
  induction l as [|x l IH]; intros Hnd; [done|].
  rewrite fmap_cons in Hnd. apply NoDup_cons in Hnd as [Hx Hnd]. cbn [List.filter List.find].
  destruct (decide (f x = k)) as [E|E].
  - rewrite bool_decide_eq_true_2 by done. f_equal. apply filter_absent. by rewrite <- E.
  - rewrite bool_decide_eq_false_2 by done. by apply IH.
Qed.

Lemma join_aggregate (left : DataFrame) (s : list (value * Qc)) (on name : string) :
  has_column left on = true ->
  name <> on ->
  name ∉ columns left ->
  Forall (fun r : Row => r !! name = None) (rows left) ->
  NoDup s.*1 ->
  merge Left on left (reset_index on name s)
  = Ok {| columns := columns left ++ [name];
          rows := (fun r : Row =>
                     <[name := match sum_for s (cell on r) with
                               | Some q => VNum q
                               | None => VNaN
                               end]> r) <$> rows left |}.
Proof.
  intros Hon Hne Hname Hrows Hnd. unfold merge. rewrite Hon. cbn [negb].
  assert (Hr : has_column (reset_index on name s) on = true).
  { unfold has_column. apply bool_decide_eq_true. simpl. by left. }
  rewrite Hr. cbn [negb]. cbv zeta. cbn [columns rows reset_index].
  assert (Hfl : forall c, c <> name ->
            (if bool_decide (c <> on /\ c ∈ [on; name]) then c +:+ "_x" else c) = c).
  { intros c Hc. rewrite bool_decide_eq_false_2; [done|].
    intros [H1 [->|[->|H2]%elem_of_cons]%elem_of_cons]; try done. by apply elem_of_nil in H2. }
  assert (Hfr : (if bool_decide (name ∈ columns left) then name +:+ "_y" else name) = name).
  { by rewrite bool_decide_eq_false_2. }
  assert (Hrc : List.filter (fun c => negb (bool_decide (c = on))) [on; name] = [name]).
  { cbn [List.filter]. rewrite bool_decide_eq_true_2 by done.
    rewrite bool_decide_eq_false_2 by done. done. }
  rewrite Hrc. f_equal. f_equal.
  - f_equal.
    + rewrite <- (list_fmap_id (columns left)) at 2. apply Forall_fmap_ext, Forall_forall.
      intros c Hc. unfold id. apply Hfl. intros ->. done.
    + cbn [fmap list_fmap]. by rewrite Hfr.
  - apply bind_singletons. eapply Forall_impl; [exact Hrows|]. intros l Hl. cbv beta.
    assert (Hl' : rename_row (fun c => if bool_decide (c <> on /\ c ∈ [on; name])
                                       then c +:+ "_x" else c) l = l).
    { apply rename_row_id. intros c Hc. apply Hfl. intros ->. rewrite Hl in Hc.
      by destruct Hc. }
    rewrite Hl'.
    rewrite (filter_fmap_bool
               (fun kv : value * Qc => <[on := kv.1]> (<[name := VNum kv.2]> (∅ : Row)))
               (fun r : Row => bool_decide (cell on r = cell on l))).
    assert (Ef : List.filter (fun x : value * Qc =>
                    bool_decide (cell on (<[on := x.1]> (<[name := VNum x.2]> (∅ : Row)))
                                 = cell on l)) s
                 = List.filter (fun x : value * Qc => bool_decide (x.1 = cell on l)) s).
    { apply filter_ext. intros x. by rewrite cell_insert. }
    rewrite Ef, (filter_unique fst s (cell on l) Hnd). unfold sum_for.
    destruct (List.find _ s) as [[k q]|] eqn:E; cbn [fmap list_fmap option_fmap option_map fst snd].
    + f_equal. rewrite delete_insert_id by (by rewrite lookup_insert_ne).
      rewrite insert_empty, rename_row_singleton, Hfr.
      symmetry. by apply insert_union_singleton_r.
    + f_equal. rewrite Hfr. cbn [list_to_map foldr]. rewrite insert_empty.
      symmetry. by apply insert_union_singleton_r.
Qed.

(** ** The financial frame, project by project *)

Lemma mapM_fmap {A B} (f : A -> result B) (g : A -> B) (l : list A) :
  Forall (fun x => f x = Ok (g x)) l -> mapM f l = Ok (g <$> l).
Proof.
  induction 1 as [|x l Hx _ IH]; [done|]. simpl. by rewrite Hx, IH.
Qed.

Lemma assignM_fmap c (f : Row -> result value) (g : Row -> value) df :
  Forall (fun r => f r = Ok (g r)) (rows df) ->
  assignM c f df = Ok {| columns := add_label c (columns df);
                         rows := (fun r : Row => <[c := g r]> r) <$> rows df |}.
Proof.
  intros H. unfold assignM.
  rewrite (mapM_fmap _ (fun r : Row => <[c := g r]> r)); [done|].
  eapply Forall_impl; [exact H|]. intros r Hr. simpl. by rewrite Hr.
Qed.

Lemma floats_fmap c (h : Row -> option Qc) rs :
  Forall (fun r => as_float (cell c r) = Ok (h r)) rs -> floats c rs = Ok (h <$> rs).
Proof. intros H. unfold floats. by apply mapM_fmap. Qed.

Lemma cell_fillna c (r : Row) v : r !! c = Some v -> cell c (fillna0 <$> r) = fillna0 v.
Proof. intros H. unfold cell. by rewrite lookup_fmap, H. Qed.

Lemma cell_Some c (r : Row) v : r !! c = Some v -> cell c r = v.
Proof. intros H. unfold cell. by rewrite H. Qed.

Lemma groupby_sum_total df key val :
  has_column df key = true -> has_column df val = true ->
  Forall (summable val) (rows df) ->
  exists s, groupby_sum df key val = Ok s.
Proof.
  intros Hk Hv Hall. unfold groupby_sum, groupby. rewrite Hk, Hv. cbn [bind].
  eexists. apply group_sums_iff. split; [|done].
  rewrite groups_perm. apply Forall_forall. intros r Hr.
  apply list_elem_of_In, filter_In in Hr as [Hr _]. apply list_elem_of_In in Hr.
  rewrite Forall_forall in Hall. by apply Hall.
Qed.

Lemma select_columns_Ok cs df :
  Forall (fun c => has_column df c = true) cs ->
  select_columns cs df
  = Ok {| columns := cs;
          rows := (fun r : Row => filter (fun kv : string * value => kv.1 ∈ cs) r) <$> rows df |}.
Proof.
  intros H. unfold select_columns.
  destruct (List.find _ cs) as [c|] eqn:E; [|done].
  apply find_some in E as [Hin Hc]. rewrite Forall_forall in H.
  rewrite (H c) in Hc; [done|]. by apply list_elem_of_In.
Qed.

Lemma assignM_over c (f : Row -> result value) (g : Row -> value) cs (S : Row -> Row)
    (base : list Row) :
  Forall (fun r => f (S r) = Ok (g r)) base ->
  assignM c f {| columns := cs; rows := S <$> base |}
  = Ok {| columns := add_label c cs; rows := (fun r : Row => <[c := g r]> (S r)) <$> base |}.
Proof.
  intros H. unfold assignM. cbn [rows columns].
  rewrite (mapM_fmap _ (fun r : Row => <[c := default VNaN (match f r with Ok v => Some v | _ => None end)]> r)).
  - cbn [bind]. f_equal. f_equal. rewrite <- list_fmap_compose. apply Forall_fmap_ext.
    eapply Forall_impl; [exact H|]. intros r Hr. unfold compose. by rewrite Hr.
  - apply Forall_fmap. eapply Forall_impl; [exact H|]. intros r Hr. unfold compose.
    rewrite Hr. done.
Qed.

Lemma floats_over c (h : Row -> option Qc) (S : Row -> Row) (base : list Row) :
  Forall (fun r => as_float (cell c (S r)) = Ok (h r)) base ->
  floats c (S <$> base) = Ok (h <$> base).
Proof.
  intros H. rewrite (floats_fmap c (fun r => match as_float (cell c r) with Ok x => x | _ => None end)).
  - f_equal. rewrite <- list_fmap_compose. apply Forall_fmap_ext.
    eapply Forall_impl; [exact H|]. intros r Hr. unfold compose. by rewrite Hr.
  - apply Forall_fmap. eapply Forall_impl; [exact H|]. intros r Hr. unfold compose.
    by rewrite Hr.
Qed.

Lemma col_op_numbers op a b df r x y :
  has_column df a = true -> has_column df b = true ->
  cell a r = VNum x -> cell b r = VNum y ->
  col_op op a b df r = Ok (VNum (op x y)).
Proof. intros Ha Hb Hx Hy. unfold col_op. by rewrite Ha, Hb, Hx, Hy. Qed.

Lemma fillna0_idemp v : fillna0 (fillna0 v) = fillna0 v.
Proof. by destruct v. Qed.

Lemma fillna_row_idemp (r : Row) : fillna0 <$> (fillna0 <$> r) = fillna0 <$> r.
Proof.
  rewrite <- map_fmap_compose. apply map_fmap_ext. intros c v _. apply fillna0_idemp.
Qed.

Lemma zip_fmap_same {A B C} (f : A -> B) (g : A -> C) (l : list A) :
  zip (f <$> l) (g <$> l) = (fun x => (f x, g x)) <$> l.
Proof. induction l as [|x l IH]; [done|]. rewrite !fmap_cons. cbn [zip zip_with]. by rewrite IH. Qed.

Lemma fillna_mk cs rs :
  fillna {| columns := cs; rows := rs |}
  = {| columns := cs; rows := (fun r : Row => fillna0 <$> r) <$> rs |}.
Proof. done. Qed.

Lemma add_label_new c cs : c ∉ cs -> add_label c cs = cs ++ [c].
Proof. intros H. unfold add_label. by rewrite bool_decide_eq_false_2. Qed.

Lemma fin_df_rows (dfs : gmap string DataFrame) (projects expenses purchase_orders : DataFrame) :
  dfs !! "projects" = Some projects ->
  dfs !! "expenses" = Some expenses ->
  dfs !! "purchase_orders" = Some purchase_orders ->
  Forall (fun c => has_column projects c = true) financial_columns ->
  has_column expenses "project_id" = true ->
  has_column expenses "amount_aed" = true ->
  Forall (summable "amount_aed") (rows expenses) ->
  has_column purchase_orders "project_id" = true ->
  has_column purchase_orders "amount_aed" = true ->
  Forall (summable "amount_aed") (rows purchase_orders) ->
  Forall (fun r : Row => (exists k, r !! "project_id" = Some k /\ isna k = false)
                         /\ exists b, r !! "budget_aed" = Some (VNum b)) (rows projects) ->
  DataAnalytics.fin_df dfs
  = Ok ({| columns := financial_columns
                      ++ ["total_expenses"; "total_pos"; "total_actuals"; "budget_variance"];
           rows := financial_row expenses purchase_orders <$> rows projects |},
        utilization expenses purchase_orders <$> rows projects).
Proof.
  intros Hp He Ho Hcols Hek Hev Hes Hok Hov Hos Hrows.
  unfold financial_row, utilization, financial_columns in *.
  destruct (groupby_sum_total expenses "project_id" "amount_aed" Hek Hev Hes) as [se Hse].
  destruct (groupby_sum_total purchase_orders "project_id" "amount_aed" Hok Hov Hos) as [so Hso].
  unfold DataAnalytics.fin_df, DataAnalytics.table.
  rewrite He, Ho, Hp. cbn [bind]. rewrite Hse, Hso. cbn [bind].
  rewrite (select_columns_Ok _ _ Hcols). cbn [bind].
  destruct (groupby_sum_keys _ _ _ _ Hse) as (_ & Hnde & _).
  destruct (groupby_sum_keys _ _ _ _ Hso) as (_ & Hndo & _).
  set (F0 := fun r : Row => filter (fun kv : string * value =>
                kv.1 ∈ ["project_id"; "project_name"; "budget_aed"; "status"; "type"]) r).
  assert (HF0 : forall r c, c ∈ ["project_id"; "project_name"; "budget_aed"; "status"; "type"] ->
                  F0 r !! c = r !! c).
  { intros r c Hc. unfold F0. destruct (r !! c) as [v|] eqn:E.
    - by apply map_lookup_filter_Some.
    - apply map_lookup_filter_None. by left. }
  assert (HF0n : forall r c, c ∉ ["project_id"; "project_name"; "budget_aed"; "status"; "type"] ->
                  F0 r !! c = None).
  { intros r c Hc. unfold F0. apply map_lookup_filter_None. right. by intros v _. }
  rewrite join_aggregate; [|compute_done|done|compute_done| |done].
  2:{ cbn [rows]. apply Forall_fmap, Forall_forall. intros r _. unfold compose.
      apply HF0n. compute_done. }
  cbn [bind columns rows]. rewrite fillna_mk.
  set (S1 := fun r : Row =>
               <["total_expenses" := VNum (spent expenses (cell "project_id" r))]>
                 (fillna0 <$> F0 r)).
  assert (E1 : (fun r : Row => fillna0 <$> r)
                 <$> ((fun r : Row =>
                         <["total_expenses" := match sum_for se (cell "project_id" r) with
                                               | Some q => VNum q
                                               | None => VNaN
                                               end]> r) <$> (F0 <$> rows projects))
               = S1 <$> rows projects).
  { rewrite <- !list_fmap_compose. apply Forall_fmap_ext.
    eapply Forall_impl; [exact Hrows|]. intros r [(k & Hk & Hna) _]. unfold compose, S1.
    rewrite fmap_insert. f_equal.
    rewrite (cell_Some "project_id" (F0 r) k) by (rewrite HF0; [done|compute_done]).
    rewrite (cell_Some "project_id" r k) by done.
    unfold spent. rewrite <- (groupby_sum_for _ _ _ _ k Hse Hna).
    by destruct (sum_for se k). }
  rewrite E1. clear E1.
  assert (HS1 : forall r k, r !! "project_id" = Some k -> isna k = false ->
                  cell "project_id" (S1 r) = k).
  { intros r k Hk Hna. unfold S1. rewrite cell_insert_ne by done.
    rewrite (cell_fillna _ _ k) by (rewrite HF0; [done|compute_done]). by destruct k. }
  rewrite join_aggregate; [|compute_done|done|compute_done| |done].
  2:{ cbn [rows]. apply Forall_fmap, Forall_forall. intros r _. unfold compose, S1.
      rewrite lookup_insert_ne by done. rewrite lookup_fmap, HF0n; [done|compute_done]. }
  cbn [bind columns rows]. rewrite !fillna_mk.
  set (S2 := fun r : Row =>
               <["total_pos" := VNum (spent purchase_orders (cell "project_id" r))]> (S1 r)).
  assert (E2 : (fun r : Row => fillna0 <$> r)
                 <$> ((fun r : Row =>
                         <["total_pos" := match sum_for so (cell "project_id" r) with
                                          | Some q => VNum q
                                          | None => VNaN
                                          end]> r) <$> (S1 <$> rows projects))
               = S2 <$> rows projects).
  { rewrite <- !list_fmap_compose. apply Forall_fmap_ext.
    eapply Forall_impl; [exact Hrows|]. intros r [(k & Hk & Hna) _]. unfold compose, S2.
    rewrite fmap_insert. f_equal.
    - rewrite (HS1 r k Hk Hna). rewrite (cell_Some "project_id" r k) by done.
      unfold spent. rewrite <- (groupby_sum_for _ _ _ _ k Hso Hna).
      by destruct (sum_for so k).
    - unfold S1. rewrite fmap_insert. cbn [fillna0]. by rewrite fillna_row_idemp. }
  rewrite E2. clear E2.
  assert (HS2e : forall r, cell "total_expenses" (S2 r)
                           = VNum (spent expenses (cell "project_id" r))).
  { intros r. unfold S2, S1. rewrite cell_insert_ne by done. apply cell_insert. }
  assert (HS2p : forall r, cell "total_pos" (S2 r)
                           = VNum (spent purchase_orders (cell "project_id" r))).
  { intros r. unfold S2. apply cell_insert. }
  assert (HS2b : forall r b, r !! "budget_aed" = Some (VNum b) ->
                   cell "budget_aed" (S2 r) = VNum b).
  { intros r b Hb. unfold S2, S1. rewrite !cell_insert_ne by done.
    by rewrite (cell_fillna _ _ (VNum b)) by (rewrite HF0; [done|compute_done]). }
  rewrite (assignM_over "total_actuals" _
             (fun r => VNum (spent expenses (cell "project_id" r)
                             + spent purchase_orders (cell "project_id" r)))).
  2:{ apply Forall_forall. intros r _.
      apply col_op_numbers; [compute_done|compute_done|apply HS2e|apply HS2p]. }
  cbn [bind]. rewrite add_label_new by compute_done.
  rewrite (assignM_over "budget_variance" _
             (fun r => VNum (match cell "budget_aed" r with VNum b => b | _ => 0 end
                             - (spent expenses (cell "project_id" r)
                                + spent purchase_orders (cell "project_id" r))))).
  2:{ eapply Forall_impl; [exact Hrows|]. intros r [_ [b Hb]].
      rewrite (cell_Some "budget_aed" r (VNum b)) by done.
      apply col_op_numbers; [compute_done|compute_done| |].
      - rewrite cell_insert_ne by done. by apply HS2b.
      - apply cell_insert. }
  cbn [bind rows]. rewrite add_label_new by compute_done.
  rewrite (floats_over "total_actuals"
             (fun r => Some (spent expenses (cell "project_id" r)
                             + spent purchase_orders (cell "project_id" r)))).
  2:{ apply Forall_forall. intros r _. rewrite cell_insert_ne by done.
      by rewrite cell_insert. }
  cbn [bind].
  rewrite (floats_over "budget_aed"
             (fun r => Some (match cell "budget_aed" r with VNum b => b | _ => 0 end))).
  2:{ eapply Forall_impl; [exact Hrows|]. intros r [_ [b Hb]].
      rewrite (cell_Some "budget_aed" r (VNum b)) by done.
      rewrite !cell_insert_ne by done. by rewrite (HS2b r b Hb). }
  cbn [bind]. rewrite zip_fmap_same, <- list_fmap_compose.
  f_equal.
Qed.

(** X1: the financial-health section of [perform_eda], project by
    project.  When the three tables are there with the columns the section
    reads, the amounts are numbers or absent and every project row has a
    project id and a numeric budget, the section computes, for each row
    of the projects table, in order: the sum of the expense amounts
    booked on its id as [total_expenses], of the purchase-order amounts
    as [total_pos], their sum as [total_actuals], the budget less that
    sum as [budget_variance], and actuals / budget * 100 as the
    utilisation; a project without expenses or orders gets 0, not an
    absent cell. *)
Theorem financial_health_per_project (dfs : gmap string DataFrame)
    (projects expenses purchase_orders : DataFrame) :
  dfs !! "projects" = Some projects ->
  dfs !! "expenses" = Some expenses ->
  dfs !! "purchase_orders" = Some purchase_orders ->
  Forall (fun c => has_column projects c = true) financial_columns ->
  has_column expenses "project_id" = true ->
  has_column expenses "amount_aed" = true ->
  Forall (summable "amount_aed") (rows expenses) ->
  has_column purchase_orders "project_id" = true ->
  has_column purchase_orders "amount_aed" = true ->
  Forall (summable "amount_aed") (rows purchase_orders) ->
  Forall (fun r : Row => (exists k, r !! "project_id" = Some k /\ isna k = false)
                         /\ exists b, r !! "budget_aed" = Some (VNum b)) (rows projects) ->
  exists fin util,
    DataAnalytics.fin_df dfs = Ok (fin, util)
    /\ columns fin = financial_columns
                     ++ ["total_expenses"; "total_pos"; "total_actuals"; "budget_variance"]
    /\ Forall2 (fun (r : Row) (ru : Row * fval) =>
                  exists b,
                    let k := cell "project_id" r in
                    let actuals := spent expenses k + spent purchase_orders k in
                    cell "budget_aed" r = VNum b
                    /\ cell "project_id" ru.1 = k
                    /\ cell "budget_aed" ru.1 = VNum b
                    /\ cell "total_expenses" ru.1 = VNum (spent expenses k)
                    /\ cell "total_pos" ru.1 = VNum (spent purchase_orders k)
                    /\ cell "total_actuals" ru.1 = VNum actuals
                    /\ cell "budget_variance" ru.1 = VNum (b - actuals)
                    /\ ru.2 = fscale (Qc_of_Z 100) (fdiv (Some actuals) (Some b))
                    /\ (b <> 0 -> ru.2 = FFin (actuals / b * Qc_of_Z 100)))
               (rows projects) (zip (rows fin) util).
Proof.
  intros Hp He Ho Hcols Hek Hev Hes Hok Hov Hos Hrows.
  eexists _, _. split; [by apply (fin_df_rows dfs projects expenses purchase_orders)|].
  split; [done|]. cbn [rows]. rewrite zip_fmap_same.
  apply Forall2_fmap_r, Forall_Forall2_diag.
  eapply Forall_impl; [exact Hrows|]. intros r [(k & Hk & Hna) [b Hb]].
  exists b. cbn zeta. cbn [fst snd]. unfold financial_row, utilization.
  rewrite (cell_Some "budget_aed" r (VNum b)) by done.
  rewrite (cell_Some "project_id" r k) by done.
  assert (HF : forall c v, c ∈ financial_columns -> r !! c = Some v ->
            cell c (fillna0 <$> filter (fun kv : string * value => kv.1 ∈ financial_columns) r)
            = fillna0 v).
  { intros c v Hc Hv. apply cell_fillna. by apply map_lookup_filter_Some. }
  split; [done|]. split.
  { rewrite !cell_insert_ne by done. rewrite (HF _ k); [by destruct k|compute_done|done]. }
  split.
  { rewrite !cell_insert_ne by done. by rewrite (HF _ (VNum b)); [|compute_done|]. }
  split.
  { rewrite !cell_insert_ne by done. by rewrite cell_insert. }
  split.
  { rewrite !cell_insert_ne by done. by rewrite cell_insert. }
  split.
  { rewrite !cell_insert_ne by done. by rewrite cell_insert. }
  split; [by rewrite cell_insert|]. split; [done|].
  intros Hb0. unfold fdiv. by rewrite bool_decide_eq_false_2.
Qed.

(** The financial frame of the scenario of the specification. *)
Lemma financial_health_per_project_witness :
  exists fin util,
    DataAnalytics.fin_df Samples.scenario = Ok (fin, util)
    /\ columns fin = financial_columns
                     ++ ["total_expenses"; "total_pos"; "total_actuals"; "budget_variance"]
    /\ Forall2 (fun (r : Row) (ru : Row * fval) =>
                  exists b,
                    let k := cell "project_id" r in
                    let actuals :=
                      spent Samples.scenario_expenses k + spent Samples.scenario_orders k in
                    cell "budget_aed" r = VNum b
                    /\ cell "project_id" ru.1 = k
                    /\ cell "budget_aed" ru.1 = VNum b
                    /\ cell "total_expenses" ru.1 = VNum (spent Samples.scenario_expenses k)
                    /\ cell "total_pos" ru.1 = VNum (spent Samples.scenario_orders k)
                    /\ cell "total_actuals" ru.1 = VNum actuals
                    /\ cell "budget_variance" ru.1 = VNum (b - actuals)
                    /\ ru.2 = fscale (Qc_of_Z 100) (fdiv (Some actuals) (Some b))
                    /\ (b <> 0 -> ru.2 = FFin (actuals / b * Qc_of_Z 100)))
               (rows Samples.scenario_projects) (zip (rows fin) util).
Proof.
  apply (financial_health_per_project Samples.scenario Samples.scenario_projects
           Samples.scenario_expenses Samples.scenario_orders).
  - reflexivity.
  - reflexivity.
  - reflexivity.
  - repeat constructor.
  - reflexivity.
  - reflexivity.
  - repeat (constructor; [eexists; reflexivity |]). constructor.
  - reflexivity.
  - reflexivity.
  - constructor.
  - repeat (constructor; [split; [eexists; split; reflexivity | eexists; reflexivity] |]).
    constructor.
Defined.

(** ** The utilisation of [perform_eda] is not guarded *)

Lemma fin_df_utilization dfs fin util :
  DataAnalytics.fin_df dfs = Ok (fin, util) ->
  util = (fun r : Row => fscale (Qc_of_Z 100)
                           (fdiv (float_of "total_actuals" r) (float_of "budget_aed" r)))
           <$> rows fin.
Proof.
  intros H. unfold DataAnalytics.fin_df in H.
  do 10 (apply bind_Ok in H as (? & _ & H)).
  apply bind_Ok in H as (actuals & [_ ->]%floats_iff & H).
  apply bind_Ok in H as (budget & [_ ->]%floats_iff & H).
  injection H as <- <-. by rewrite zip_fmap_same, <- list_fmap_compose.
Qed.

Lemma zero_budget_ratio (a : Qc) :
  let u := fscale (Qc_of_Z 100) (fdiv (Some a) (Some 0)) in
  u <> FFin 0 /\ (a = 0 -> u = FNaN) /\ (0 < a -> u = FPosInf) /\ (a < 0 -> u = FNegInf).
Proof.
  cbv zeta. unfold fdiv. rewrite bool_decide_eq_true_2 by done.
  destruct (decide (a = 0)) as [->|Hne].
  - rewrite bool_decide_eq_true_2 by done. simpl. split; [done|]. split; [done|].
    split; intros H; by apply Qclt_not_eq in H.
  - rewrite bool_decide_eq_false_2 by done. destruct (decide (0 < a)) as [Hpos|Hneg].
    + rewrite bool_decide_eq_true_2 by done. simpl.
      split; [done|]. split; [done|]. split; [done|].
      intros H. exfalso. eapply Qclt_not_le; [exact H|]. by apply Qclt_le_weak.
    + rewrite bool_decide_eq_false_2 by done. simpl.
      split; [done|]. split; [done|]. split; [done|]. done.
Qed.

(** C1 fails on the per-project utilisation of [perform_eda]: the
    division is not guarded.  For every project whose budget is zero the
    utilisation is NaN (nothing spent) or an infinity, never 0.  On a
    disk with two projects without budget (one budget 0, one absent and
    so 0 after [etl_process]), 50 spent on the first, it is +inf and
    NaN, and the script prints these as the average utilisation of the
    two statuses.  The ratios of the dashboard do what the claim says:
    the budget utilisation of Financial Insights is 0 when the total
    budget is zero (0 on the same tables) and expenses / budget * 100
    when it is positive, so 0 for 0 / 0 and 25 for 50 / 200. *)
Theorem utilization_unguarded :
  (forall dfs fin util,
     DataAnalytics.fin_df dfs = Ok (fin, util) ->
     Forall2 (fun (r : Row) (u : fval) =>
                u = fscale (Qc_of_Z 100)
                      (fdiv (float_of "total_actuals" r) (float_of "budget_aed" r))
                /\ forall a, float_of "total_actuals" r = Some a ->
                             float_of "budget_aed" r = Some 0 ->
                     u <> FFin 0
                     /\ (a = 0 -> u = FNaN) /\ (0 < a -> u = FPosInf) /\ (a < 0 -> u = FNegInf))
             (rows fin) util)
  /\ Samples.column_of (DataAnalytics.load_data Samples.unfunded_disk).1 "projects" "budget_aed"
     = Some [Samples.n 0; VNaN]
  /\ bind (DataAnalytics.fin_df Samples.unfunded_tables)
          (fun fu => Ok (cell "budget_aed" <$> rows fu.1,
                         cell "total_actuals" <$> rows fu.1,
                         fu.2))
     = Ok ([Samples.n 0; Samples.n 0], [Samples.n 50; Samples.n 0], [FPosInf; FNaN])
  /\ Samples.printed_means "Average Budget Utilization by Project Status:"
       (DataAnalytics.main Samples.parse_numeric Samples.parse_datetime
          Samples.stable_argsort Samples.unfunded_disk).2
     = Some [(VStr "Open", FPosInf); (VStr "Planning", FNaN)]
  /\ (forall argsort month_label data data' shown,
        App.financial_insights argsort month_label data = (Ok shown, data') ->
        exists expenses projects total_expenses total_budget,
          data !! "expenses" = Some expenses
          /\ data !! "projects" = Some projects
          /\ col_sum expenses "amount_aed" = Ok total_expenses
          /\ col_sum projects "budget_aed" = Ok total_budget
          /\ shown !! 3%nat
             = Some (App.Metric "Budget Utilization"
                       (FFin (App.ratio total_expenses total_budget)))
          /\ (total_budget = 0 -> App.ratio total_expenses total_budget = 0)
          /\ (0 < total_budget ->
              App.ratio total_expenses total_budget
              = total_expenses / total_budget * Qc_of_Z 100))
  /\ Samples.metric "Budget Utilization"
       (App.financial_insights Samples.stable_argsort Samples.month_label
          Samples.unfunded_tables)
     = Some (FFin 0)
  /\ App.ratio 0 0 = 0
  /\ App.ratio (Qc_of_Z 50) (Qc_of_Z 200) = Qc_of_Z 25.
Proof.
  split; [|split; [|split; [|split; [|split; [|split; [|split]]]]]].
  - intros dfs fin util ->%fin_df_utilization.
    apply Forall2_fmap_r, Forall_Forall2_diag, Forall_forall. intros r _.
    split; [done|]. intros a -> ->. apply zero_budget_ratio.
  - compute_done.
  - compute_done.
  - compute_done.
  - intros argsort month_label data data' shown H. unfold App.financial_insights in H.
    do 6 view_step H.
    repeat (apply bindM_Ok in H as (? & ? & _ & H)).
    apply ret_Ok in H as [<- _].
    match goal with
    | He : data !! "expenses" = Some ?e, Hp : data !! "projects" = Some ?p,
      Hte : col_sum ?e "amount_aed" = Ok ?te, Htb : col_sum ?p "budget_aed" = Ok ?tb |- _ =>
        exists e, p, te, tb
    end.
    repeat (split; [done|]). unfold App.ratio. split.
    + intros ->. by rewrite bool_decide_eq_false_2 by (intros H; by apply Qclt_not_eq in H).
    + intros Hpos. by rewrite bool_decide_eq_true_2.
  - compute_done.
  - compute_done.
  - compute_done.
Qed.

(** ** The totals of the report *)

Lemma rectangular_cell df r c :
  rectangular df -> r ∈ rows df -> is_Some (r !! c) <-> c ∈ columns df.
Proof.
  intros H Hr. unfold rectangular in H. rewrite Forall_forall in H.
  rewrite <- elem_of_dom, (H r Hr). apply elem_of_list_to_set.
Qed.

Lemma sum_over_cons {A} (f : A -> Qc) x l : sum_over f (x :: l) = f x + sum_over f l.
Proof. done. Qed.

Lemma sum_over_ext {A} (f g : A -> Qc) l :
  Forall (fun x => f x = g x) l -> sum_over f l = sum_over g l.
Proof.
  induction 1 as [|x l Hx _ IH]; [done|]. by rewrite !sum_over_cons, Hx, IH.
Qed.

Lemma sum_over_plus {A} (f g : A -> Qc) l :
  sum_over (fun x => f x + g x) l = sum_over f l + sum_over g l.
Proof.
  induction l as [|x l IH]; [unfold sum_over; simpl; ring|].
  rewrite !sum_over_cons, IH. ring.
Qed.

Lemma sum_over_indicator (ks : list value) (k0 : value) (a : Qc) :
  NoDup ks ->
  sum_over (fun k => if bool_decide (k0 = k) then a else 0) ks
  = if bool_decide (k0 ∈ ks) then a else 0.
Proof.
  induction 1 as [|k ks Hk _ IH]; [done|].
  rewrite sum_over_cons, IH. destruct (decide (k0 = k)) as [->|Hne].
  - rewrite bool_decide_eq_true_2 by done. rewrite (bool_decide_eq_false_2 (k ∈ ks)) by done.
    rewrite bool_decide_eq_true_2 by (by left). ring.
  - rewrite bool_decide_eq_false_2 by done. destruct (decide (k0 ∈ ks)) as [Hin|Hout].
    + rewrite !bool_decide_eq_true_2; [ring| |done]. by right.
    + rewrite !bool_decide_eq_false_2; [ring| |done]. by intros [?|?]%elem_of_cons.
Qed.

Lemma series_sum_amounts c rs : series_sum (float_of c <$> rs) = sum_over (amount c) rs.
Proof.
  induction rs as [|r rs IH]; [done|]. rewrite fmap_cons, sum_over_cons, <- IH. done.
Qed.

Lemma spent_by_key (t : DataFrame) (ks : list value) :
  NoDup ks ->
  sum_over (spent t) ks
  = sum_over (amount "amount_aed")
      (List.filter (fun x => bool_decide (cell "project_id" x ∈ ks)) (rows t)).
Proof.
  intros Hnd. unfold spent. induction (rows t) as [|x xs IH].
  - unfold with_key. simpl. clear. induction ks as [|k ks IH]; [done|].
    rewrite sum_over_cons, IH. unfold sum_over. simpl. ring.
  - transitivity (sum_over (fun k => (if bool_decide (cell "project_id" x = k)
                                      then amount "amount_aed" x else 0)
                                     + series_sum (float_of "amount_aed"
                                                     <$> with_key "project_id" k xs)) ks).
    + apply sum_over_ext, Forall_forall. intros k _. unfold with_key. cbn [List.filter].
      case_bool_decide; [|ring]. rewrite fmap_cons. unfold series_sum at 1. cbn [foldr].
      done.
    + rewrite sum_over_plus, IH, sum_over_indicator by done. cbn [List.filter].
      case_bool_decide; [by rewrite sum_over_cons|ring].
Qed.

Lemma amount_fillna c (r : Row) v :
  r !! c = Some v -> amount c (fillna0 <$> r) = amount c r.
Proof.
  intros H. unfold amount, float_of. rewrite (cell_fillna c r v H), (cell_Some c r v H).
  by destruct v.
Qed.

Lemma as_float_fillna v x : as_float (fillna0 v) = Ok x -> exists y, as_float v = Ok y.
Proof. destruct v; simpl; eauto. Qed.

Lemma col_sum_Ok df c q :
  col_sum df c = Ok q ->
  has_column df c = true /\ Forall (summable c) (rows df)
  /\ q = sum_over (amount c) (rows df).
Proof.
  unfold col_sum. destruct (has_column df c); [|done]. intros H.
  apply bind_Ok in H as (xs & Hxs & [= <-]). apply floats_iff in Hxs as [Hs ->].
  split; [done|]. split; [done|]. apply series_sum_amounts.
Qed.

Lemma sum_over_fmap {A B} (f : B -> Qc) (g : A -> B) (l : list A) :
  sum_over f (g <$> l) = sum_over (fun x => f (g x)) l.
Proof. unfold sum_over. by rewrite <- list_fmap_compose. Qed.

Lemma gather_subseteq {A} (l : list A) (p : list nat) x : x ∈ gather l p -> x ∈ l.
Proof.
  unfold gather. intros (i & _ & Hi)%list_elem_of_omap. by eapply list_elem_of_lookup_2.
Qed.

Lemma top_n_rows argsort n by_ asc df out :
  top_n argsort n by_ asc df = Ok out ->
  columns out = columns df
  /\ (len out <= n)%nat
  /\ forall r, r ∈ rows out -> r ∈ rows df.
Proof.
  unfold top_n, sort_values. destruct (has_column df by_); [|done].
  destruct (floats by_ (rows df)) as [xs|]; [|done]. cbn [bind]. intros [= <-].
  cbn [columns rows]. split; [done|]. split.
  - unfold len, head. cbn [rows]. rewrite length_take. lia.
  - intros r Hr. unfold head in Hr. apply elem_of_take in Hr as (i & Hr & _).
    apply list_elem_of_lookup_2 in Hr. by eapply gather_subseteq.
Qed.

Lemma nlargest_rows argsort n by_ df out :
  nlargest argsort n by_ df = Ok out ->
  columns out = columns df
  /\ (len out <= n)%nat
  /\ forall r, r ∈ rows out -> r ∈ rows df.
Proof. unfold nlargest. destruct (_ <? _)%nat; apply top_n_rows. Qed.

Lemma select_columns_rows cs df out :
  select_columns cs df = Ok out ->
  columns out = cs
  /\ rows out = (fun r : Row => filter (fun kv : string * value => kv.1 ∈ cs) r) <$> rows df.
Proof.
  unfold select_columns. destruct (List.find _ cs); [done|]. by intros [= <-].
Qed.

(** X13: the totals of the report.  When [generate_html_report] returns
    on a projects table in which every row has every column, without
    columns named total_expenses or total_pos and without absent project
    ids: the total budget is the sum of the budget column of the projects
    table; the total spend is the sum, over the project rows, of what
    expenses and purchase orders book on the project id, so with distinct
    project ids it is the sum of the expenses and orders that are booked
    on some project, and orders or expenses booked on no project count
    for nothing; the chart of top projects has at most ten rows. *)
Theorem report_totals (argsort : list Qc -> list nat) (dfs : gmap string DataFrame)
    (projects expenses purchase_orders : DataFrame) (rep : GenerateReport.report) :
  GenerateReport.generate_html_report argsort dfs = Ok rep ->
  dfs !! "projects" = Some projects ->
  dfs !! "expenses" = Some expenses ->
  dfs !! "purchase_orders" = Some purchase_orders ->
  rectangular projects ->
  Forall (fun c => c ∉ columns projects) ["total_expenses"; "total_pos"] ->
  Forall (fun r : Row => isna (cell "project_id" r) = false) (rows projects) ->
  col_sum projects "budget_aed" = Ok (GenerateReport.total_budget rep)
  /\ GenerateReport.total_spend rep
     = sum_over (fun r => spent expenses (cell "project_id" r)
                          + spent purchase_orders (cell "project_id" r)) (rows projects)
  /\ (NoDup (cell "project_id" <$> rows projects) ->
      GenerateReport.total_spend rep
      = sum_over (amount "amount_aed")
          (List.filter (fun x => bool_decide (cell "project_id" x
                                              ∈ cell "project_id" <$> rows projects))
                       (rows expenses))
        + sum_over (amount "amount_aed")
            (List.filter (fun x => bool_decide (cell "project_id" x
                                                ∈ cell "project_id" <$> rows projects))
                         (rows purchase_orders)))
  /\ (len (GenerateReport.top_projects rep) <= 10)%nat.
Proof.
  intros H Hp He Ho Hrect Hnew Hids.
  apply Forall_cons in Hnew as [Hte Hnew]. apply Forall_cons in Hnew as [Htp _].
  unfold GenerateReport.generate_html_report, DataAnalytics.table in H.
  rewrite Hp, He, Ho in H. cbn [bind] in H.
  apply bind_Ok in H as (se & Hse & H). apply bind_Ok in H as (so & Hso & H).
  destruct (groupby_sum_keys _ _ _ _ Hse) as (_ & Hnde & _).
  destruct (groupby_sum_keys _ _ _ _ Hso) as (_ & Hndo & _).
  assert (Hpid : has_column projects "project_id" = true).
  { destruct (has_column projects "project_id") eqn:E; [done|].
    unfold merge at 1 in H. rewrite E in H. done. }
  assert (Hrow : forall r c, r ∈ rows projects -> c ∉ columns projects -> r !! c = None).
  { intros r c Hr Hc. destruct (r !! c) eqn:E; [|done]. destruct Hc.
    apply (rectangular_cell projects r c Hrect Hr). by rewrite E. }
  rewrite join_aggregate in H; [|done|done|done| |done].
  2:{ apply Forall_forall. intros r Hr. by apply Hrow. }
  cbn [bind] in H.
  rewrite join_aggregate in H; [|apply bool_decide_eq_true; cbn [columns]; apply elem_of_app; left;
                                  unfold has_column in Hpid; by apply bool_decide_eq_true in Hpid
                                |done| | |done].
  2:{ cbn [columns]. intros [?|Hin]%elem_of_app; [done|].
      apply list_elem_of_singleton in Hin. done. }
  2:{ cbn [rows]. apply Forall_fmap, Forall_forall. intros r Hr. unfold compose.
      rewrite lookup_insert_ne by done. by apply Hrow. }
  cbn [bind columns rows] in H. rewrite !fillna_mk in H.
  set (S2 := fun r : Row =>
               <["total_pos" := VNum (spent purchase_orders (cell "project_id" r))]>
                 (<["total_expenses" := VNum (spent expenses (cell "project_id" r))]>
                    (fillna0 <$> r))).
  assert (E2 : (fun r : Row => fillna0 <$> r)
                 <$> ((fun r : Row =>
                         <["total_pos" := match sum_for so (cell "project_id" r) with
                                          | Some q => VNum q
                                          | None => VNaN
                                          end]> r)
                        <$> ((fun r : Row =>
                                <["total_expenses" := match sum_for se (cell "project_id" r) with
                                                      | Some q => VNum q
                                                      | None => VNaN
                                                      end]> r) <$> rows projects))
               = S2 <$> rows projects).
  { rewrite <- !list_fmap_compose.
    apply Forall_fmap_ext. eapply Forall_impl; [exact Hids|]. intros r Hna.
    unfold compose, S2. rewrite !fmap_insert. rewrite cell_insert_ne by done.
    f_equal; [|f_equal].
    - unfold spent. rewrite <- (groupby_sum_for _ _ _ _ _ Hso Hna).
      by destruct (sum_for so _).
    - unfold spent. rewrite <- (groupby_sum_for _ _ _ _ _ Hse Hna).
      by destruct (sum_for se _). }
  rewrite E2 in H. clear E2.
  rewrite (assignM_over "total_actuals" _
             (fun r => VNum (spent expenses (cell "project_id" r)
                             + spent purchase_orders (cell "project_id" r)))) in H.
  2:{ apply Forall_forall. intros r _. apply col_op_numbers.
      - apply bool_decide_eq_true. cbn [columns]. rewrite !elem_of_app.
        left. right. by left.
      - apply bool_decide_eq_true. cbn [columns]. rewrite !elem_of_app. right. by left.
      - unfold S2. rewrite cell_insert_ne by done. apply cell_insert.
      - unfold S2. apply cell_insert. }
  cbn [bind] in H.
  apply bind_Ok in H as (tb & Htb & H). apply bind_Ok in H as (ts & Hts & H).
  apply bind_Ok in H as (avg & _ & H). apply bind_Ok in H as (top & Htop & H).
  apply bind_Ok in H as (tp & Htp' & H).
  assert (Hrep : GenerateReport.total_budget rep = tb /\ GenerateReport.total_spend rep = ts
                 /\ GenerateReport.top_projects rep = tp).
  { repeat (apply bind_Ok in H as (? & _ & H)). by injection H as <-. }
  destruct Hrep as (-> & -> & ->). clear H.
  apply col_sum_Ok in Htb as (Hbc & Hbs & ->). apply col_sum_Ok in Hts as (_ & _ & ->).
  cbn [rows] in *.
  assert (Hbudget : "budget_aed" ∈ columns projects).
  { unfold has_column in Hbc. apply bool_decide_eq_true in Hbc. cbn [columns] in Hbc.
    unfold add_label in Hbc. case_bool_decide; rewrite !elem_of_app in Hbc;
      repeat match goal with
             | H : _ \/ _ |- _ => destruct H as [H|H]
             | H : _ ∈ [_] |- _ => apply list_elem_of_singleton in H
             end; done. }
  assert (Hbv : forall r, r ∈ rows projects -> exists v, r !! "budget_aed" = Some v).
  { intros r Hr. by apply (rectangular_cell projects r "budget_aed" Hrect Hr). }
  assert (Hcell : forall (r : Row) v x, r !! "budget_aed" = Some v ->
            cell "budget_aed" (<["total_actuals" := x]> (S2 r)) = fillna0 v).
  { intros r v x Hv. unfold S2. rewrite !cell_insert_ne by done. by apply cell_fillna. }
  split; [|split; [|split]].
  - unfold col_sum, has_column. rewrite (proj2 (bool_decide_eq_true _) Hbudget).
    rewrite floats_summable.
    + cbn [bind]. f_equal. rewrite series_sum_amounts.
      unfold sum_over. rewrite <- list_fmap_compose. f_equal. apply Forall_fmap_ext.
      apply Forall_forall. intros r Hr. unfold compose. destruct (Hbv r Hr) as [v Hv].
      f_equal. unfold amount, float_of. rewrite (Hcell r v _ Hv), (cell_Some _ _ v Hv).
      by destruct v.
    + apply Forall_forall. intros r Hr. destruct (Hbv r Hr) as [v Hv].
      rewrite Forall_fmap, Forall_forall in Hbs. specialize (Hbs r Hr).
      unfold compose, summable in Hbs. rewrite (Hcell r v _ Hv) in Hbs. destruct Hbs as [x Hx].
      unfold summable. rewrite (cell_Some _ _ v Hv). by eapply as_float_fillna.
  - unfold sum_over. rewrite <- list_fmap_compose. f_equal. apply Forall_fmap_ext.
    apply Forall_forall. intros r _. unfold compose. f_equal.
    unfold amount, float_of. by rewrite cell_insert.
  - intros Hnd. rewrite <- !(spent_by_key _ _ Hnd), !sum_over_fmap, <- sum_over_plus.
    apply sum_over_ext, Forall_forall. intros r _.
    unfold amount, float_of. by rewrite cell_insert.
  - apply nlargest_rows in Htop as (_ & Hlen & _).
    apply select_columns_rows in Htp' as (_ & Hr). unfold len in *. rewrite Hr, length_fmap.
    done.
Qed.

(** The totals of the report made of the sample disk. *)
Lemma report_totals_witness :
  col_sum Samples.cleaned_projects "budget_aed"
  = Ok (GenerateReport.total_budget Samples.the_report)
  /\ GenerateReport.total_spend Samples.the_report
     = sum_over (fun r => spent Samples.cleaned_expenses (cell "project_id" r)
                          + spent Samples.cleaned_orders (cell "project_id" r))
         (rows Samples.cleaned_projects)
  /\ (NoDup (cell "project_id" <$> rows Samples.cleaned_projects) ->
      GenerateReport.total_spend Samples.the_report
      = sum_over (amount "amount_aed")
          (List.filter (fun x => bool_decide (cell "project_id" x
                                              ∈ cell "project_id"
                                                  <$> rows Samples.cleaned_projects))
                       (rows Samples.cleaned_expenses))
        + sum_over (amount "amount_aed")
            (List.filter (fun x => bool_decide (cell "project_id" x
                                                ∈ cell "project_id"
                                                    <$> rows Samples.cleaned_projects))
                         (rows Samples.cleaned_orders)))
  /\ (len (GenerateReport.top_projects Samples.the_report) <= 10)%nat.
Proof.
  apply (report_totals Samples.stable_argsort Samples.cleaned Samples.cleaned_projects
           Samples.cleaned_expenses Samples.cleaned_orders Samples.the_report).
  - reflexivity.
  - reflexivity.
  - reflexivity.
  - reflexivity.
  - repeat (constructor; [reflexivity |]). constructor.
  - compute_done.
  - repeat (constructor; [reflexivity |]). constructor.
Defined.

(** ** A top-n selection holds the extremes *)

Lemma Sorted_Qcle_lookup (asc : bool) (fin : list Qc) i j a b :
  Sorted (if asc then Qcle else flip Qcle) fin ->
  (i < j)%nat -> fin !! i = Some a -> fin !! j = Some b ->
  if asc then a <= b else b <= a.
Proof.
  intros Hs Hij Hi Hj.
  assert (Hss : StronglySorted (if asc then Qcle else flip Qcle) fin).
  { apply Sorted_StronglySorted; [|done]. destruct asc.
    - intros x y z. apply Qcle_trans.
    - intros x y z H1 H2. unfold flip in *. by eapply Qcle_trans. }
  pose proof (StronglySorted_lookup _ fin i j a b Hss Hij Hi Hj) as H. by destruct asc.
Qed.

Lemma in_order_lookup asc (ks : list (option Qc)) i j x y :
  in_order asc ks -> (i < j)%nat -> ks !! i = Some x -> ks !! j = Some y -> precedes asc x y.
Proof.
  intros (fin & nans & -> & Hn & Hs) Hij Hi Hj.
  destruct (decide (j < length (Some <$> fin))%nat) as [Hjf|Hjf].
  - rewrite lookup_app_l in Hi by lia. rewrite lookup_app_l in Hj by done.
    rewrite list_lookup_fmap in Hi, Hj.
    destruct (fin !! i) as [a|] eqn:Ea; [|done]. destruct (fin !! j) as [b|] eqn:Eb; [|done].
    simpl in Hi, Hj. injection Hi as <-. injection Hj as <-. simpl.
    by apply (Sorted_Qcle_lookup asc fin i j).
  - rewrite lookup_app_r in Hj by lia. apply list_elem_of_lookup_2 in Hj.
    rewrite Forall_forall in Hn. rewrite (Hn y Hj). by destruct x.
Qed.

Lemma top_n_extremes argsort n by_ asc df out :
  argsort_spec argsort ->
  top_n argsort n by_ asc df = Ok out ->
  exists rest,
    Permutation (rows out ++ rest) (rows df)
    /\ len out = Nat.min n (len df)
    /\ in_order asc (float_of by_ <$> rows out)
    /\ forall r r', r ∈ rows out -> r' ∈ rest ->
         precedes asc (float_of by_ r) (float_of by_ r').
Proof.
  intros Hs. unfold top_n, sort_values. destruct (has_column df by_); [|done].
  destruct (floats by_ (rows df)) as [xs|] eqn:Ex; [|done]. cbn [bind]. intros [= <-].
  apply floats_iff in Ex as [_ ->]. cbn [rows].
  set (sorted := gather (rows df) (nargsort argsort (float_of by_ <$> rows df) asc)).
  assert (Hp : Permutation sorted (rows df)).
  { apply gather_perm. rewrite <- (length_fmap (float_of by_)). by apply nargsort_perm. }
  assert (Ho : in_order asc (float_of by_ <$> sorted)).
  { unfold sorted. rewrite <- gather_fmap. by apply nargsort_in_order. }
  exists (drop n sorted). unfold head. split; [by rewrite take_drop|]. split; [|split].
  - unfold len. cbn [rows]. rewrite length_take. by rewrite (Permutation_length Hp).
  - destruct Ho as (fin & nans & E & Hn & Hsd). rewrite fmap_take, E.
    destruct (decide (n <= length (Some <$> fin))%nat) as [Hle|Hgt].
    + exists (take n fin), []. rewrite take_app_le by done. rewrite app_nil_r, fmap_take.
      split; [done|]. split; [constructor|].
      rewrite <- (take_drop n fin) in Hsd.
      assert (Hss : StronglySorted (if asc then Qcle else flip Qcle) (take n fin ++ drop n fin)).
      { apply Sorted_StronglySorted; [|done]. destruct asc.
        - intros x y z. apply Qcle_trans.
        - intros x y z H1 H2. unfold flip in *. by eapply Qcle_trans. }
      apply StronglySorted_app_1_l in Hss. by apply StronglySorted_Sorted.
    + exists fin, (take (n - length (Some <$> fin)) nans). rewrite take_app_ge by lia.
      split; [done|]. split; [by apply Forall_take|done].
  - intros r r' Hr Hr'. apply elem_of_take in Hr as (i & Hi & Hin).
    apply list_elem_of_lookup in Hr' as [j Hj]. rewrite lookup_drop in Hj.
    apply (in_order_lookup asc (float_of by_ <$> sorted) i (n + j)); [done|lia| |].
    + by rewrite list_lookup_fmap, Hi.
    + by rewrite list_lookup_fmap, Hj.
Qed.

Lemma mergesort_spec : argsort_spec mergesort.
Proof. apply stable_argsort_spec. Qed.

(** X14: [nlargest(n, by)], under any correct sort.  It returns the
    labels of the frame and min(n, number of rows) of its rows, in
    descending order of [by]; no row left out has a larger value than a
    row returned, and rows without a value are taken last. *)
Theorem nlargest_selects_largest (argsort : list Qc -> list nat) (n : nat) (by_ : string)
    (df out : DataFrame) :
  argsort_spec argsort ->
  nlargest argsort n by_ df = Ok out ->
  columns out = columns df
  /\ exists rest,
       Permutation (rows out ++ rest) (rows df)
       /\ len out = Nat.min n (len df)
       /\ in_order false (float_of by_ <$> rows out)
       /\ forall r r', r ∈ rows out -> r' ∈ rest ->
            precedes false (float_of by_ r) (float_of by_ r').
Proof.
  intros Hs H. split; [by apply nlargest_rows in H as [? _]|].
  unfold nlargest in H. destruct (_ <? _)%nat.
  - by apply (top_n_extremes mergesort n by_ false df out mergesort_spec).
  - by apply (top_n_extremes argsort n by_ false df out Hs).
Qed.

(** The two largest rows of the tied sample. *)
Lemma nlargest_selects_largest_witness :
  columns Samples.top_two = columns Samples.tied
  /\ exists rest,
       Permutation (rows Samples.top_two ++ rest) (rows Samples.tied)
       /\ len Samples.top_two = Nat.min 2 (len Samples.tied)
       /\ in_order false (float_of "v" <$> rows Samples.top_two)
       /\ forall r r', r ∈ rows Samples.top_two -> r' ∈ rest ->
            precedes false (float_of "v" r) (float_of "v" r').
Proof.
  apply (nlargest_selects_largest Samples.stable_argsort 2 "v" Samples.tied Samples.top_two).
  - apply stable_argsort_spec.
  - reflexivity.
Defined.

(** ** The projects over budget *)

(** X6: the over-budget listing of [perform_eda], under any correct
    sort.  When the section runs, it prints the four columns
    project_name, budget_aed, total_actuals and budget_variance of at
    most five rows of the financial frame; every row printed has a
    negative variance, the rows come most overspent first, and no
    over-budget project left out is more overspent than one printed. *)
Theorem over_budget_listing (argsort : list Qc -> list nat) (dfs : gmap string DataFrame)
    (out : list DataAnalytics.printed) :
  argsort_spec argsort ->
  DataAnalytics.present dfs ["projects"; "expenses"; "purchase_orders"] = true ->
  DataAnalytics.project_financial_health argsort dfs = Ok out ->
  exists fin util shown means chosen rest,
    DataAnalytics.fin_df dfs = Ok (fin, util)
    /\ out = [DataAnalytics.PFrame "Top 5 Projects over Budget (by Amount):" shown;
              DataAnalytics.PMeans "Average Budget Utilization by Project Status:" means]
    /\ columns shown = ["project_name"; "budget_aed"; "total_actuals"; "budget_variance"]
    /\ Permutation (chosen ++ rest)
         (List.filter (fun r => is_negative (cell "budget_variance" r)) (rows fin))
    /\ rows shown
       = (fun r : Row =>
            filter (fun kv : string * value =>
                      kv.1 ∈ ["project_name"; "budget_aed"; "total_actuals";
                              "budget_variance"]) r)
           <$> chosen
    /\ length chosen = Nat.min 5 (length (chosen ++ rest))
    /\ Forall (fun r => exists q, cell "budget_variance" r = VNum q /\ q < 0) (rows shown)
    /\ in_order true (float_of "budget_variance" <$> rows shown)
    /\ forall r r', r ∈ chosen -> r' ∈ rest ->
         precedes true (float_of "budget_variance" r) (float_of "budget_variance" r').
Proof.
  intros Hs Hpres H. unfold DataAnalytics.project_financial_health in H. rewrite Hpres in H.
  apply bind_Ok in H as ([fin util] & Hfin & H). cbn [fst snd] in H.
  apply bind_Ok in H as (ob & Hob & H). apply bind_Ok in H as (shown & Hshown & H).
  apply bind_Ok in H as (means & Hmeans & [= <-]).
  destruct (top_n_extremes _ _ _ _ _ _ Hs Hob) as (rest & Hperm & Hlen & Hord & Hext).
  apply select_columns_rows in Hshown as [Hc Hr].
  exists fin, util, shown, means, (rows ob), rest.
  split; [done|]. split; [done|]. split; [done|]. split; [done|]. split; [done|].
  assert (Hcell : forall r : Row,
            cell "budget_variance"
              (filter (fun kv : string * value =>
                         kv.1 ∈ ["project_name"; "budget_aed"; "total_actuals";
                              "budget_variance"]) r)
            = cell "budget_variance" r).
  { intros r. unfold cell. destruct (r !! "budget_variance") as [v|] eqn:E.
    - erewrite map_lookup_filter_Some_2; [done|done|]. cbn [fst]. compute_done.
    - rewrite (proj2 (map_lookup_filter_None _ _ _)); [done|]. by left. }
  split; [|split; [|split]].
  - unfold len in Hlen. cbn [rows] in Hlen.
    by rewrite Hlen, (Permutation_length Hperm).
  - rewrite Hr. apply Forall_fmap, Forall_forall. intros r Hin. unfold compose.
    rewrite Hcell.
    assert (Hin' : r ∈ List.filter (fun r => is_negative (cell "budget_variance" r)) (rows fin)).
    { rewrite <- Hperm. apply elem_of_app. by left. }
    apply list_elem_of_In, filter_In in Hin' as [_ Hneg]. unfold is_negative in Hneg.
    destruct (cell "budget_variance" r) as [q| | | |]; try done.
    exists q. split; [done|]. by apply bool_decide_eq_true in Hneg.
  - rewrite Hr, <- list_fmap_compose.
    erewrite (list_fmap_ext _ (float_of "budget_variance")); [exact Hord|].
    intros i r _. unfold compose, float_of. by rewrite Hcell.
  - done.
Qed.

(** The over-budget listing of the scenario of the specification. *)
Lemma over_budget_listing_witness :
  exists fin util shown means chosen rest,
    DataAnalytics.fin_df Samples.scenario = Ok (fin, util)
    /\ Samples.health
       = [DataAnalytics.PFrame "Top 5 Projects over Budget (by Amount):" shown;
          DataAnalytics.PMeans "Average Budget Utilization by Project Status:" means]
    /\ columns shown = ["project_name"; "budget_aed"; "total_actuals"; "budget_variance"]
    /\ Permutation (chosen ++ rest)
         (List.filter (fun r => is_negative (cell "budget_variance" r)) (rows fin))
    /\ rows shown
       = (fun r : Row =>
            filter (fun kv : string * value =>
                      kv.1 ∈ ["project_name"; "budget_aed"; "total_actuals";
                              "budget_variance"]) r)
           <$> chosen
    /\ length chosen = Nat.min 5 (length (chosen ++ rest))
    /\ Forall (fun r => exists q, cell "budget_variance" r = VNum q /\ q < 0) (rows shown)
    /\ in_order true (float_of "budget_variance" <$> rows shown)
    /\ forall r r', r ∈ chosen -> r' ∈ rest ->
         precedes true (float_of "budget_variance" r) (float_of "budget_variance" r').
Proof.
  apply (over_budget_listing Samples.stable_argsort Samples.scenario Samples.health).
  - apply stable_argsort_spec.
  - reflexivity.
  - reflexivity.
Defined.

(** ** The tables the report needs *)

Lemma table_Ok (dfs : gmap string DataFrame) n df :
  DataAnalytics.table dfs n = Ok df -> dfs !! n = Some df.
Proof. unfold DataAnalytics.table. destruct (dfs !! n); [by intros [= ->]|done]. Qed.

(** X12: [generate_html_report] returns only when the seven tables
    projects, expenses, purchase_orders, clients, tasks, employees and
    risks are all there; without projects it raises a KeyError for
    projects, with projects but without expenses one for expenses.  Its
    result depends on these seven tables only: timesheets and vendors,
    which the loader also reads, change nothing. *)
Theorem report_needs_seven_tables (argsort : list Qc -> list nat)
    (dfs : gmap string DataFrame) :
  (forall rep, GenerateReport.generate_html_report argsort dfs = Ok rep ->
     Forall (fun n => is_Some (dfs !! n)) report_tables)
  /\ (dfs !! "projects" = None ->
      GenerateReport.generate_html_report argsort dfs = Err (MissingTable "projects"))
  /\ (is_Some (dfs !! "projects") -> dfs !! "expenses" = None ->
      GenerateReport.generate_html_report argsort dfs = Err (MissingTable "expenses"))
  /\ (forall dfs' : gmap string DataFrame,
        (forall n, n ∈ report_tables -> dfs' !! n = dfs !! n) ->
        GenerateReport.generate_html_report argsort dfs'
        = GenerateReport.generate_html_report argsort dfs).
Proof.
  split; [|split; [|split]].
  - intros rep H. unfold GenerateReport.generate_html_report in H.
    repeat (apply bind_Ok in H as (? & ? & H)).
    repeat match goal with
           | Ht : DataAnalytics.table dfs _ = Ok _ |- _ => apply table_Ok in Ht
           end.
    unfold report_tables. repeat (constructor; [eauto|]). constructor.
  - intros Hp. unfold GenerateReport.generate_html_report, DataAnalytics.table.
    by rewrite Hp.
  - intros [p Hp] He. unfold GenerateReport.generate_html_report, DataAnalytics.table.
    by rewrite Hp, He.
  - intros dfs' Hag. unfold GenerateReport.generate_html_report, DataAnalytics.table.
    rewrite !Hag by compute_done. done.
Qed.

(** ** How many rows a join returns *)

Lemma length_bind {A B} (f : A -> list B) (l : list A) :
  length (l ≫= f) = sum_list ((fun x => length (f x)) <$> l).
Proof.
  induction l as [|x l IH]; [done|]. rewrite bind_cons, length_app, fmap_cons, IH. done.
Qed.

Lemma sum_list_le (f g : Row -> nat) (l : list Row) :
  (forall x, f x <= g x)%nat -> (sum_list (f <$> l) <= sum_list (g <$> l))%nat.
Proof.
  intros H. induction l as [|x l IH]; [done|]. rewrite !fmap_cons. simpl.
  specialize (H x). lia.
Qed.

Lemma sum_list_ones (l : list Row) : sum_list ((fun _ => 1%nat) <$> l) = length l.
Proof. induction l as [|x l IH]; [done|]. rewrite fmap_cons. simpl. by rewrite IH. Qed.

Lemma partners_unique on right l :
  NoDup (cell on <$> rows right) -> (length (partners on right l) <= 1)%nat.
Proof.
  intros Hnd. unfold partners. rewrite (filter_unique (cell on) (rows right) (cell on l) Hnd).
  destruct (List.find _ _); simpl; lia.
Qed.

(** X9: the number of rows of a [merge].  When the join returns, both
    frames have the key column, and the result has, for each left row,
    one row per right row with the same key (a left join: at least one).
    So a left join never has fewer rows than the left frame, and has
    exactly as many when the right keys are distinct; an inner join then
    has at most as many, and none when no left row finds a partner. *)
Theorem join_row_counts (h : how) (on : string) (left right out : DataFrame) :
  merge h on left right = Ok out ->
  has_column left on = true /\ has_column right on = true
  /\ len out
     = sum_list ((fun l => match h with
                           | Left => Nat.max 1 (length (partners on right l))
                           | Inner => length (partners on right l)
                           end) <$> rows left)
  /\ (h = Left -> (len left <= len out)%nat)
  /\ (h = Inner -> NoDup (cell on <$> rows right) -> (len out <= len left)%nat)
  /\ (h = Left -> NoDup (cell on <$> rows right) -> len out = len left)
  /\ (h = Inner -> Forall (fun l => partners on right l = []) (rows left) -> len out = 0%nat).
Proof.
  unfold merge. destruct (has_column left on); [|done]. destruct (has_column right on); [|done].
  cbn [negb]. cbv zeta. intros [= <-]. split; [done|]. split; [done|].
  unfold len. cbn [rows]. rewrite length_bind.
  set (count := fun l : Row => match h with
                               | Left => Nat.max 1 (length (partners on right l))
                               | Inner => length (partners on right l)
                               end).
  match goal with |- sum_list (?F <$> _) = _ /\ _ => assert (EF : forall l, F l = count l) end.
  { intros l. unfold count. fold (partners on right l).
    destruct (partners on right l) as [|r rs]; destruct h; simpl; try done.
    - by rewrite length_fmap.
    - by rewrite length_fmap. }
  assert (E : forall F : Row -> nat, (forall l, F l = count l) ->
            sum_list (F <$> rows left) = sum_list (count <$> rows left)).
  { intros F HF. f_equal. apply list_fmap_ext. intros i l _. apply HF. }
  rewrite (E _ EF). clear E EF. split; [done|]. split; [|split; [|split]].
  - intros ->. rewrite <- (sum_list_ones (rows left)). apply sum_list_le.
    intros l. unfold count. lia.
  - intros -> Hnd. rewrite <- (sum_list_ones (rows left)). apply sum_list_le.
    intros l. unfold count. by apply partners_unique.
  - intros -> Hnd. rewrite <- (sum_list_ones (rows left)). f_equal.
    apply list_fmap_ext. intros i l _. unfold count.
    pose proof (partners_unique on right l Hnd). lia.
  - intros -> Hnone. induction Hnone as [|l ls Hl _ IH]; [done|].
    rewrite fmap_cons. simpl. unfold count at 1. by rewrite Hl, IH.
Qed.

(** The sample projects joined to their clients. *)
Lemma join_row_counts_witness :
  has_column Samples.projects "client_id" = true
  /\ has_column Samples.clients "client_id" = true
  /\ len Samples.joined
     = sum_list ((fun l => Nat.max 1 (length (partners "client_id" Samples.clients l)))
                   <$> rows Samples.projects)
  /\ (Left = Left -> (len Samples.projects <= len Samples.joined)%nat)
  /\ (Left = Inner -> NoDup (cell "client_id" <$> rows Samples.clients) ->
      (len Samples.joined <= len Samples.projects)%nat)
  /\ (Left = Left -> NoDup (cell "client_id" <$> rows Samples.clients) ->
      len Samples.joined = len Samples.projects)
  /\ (Left = Inner ->
      Forall (fun l => partners "client_id" Samples.clients l = []) (rows Samples.projects) ->
      len Samples.joined = 0%nat).
Proof.
  apply (join_row_counts Left "client_id" Samples.projects Samples.clients Samples.joined).
  reflexivity.
Defined.

(** ** The loader of the report *)

Lemma report_load_tables disk : GenerateReport.load disk = tables_of disk GenerateReport.files ∅.
Proof. done. Qed.

(** X11: [load_and_clean] of the report skips the files that are
    missing: it never raises for a missing file or table, it holds a table
    under a name exactly when the file of that name exists, and when it
    returns, each table is the content of its file with its money column
    cleaned.  It returns exactly when every file that exists has the
    money column listed for its table. *)
Theorem report_load_skips_missing_files (pn : string -> option Qc)
    (disk : gmap string DataFrame) :
  table_fault (GenerateReport.load_and_clean pn disk) = false
  /\ (forall name file, (name, file) ∈ GenerateReport.files ->
        GenerateReport.load disk !! name = disk !! file)
  /\ (forall name, name ∉ GenerateReport.files.*1 -> GenerateReport.load disk !! name = None)
  /\ (forall dfs', GenerateReport.load_and_clean pn disk = Ok dfs' ->
        forall name file, (name, file) ∈ GenerateReport.files ->
          dfs' !! name = apply_specs (money_specs pn name) <$> disk !! file)
  /\ ((exists dfs', GenerateReport.load_and_clean pn disk = Ok dfs')
      <-> forall t c file df, (t, c) ∈ money_columns -> (t, file) ∈ GenerateReport.files ->
            disk !! file = Some df -> has_column df c = true).
Proof.
  assert (Hl : forall name file, (name, file) ∈ GenerateReport.files ->
            GenerateReport.load disk !! name = disk !! file).
  { intros name file Hin. rewrite report_load_tables.
    rewrite (tables_of_lookup disk _ _ name file); [|compute_done|done].
    rewrite lookup_empty. by destruct (disk !! file). }
  assert (Hfile : forall t c, (t, c) ∈ money_columns -> exists file, (t, file) ∈ GenerateReport.files).
  { intros t c Hin. unfold money_columns in Hin.
    apply elem_of_cons in Hin as [[= -> ->]|Hin]; [exists "projects.csv"; compute_done|].
    apply elem_of_cons in Hin as [[= -> ->]|Hin]; [exists "expenses.csv"; compute_done|].
    apply elem_of_cons in Hin as [[= -> ->]|Hin];
      [exists "purchase_orders.csv"; compute_done|].
    apply elem_of_cons in Hin as [[= -> ->]|Hin]; [exists "employees.csv"; compute_done|].
    by apply elem_of_nil in Hin. }
  split; [|split; [|split; [|split]]].
  - unfold GenerateReport.load_and_clean, GenerateReport.clean.
    repeat (apply no_fault_bind; [|intros ?]); apply no_fault_on_table; intros df;
      apply no_fault_transform.
  - exact Hl.
  - intros name Hn. rewrite report_load_tables. by rewrite tables_of_absent, lookup_empty.
  - intros dfs' H name file Hin. unfold GenerateReport.load_and_clean in H.
    apply clean_iff in H as [_ H]. by rewrite H, (Hl name file Hin).
  - unfold GenerateReport.load_and_clean. split.
    + intros [dfs' H] t c file df Hin Hf Hd. apply clean_iff in H as [H _].
      apply (H t c df Hin). by rewrite (Hl t file Hf).
    + intros H.
      exists (map_imap (fun t df => Some (apply_specs (money_specs pn t) df))
                (GenerateReport.load disk)).
      apply clean_iff. split.
      * intros t c df Hin Hd. destruct (Hfile t c Hin) as [file Hf].
        apply (H t c file df Hin Hf). by rewrite <- (Hl t file Hf).
      * intros t. rewrite map_lookup_imap. by destruct (GenerateReport.load disk !! t).
Qed.
